(** * Saree POS: the local transactional state layer of [App.jsx]

    A shallow embedding of the ledger (inventory, cart, sales), of the bulk
    import and the export, and of the start-up migration of
    [src/saree-pos/src/App.jsx], with the properties its specification
    states about them.

    The second part of the file goes on with the rest of that code under the
    same conventions: the edits and the total of the cart, the counters and
    sums of the dashboard, the factory reset behind its PIN, and the sale of
    the earlier variant of the application ([src/unnamed/part_001]); its
    properties are read off the code.

    Conventions of the embedding.
    - A JavaScript string is a [string]; only the 7-bit ASCII range is
      interpreted ([toUpperCase], [toLowerCase] and [trim] leave every other
      character alone).
    - A JavaScript number is a [number]: [NaN], an infinity, or an exact
      decimal.  The binary rounding of IEEE doubles, and their overflow, are
      not modelled.
    - [JSON.parse] is a parameter of the start-up: a function from texts to
      collections that may fail.
    - React state is a record [state]; every handler is a function from the
      state it closes over to the state after its [set...] calls.  The two
      callbacks that can be called in a later render ([onload] of the file
      reader, the decode callback of the camera) take what they close over
      and the state at their call as two arguments.
    - What the handlers read from the host (clock, random digits) is an
      explicit argument.
    - The sum of two numbers is a parameter of the definitions that add
      prices. *)

From Stdlib Require Import ZArith NArith Ascii String List Lia Bool DecimalString
  DecimalN.
From stdpp Require Import base option list strings gmap.

Open Scope string_scope.
Open Scope list_scope.

(** ** Strings *)

Module JsString.

(** The double quote character (code 34). *)
Definition dquote : ascii := "034"%char.
Definition comma : ascii := ","%char.
Definition pipe : ascii := "|"%char.
Definition newline : ascii := "010"%char.

(** White space as [String.prototype.trim] and [parseFloat] see it, on ASCII:
    TAB, LF, VT, FF, CR and SPACE. *)
Definition isWhiteSpace (c : ascii) : bool :=
  let n := nat_of_ascii c in
  ((9 <=? n)%nat && (n <=? 13)%nat) || (n =? 32)%nat.

Definition isDigit (c : ascii) : bool :=
  let n := nat_of_ascii c in (48 <=? n)%nat && (n <=? 57)%nat.

Definition upperChar (c : ascii) : ascii :=
  let n := nat_of_ascii c in
  if (97 <=? n)%nat && (n <=? 122)%nat then ascii_of_nat (n - 32) else c.

Definition lowerChar (c : ascii) : ascii :=
  let n := nat_of_ascii c in
  if (65 <=? n)%nat && (n <=? 90)%nat then ascii_of_nat (n + 32) else c.

Fixpoint mapChars (f : ascii -> ascii) (s : string) : string :=
  match s with
  | EmptyString => EmptyString
  | String c r => String (f c) (mapChars f r)
  end.

Fixpoint filterChars (p : ascii -> bool) (s : string) : string :=
  match s with
  | EmptyString => EmptyString
  | String c r => if p c then String c (filterChars p r) else filterChars p r
  end.

Definition toUpperCase : string -> string := mapChars upperChar.
Definition toLowerCase : string -> string := mapChars lowerChar.

Fixpoint trimStart (s : string) : string :=
  match s with
  | EmptyString => EmptyString
  | String c r => if isWhiteSpace c then trimStart r else s
  end.

Fixpoint trimEnd (s : string) : string :=
  match s with
  | EmptyString => EmptyString
  | String c r =>
      match trimEnd r with
      | EmptyString => if isWhiteSpace c then EmptyString else String c EmptyString
      | r' => String c r'
      end
  end.

(** [s.trim()] *)
Definition trim (s : string) : string := trimStart (trimEnd s).

(** [s.includes(sub)] *)
Fixpoint includes (s sub : string) : bool :=
  String.prefix sub s
  || match s with
     | EmptyString => false
     | String _ r => includes r sub
     end.

(** [s.includes(c)] for a one-character [c]. *)
Fixpoint includesChar (s : string) (c : ascii) : bool :=
  match s with
  | EmptyString => false
  | String d r => Ascii.eqb d c || includesChar r c
  end.

(** [s.replace(/Q/g, '')], with Q the double quote: every quote removed. *)
Definition removeQuotes : string -> string :=
  filterChars (fun c => negb (Ascii.eqb c dquote)).

(** [s.replace(/Q/g, 'QQ')], with Q the double quote: every quote doubled. *)
Fixpoint doubleQuotes (s : string) : string :=
  match s with
  | EmptyString => EmptyString
  | String c r =>
      if Ascii.eqb c dquote then String dquote (String dquote (doubleQuotes r))
      else String c (doubleQuotes r)
  end.

(** [s.replace(/[^\d.-]/g, '')] *)
Definition keepNumeric : string -> string :=
  filterChars (fun c => isDigit c || Ascii.eqb c "."%char || Ascii.eqb c "-"%char).

(** [s.replace(/\//g, '-')] *)
Definition slashesToDashes : string -> string :=
  mapChars (fun c => if Ascii.eqb c "/"%char then "-"%char else c).

(** [s.split(sep)] for a one-character separator: never the empty list. *)
Fixpoint split (sep : ascii) (s : string) : list string :=
  match s with
  | EmptyString => [EmptyString]
  | String c r =>
      let rest := split sep r in
      if Ascii.eqb c sep then EmptyString :: rest
      else match rest with
           | h :: t => String c h :: t
           | [] => [String c EmptyString]
           end
  end.

(** [arr.join(sep)] *)
Definition join (sep : string) (l : list string) : string := String.concat sep l.

(** A string is truthy when it is not empty. *)
Definition truthy (s : string) : bool :=
  match s with EmptyString => false | _ => true end.

End JsString.
Import JsString.

(** ** Numbers *)

Module JsNumber.

(** [Dec m p] is the decimal [m / 10^p]. *)
Inductive number : Type :=
| NaN
| Infinity (negative : bool)
| Dec (m : Z) (p : nat).

Definition zero : number := Dec 0 0.

(** [n || ...]: [NaN] and the zeros are falsy. *)
Definition truthy (n : number) : bool :=
  match n with
  | NaN => false
  | Infinity _ => true
  | Dec m _ => negb (m =? 0)%Z
  end.

(** [n || d] *)
Definition orElse (n d : number) : number := if truthy n then n else d.

(** The longest prefix of digits, and what follows it. *)
Fixpoint takeDigits (s : string) : string * string :=
  match s with
  | String c r =>
      if isDigit c then let '(d, k) := takeDigits r in (String c d, k)
      else (EmptyString, s)
  | EmptyString => (EmptyString, EmptyString)
  end.

Fixpoint digitsValue (acc : N) (s : string) : N :=
  match s with
  | EmptyString => acc
  | String c r => digitsValue (10 * acc + N.of_nat (nat_of_ascii c - 48)) r
  end.

Definition takeSign (s : string) : bool * string :=
  match s with
  | String "-" r => (true, r)
  | String "+" r => (false, r)
  | _ => (false, s)
  end.

(** The exponent part [e[+-]ddd] when there is one with a digit, else 0. *)
Definition takeExponent (s : string) : Z :=
  match s with
  | String c r =>
      if Ascii.eqb c "e"%char || Ascii.eqb c "E"%char then
        let '(neg, r1) := takeSign r in
        let '(d, _) := takeDigits r1 in
        match d with
        | EmptyString => 0%Z
        | _ => let v := Z.of_N (digitsValue 0 d) in if neg then (- v)%Z else v
        end
      else 0%Z
  | EmptyString => 0%Z
  end.

(** [parseFloat(s)]: the value of the longest prefix of [s], after leading
    white space, that is a decimal literal; [NaN] when there is none. *)
Definition parseFloat (s : string) : number :=
  let '(neg, s1) := takeSign (trimStart s) in
  if String.prefix "Infinity" s1 then Infinity neg
  else
    let '(ip, s2) := takeDigits s1 in
    let '(fp, s3) :=
      match s2 with
      | String "." r => takeDigits r
      | _ => (EmptyString, s2)
      end in
    match ip +:+ fp with
    | EmptyString => NaN
    | ds =>
        let m := Z.of_N (digitsValue 0 ds) in
        let m := if neg then (- m)%Z else m in
        let e := (takeExponent s3 - Z.of_nat (String.length fp))%Z in
        if (0 <=? e)%Z then Dec (m * 10 ^ e) 0 else Dec m (Z.to_nat (- e))
    end.

Definition natToString (n : nat) : string :=
  NilZero.string_of_uint (Nat.to_uint n).

Definition NToString (n : N) : string :=
  NilZero.string_of_uint (N.to_uint n).

(** The digits of [n], padded with zeros on the left to [p] characters. *)
Fixpoint padZeros (p : nat) (s : string) : string :=
  if (p <=? String.length s)%nat then s
  else match p with
       | O => s
       | S p' => String "0" (padZeros p' s)
       end.

(** Drops the zeros that end a decimal: [m/10^p] with [p] least. *)
Fixpoint normalize (m : Z) (p : nat) : Z * nat :=
  match p with
  | O => (m, O)
  | S p' => if (m mod 10 =? 0)%Z then normalize (m / 10) p' else (m, p)
  end.

(** [String(n)] for a number: plain decimal digits (the exponent notation
    JavaScript switches to from 1e21 and below 1e-6 is not modelled). *)
Definition toString (n : number) : string :=
  match n with
  | NaN => "NaN"
  | Infinity false => "Infinity"
  | Infinity true => "-Infinity"
  | Dec m p =>
      let '(m, p) := normalize m p in
      let a := Z.to_N (Z.abs m) in
      let sign := if (m <? 0)%Z then "-" else EmptyString in
      let ip := NToString (a / 10 ^ N.of_nat p) in
      match p with
      | O => sign +:+ ip
      | _ => sign +:+ ip +:+ "." +:+ padZeros p (NToString (a mod 10 ^ N.of_nat p))
      end
  end.

End JsNumber.
Import JsNumber.

(** ** Arrays *)

(** [arr.findIndex(p)], with [None] for the index -1. *)
Fixpoint findIndex {A : Type} (p : A -> bool) (l : list A) : option nat :=
  match l with
  | [] => None
  | x :: r => if p x then Some O else option_map S (findIndex p r)
  end.

(** ** The data model *)

(** An item of stock.  Objects built by [handleAddSaree] have a [type] key,
    those built by the import have none. *)
Module Saree.
Record t : Type := mk {
  id : string;
  code : string;
  shopName : string;
  shopCode : string;
  type : option string;
  cp : number;
  mrp : number;
  asp60 : number;
  status : string;
  dateAdded : string
}.

(** [{ ...s, status: v }] *)
Definition withStatus (s : t) (v : string) : t :=
  mk (id s) (code s) (shopName s) (shopCode s) (type s) (cp s) (mrp s)
     (asp60 s) v (dateAdded s).

Definition hasCode (c : string) (s : t) : bool := String.eqb (code s) c.
End Saree.

Inductive payment : Type := Cash | UPI.

(** A line of the sales log. *)
Module Sale.
Record t : Type := mk {
  id : string;
  sareeCode : string;
  salePrice : number;
  paymentMethod : payment;
  saleDate : string
}.
End Sale.

Inductive selection : Type := MRP | ASP60 | CUSTOM.

(** What a cart line holds as its custom price: the item's list price (a
    number), or the text of the input field. *)
Inductive priceInput : Type :=
| PriceNumber (n : number)
| PriceText (s : string).

Module CartLine.
Record t : Type := mk {
  saree : Saree.t;
  selection : selection;
  customPrice : priceInput
}.
End CartLine.

Inductive notifType : Type := success | error.

Record notif : Type := Notif { message : string; ntype : notifType }.

Inductive scanModes : Type := SELL | RETURN.

(** The React state of [App] that the ledger reads and writes. *)
Record state : Type := State {
  sarees : list Saree.t;
  sales : list Sale.t;
  notification : option notif;
  isDBLoaded : bool;
  cart : list CartLine.t;
  scanMode : scanModes;
  showPaymentModal : bool;
  paymentMethod : payment
}.

(** [useState] initial values. *)
Definition initialState : state :=
  State [] [] None false [] SELL false UPI.

Definition setSarees (v : list Saree.t) (st : state) : state :=
  State v (sales st) (notification st) (isDBLoaded st) (cart st) (scanMode st)
        (showPaymentModal st) (paymentMethod st).
Definition setSales (v : list Sale.t) (st : state) : state :=
  State (sarees st) v (notification st) (isDBLoaded st) (cart st) (scanMode st)
        (showPaymentModal st) (paymentMethod st).
Definition setNotification (v : option notif) (st : state) : state :=
  State (sarees st) (sales st) v (isDBLoaded st) (cart st) (scanMode st)
        (showPaymentModal st) (paymentMethod st).
Definition setIsDBLoaded (v : bool) (st : state) : state :=
  State (sarees st) (sales st) (notification st) v (cart st) (scanMode st)
        (showPaymentModal st) (paymentMethod st).
Definition setCart (v : list CartLine.t) (st : state) : state :=
  State (sarees st) (sales st) (notification st) (isDBLoaded st) v (scanMode st)
        (showPaymentModal st) (paymentMethod st).
Definition setShowPaymentModal (v : bool) (st : state) : state :=
  State (sarees st) (sales st) (notification st) (isDBLoaded st) (cart st)
        (scanMode st) v (paymentMethod st).
Definition setPaymentMethod (v : payment) (st : state) : state :=
  State (sarees st) (sales st) (notification st) (isDBLoaded st) (cart st)
        (scanMode st) (showPaymentModal st) v.

(** [showNotification(message, type)]; the timer that dismisses the
    notification later is not part of the model. *)
Definition showNotification (msg : string) (ty : notifType) (st : state) : state :=
  setNotification (Some (Notif msg ty)) st.

(** The failures of the specification's taxonomy, as the notifications that
    report them. *)
Definition DuplicateCode : notif :=
  Notif "This Product Code already exists!" error.
Definition NotFound (c : string) : notif :=
  Notif ("Code " +:+ c +:+ " not found in inventory!") error.
Definition AlreadySold (c : string) : notif :=
  Notif ("Alert: " +:+ c +:+ " is already SOLD!") error.
Definition AlreadyInCart (c : string) : notif :=
  Notif (c +:+ " is already in the cart!") error.
Definition AlreadyAvailable (c : string) : notif :=
  Notif (c +:+ " is already marked as available.") error.
Definition NoData : notif :=
  Notif "No data available to export!" error.

(** ** The host *)

(** One reading of the clock: [Date.now()], [toISOString()],
    [toLocaleString()] and [toLocaleDateString()] of the current date. *)
Record clock : Type := Clock {
  now : N;
  isoString : string;
  localeString : string;
  localeDateString : string
}.

(** ** Adding an item *)

(** The fields of the add form as [FormData.get] returns them: [None] is
    [null].  The [code] input is [required] in the form. *)
Module Form.
Record t : Type := mk {
  code : string;
  shopName : option string;
  shopCode : option string;
  type : option string;
  cp : option string;
  mrp : option string;
  asp60 : option string
}.
End Form.

(** [v || d] for [v] a string or [null]. *)
Definition orDefault (v : option string) (d : string) : string :=
  match v with
  | Some s => if JsString.truthy s then s else d
  | None => d
  end.

(** [parseFloat(v)] for [v] a string or [null]: the argument is converted to
    a string first. *)
Definition parseFloatOf (v : option string) : number :=
  parseFloat (match v with Some s => s | None => "null" end).

Definition handleAddSaree (clk : clock) (form : Form.t) (st : state) : state :=
  let code := toUpperCase (Form.code form) in
  if existsb (Saree.hasCode code) (sarees st) then
    showNotification "This Product Code already exists!" error st
  else
    let newSaree :=
      Saree.mk (NToString (now clk))
               code
               (orDefault (Form.shopName form) "Unknown Shop")
               (orDefault (Form.shopCode form) "N/A")
               (Some (orDefault (Form.type form) "Cotton"))
               (orElse (parseFloatOf (Form.cp form)) zero)
               (orElse (parseFloatOf (Form.mrp form)) zero)
               (orElse (parseFloatOf (Form.asp60 form)) zero)
               "available"
               (isoString clk) in
    showNotification ("Saree added! Code: " +:+ code) success
      (setSarees (newSaree :: sarees st) st).

(** ** Cart, return and checkout *)

(** [cart.some(item => item.saree.code === c)] *)
Definition inCart (c : string) (lines : list CartLine.t) : bool :=
  existsb (fun item => Saree.hasCode c (CartLine.saree item)) lines.

Definition addToCart (codeToScan : string) (st : state) : state * bool :=
  match List.find (Saree.hasCode codeToScan) (sarees st) with
  | None =>
      (showNotification ("Code " +:+ codeToScan +:+ " not found in inventory!") error st,
       false)
  | Some saree =>
      if String.eqb (Saree.status saree) "sold" then
        (showNotification ("Alert: " +:+ codeToScan +:+ " is already SOLD!") error st,
         false)
      else if inCart codeToScan (cart st) then
        (showNotification (codeToScan +:+ " is already in the cart!") error st, false)
      else
        let line :=
          CartLine.mk saree MRP
            (if JsNumber.truthy (Saree.mrp saree) then PriceNumber (Saree.mrp saree)
             else PriceText EmptyString) in
        (showNotification ("Added " +:+ codeToScan +:+ " to Cart.") success
           (setCart (cart st ++ [line]) st),
         true)
  end.

(** [sarees[sareeIndex]] is defined whenever [findIndex] found the index; the
    branch for a missing element is never taken. *)
Definition processReturn (codeToScan : string) (st : state) : state * bool :=
  match findIndex (Saree.hasCode codeToScan) (sarees st) with
  | None =>
      (showNotification ("Code " +:+ codeToScan +:+ " not found in inventory!") error st,
       false)
  | Some sareeIndex =>
      match sarees st !! sareeIndex with
      | None => (st, false)
      | Some s =>
          if String.eqb (Saree.status s) "available" then
            (showNotification (codeToScan +:+ " is already marked as available.") error st,
             false)
          else
            let updatedSarees :=
              <[sareeIndex := Saree.withStatus s "available"]> (sarees st) in
            let updatedSales :=
              List.filter (fun sale => negb (String.eqb (Sale.sareeCode sale) codeToScan))
                          (sales st) in
            (showNotification
               ("Return Successful! " +:+ codeToScan +:+ " is back in inventory.") success
               (setSales updatedSales (setSarees updatedSarees st)),
             true)
      end
  end.

Definition handleScanInput (codeToScan : string) (st : state) : state :=
  if negb (JsString.truthy codeToScan) then st
  else
    let codeToScan := toUpperCase (trim codeToScan) in
    match scanMode st with
    | SELL => fst (addToCart codeToScan st)
    | RETURN => fst (processReturn codeToScan st)
    end.

(** [parseFloat(cartItem.customPrice)] *)
Definition parseCustomPrice (v : priceInput) : number :=
  match v with
  | PriceNumber n => parseFloat (toString n)
  | PriceText s => parseFloat s
  end.

Definition finalPrice (cartItem : CartLine.t) : number :=
  match CartLine.selection cartItem with
  | MRP => Saree.mrp (CartLine.saree cartItem)
  | ASP60 => Saree.asp60 (CartLine.saree cartItem)
  | CUSTOM => orElse (parseCustomPrice (CartLine.customPrice cartItem)) zero
  end.

(** The first half of the body of the [forEach] in [completeSaleTransaction]:
    the first item with the line's code becomes sold. *)
Definition markSold (updatedSarees : list Saree.t) (cartItem : CartLine.t)
  : list Saree.t :=
  match findIndex (Saree.hasCode (Saree.code (CartLine.saree cartItem))) updatedSarees with
  | Some sIdx =>
      match updatedSarees !! sIdx with
      | Some s => <[sIdx := Saree.withStatus s "sold"]> updatedSarees
      | None => updatedSarees
      end
  | None => updatedSarees
  end.

(** The second half: the sale pushed for the line at position [k].  [rnd k]
    is [Math.random().toString().slice(2, 8)] as drawn for that line. *)
Definition saleOf (clk : clock) (rnd : nat -> string) (pm : payment)
    (k : nat) (cartItem : CartLine.t) : Sale.t :=
  Sale.mk (NToString (now clk) +:+ rnd k)
          (Saree.code (CartLine.saree cartItem))
          (finalPrice cartItem)
          pm
          (localeString clk).

Definition completeSaleTransaction (clk : clock) (rnd : nat -> string) (st : state)
  : state :=
  match cart st with
  | [] => st
  | _ =>
      let updatedSarees := fold_left markSold (cart st) (sarees st) in
      let newSales := imap (saleOf clk rnd (paymentMethod st)) (cart st) in
      showNotification
        ("Sale Completed! " +:+ natToString (length (cart st)) +:+ " items sold.") success
        (setPaymentMethod UPI
           (setShowPaymentModal false
              (setCart []
                 (setSales (newSales ++ sales st)
                    (setSarees updatedSarees st)))))
  end.

(** ** The camera

    A handler closes over the state of the render that made it.  The
    handlers of forms and buttons are called in the render that is current;
    the callback that [startCameraScanner] gives to the camera is called
    when a code is decoded, with the [handleScanInput] of the render that
    started the camera.  In [Closure] that render's state is [old] and [st] is
    the state when the callback runs: what a handler reads is read from
    [old], and each [set...] call replaces a field of [st]. *)

Module Closure.

Definition addToCart (old : state) (codeToScan : string) (st : state) : state * bool :=
  match List.find (Saree.hasCode codeToScan) (sarees old) with
  | None =>
      (showNotification ("Code " +:+ codeToScan +:+ " not found in inventory!") error st,
       false)
  | Some saree =>
      if String.eqb (Saree.status saree) "sold" then
        (showNotification ("Alert: " +:+ codeToScan +:+ " is already SOLD!") error st,
         false)
      else if inCart codeToScan (cart old) then
        (showNotification (codeToScan +:+ " is already in the cart!") error st, false)
      else
        let line :=
          CartLine.mk saree MRP
            (if JsNumber.truthy (Saree.mrp saree) then PriceNumber (Saree.mrp saree)
             else PriceText EmptyString) in
        (showNotification ("Added " +:+ codeToScan +:+ " to Cart.") success
           (setCart (cart old ++ [line]) st),
         true)
  end.

Definition processReturn (old : state) (codeToScan : string) (st : state)
  : state * bool :=
  match findIndex (Saree.hasCode codeToScan) (sarees old) with
  | None =>
      (showNotification ("Code " +:+ codeToScan +:+ " not found in inventory!") error st,
       false)
  | Some sareeIndex =>
      match sarees old !! sareeIndex with
      | None => (st, false)
      | Some s =>
          if String.eqb (Saree.status s) "available" then
            (showNotification (codeToScan +:+ " is already marked as available.") error st,
             false)
          else
            let updatedSarees :=
              <[sareeIndex := Saree.withStatus s "available"]> (sarees old) in
            let updatedSales :=
              List.filter (fun sale => negb (String.eqb (Sale.sareeCode sale) codeToScan))
                          (sales old) in
            (showNotification
               ("Return Successful! " +:+ codeToScan +:+ " is back in inventory.") success
               (setSales updatedSales (setSarees updatedSarees st)),
             true)
      end
  end.

Definition handleScanInput (old : state) (codeToScan : string) (st : state) : state :=
  if negb (JsString.truthy codeToScan) then st
  else
    let codeToScan := toUpperCase (trim codeToScan) in
    match scanMode old with
    | SELL => fst (addToCart old codeToScan st)
    | RETURN => fst (processReturn old codeToScan st)
    end.

End Closure.

(** The callback of the camera for a decoded text: the sound it plays and
    [stopCameraScanner], which follows, touch nothing of the state here. *)
Definition onDecoded (old : state) (decodedText : string) (st : state) : state :=
  Closure.handleScanInput old decodedText st.

(** ** The cart: price tier, removal and total *)

(** The setter of [scanMode].  The two buttons that call it also stop the
    camera, which is not part of the model. *)
Definition setScanMode (v : scanModes) (st : state) : state :=
  State (sarees st) (sales st) (notification st) (isDBLoaded st) (cart st) v
        (showPaymentModal st) (paymentMethod st).

(** [updateCartItemPrice(index, selection, customVal = '')]: [customVal] is
    [None] when the call leaves it out.  The assignment to a field of
    [newCart[index]] throws when the cart has no such line, before [setCart]
    is reached. *)
Definition updateCartItemPrice (index : nat) (sel : selection)
    (customVal : option string) (st : state) : state :=
  match cart st !! index with
  | None => st
  | Some line =>
      let customPrice :=
        match sel with
        | CUSTOM => PriceText (default EmptyString customVal)
        | _ => CartLine.customPrice line
        end in
      setCart (<[index := CartLine.mk (CartLine.saree line) sel customPrice]> (cart st)) st
  end.

(** [newCart.splice(index, 1)] removes nothing when [index] is past the
    end. *)
Definition removeCartItem (index : nat) (st : state) : state :=
  setCart (delete index (cart st)) st.

Section CartTotal.

(** The [+] of JavaScript on two numbers. *)
Variable add : number -> number -> number.

(** What one line adds to the total. *)
Definition lineAmount (item : CartLine.t) : number :=
  match CartLine.selection item with
  | MRP => orElse (Saree.mrp (CartLine.saree item)) zero
  | ASP60 => orElse (Saree.asp60 (CartLine.saree item)) zero
  | CUSTOM => orElse (parseCustomPrice (CartLine.customPrice item)) zero
  end.

Definition calculateCartTotal (st : state) : number :=
  fold_left (fun total item => add total (lineAmount item)) (cart st) zero.

End CartTotal.

(** ** The dashboard *)

(** [s.status === 'available'] *)
Definition isAvailable (s : Saree.t) : bool := String.eqb (Saree.status s) "available".

(** The two counters of [renderDashboardView]. *)
Definition availableInventory (st : state) : nat :=
  length (List.filter isAvailable (sarees st)).

Definition itemsSold (st : state) : nat := length (sales st).

(** [s.paymentMethod === 'Cash'] and [s.paymentMethod === 'UPI'] *)
Definition paidBy (p : payment) (sale : Sale.t) : bool :=
  match p, Sale.paymentMethod sale with
  | Cash, Cash => true
  | UPI, UPI => true
  | _, _ => false
  end.

Section Revenue.

(** The [+] of JavaScript on two numbers. *)
Variable add : number -> number -> number.

(** [lines.reduce((sum, sale) => sum + (sale.salePrice || 0), 0)] *)
Definition revenue (lines : list Sale.t) : number :=
  fold_left (fun sum sale => add sum (orElse (Sale.salePrice sale) zero)) lines zero.

(** The three sums of [renderDashboardView]. *)
Definition totalRevenue (st : state) : number := revenue (sales st).
Definition cashRevenue (st : state) : number :=
  revenue (List.filter (paidBy Cash) (sales st)).
Definition upiRevenue (st : state) : number :=
  revenue (List.filter (paidBy UPI) (sales st)).

End Revenue.

(** ** Bulk import *)

(** The cells of one row.  [parseCells] is the [for] loop of [parseCSVRow]:
    [str] is what is left to read, [cell], [inQuotes] and [result] are the
    loop's variables.  A quote followed by a quote is read as one literal
    quote wherever it stands; any other quote toggles [inQuotes]. *)
Fixpoint parseCells (delimiter : ascii) (str cell : string) (inQuotes : bool)
    (result : list string) : list string :=
  match str with
  | EmptyString => result ++ [trim cell]
  | String char rest =>
      if Ascii.eqb char dquote then
        match rest with
        | String next rest' =>
            if Ascii.eqb next dquote then
              parseCells delimiter rest' (cell +:+ String dquote EmptyString) inQuotes result
            else parseCells delimiter rest cell (negb inQuotes) result
        | EmptyString => parseCells delimiter rest cell (negb inQuotes) result
        end
      else if Ascii.eqb char delimiter && negb inQuotes then
        parseCells delimiter rest EmptyString inQuotes (result ++ [trim cell])
      else parseCells delimiter rest (cell +:+ String char EmptyString) inQuotes result
  end.

Definition parseCSVRow (delimiter : ascii) (str : string) : list string :=
  parseCells delimiter str EmptyString false [].

(** The column indices found in the header row; [None] is -1.  The loop over
    the rows runs only when [codeIdx] was found. *)
Record columns : Type := Columns {
  shopNameIdx : option nat;
  shopCodeIdx : option nat;
  codeIdx : nat;
  cpIdx : option nat;
  mrpIdx : option nat;
  aspIdx : option nat;
  statusIdx : option nat
}.

(** [idx !== -1 && values[idx] ? f(values[idx]) : d] *)
Definition cellOr {A : Type} (idx : option nat) (values : list string)
    (f : string -> A) (d : A) : A :=
  match idx with
  | None => d
  | Some i =>
      match values !! i with
      | Some v => if JsString.truthy v then f v else d
      | None => d
      end
  end.

(** The variables of the import loop. *)
Record importAcc : Type := ImportAcc {
  newSarees : list Saree.t;
  addedCount : nat;
  duplicateCount : nat
}.

(** [values[codeIdx]?.replace(/Q/g, '').toUpperCase()] of the row, when the
    row is not blank and the result is truthy; [None] when the loop
    [continue]s before the duplicate test. *)
Definition rowCode (delimiter : ascii) (cols : columns) (row : string)
  : option string :=
  if negb (JsString.truthy (trim row)) then None
  else
    match parseCSVRow delimiter row !! codeIdx cols with
    | None => None
    | Some v =>
        let code := toUpperCase (removeQuotes v) in
        if JsString.truthy code then Some code else None
    end.

(** The status an imported row gets. *)
Definition rowStatus (cols : columns) (values : list string) : string :=
  let statusStr := cellOr (statusIdx cols) values (fun v => trim (toLowerCase v)) "available" in
  if negb (includes statusStr "sold") then "available" else statusStr.

(** [parseFloat(v.replace(/[^\d.-]/g, '')) || 0] *)
Definition parsePrice (v : string) : number :=
  orElse (parseFloat (keepNumeric v)) zero.

(** The object pushed for the row at index [i]. *)
Definition rowSaree (clk : clock) (cols : columns) (i : nat) (code : string)
    (values : list string) : Saree.t :=
  Saree.mk (NToString (now clk) +:+ natToString i)
           code
           (cellOr (shopNameIdx cols) values removeQuotes "Unknown Shop")
           (cellOr (shopCodeIdx cols) values removeQuotes "N/A")
           None
           (cellOr (cpIdx cols) values parsePrice zero)
           (cellOr (mrpIdx cols) values parsePrice zero)
           (cellOr (aspIdx cols) values parsePrice zero)
           (rowStatus cols values)
           (isoString clk).

(** One turn of the loop, for the row at index [i]; [stock] is [sarees]. *)
Definition importRow (clk : clock) (delimiter : ascii) (cols : columns)
    (stock : list Saree.t) (acc : importAcc) (i : nat) (row : string) : importAcc :=
  match rowCode delimiter cols row with
  | None => acc
  | Some code =>
      if existsb (Saree.hasCode code) stock
         || existsb (Saree.hasCode code) (newSarees acc) then
        ImportAcc (newSarees acc) (addedCount acc) (S (duplicateCount acc))
      else
        ImportAcc
          (newSarees acc ++ [rowSaree clk cols i code (parseCSVRow delimiter row)])
          (S (addedCount acc))
          (duplicateCount acc)
  end.

(** The loop [for (let i = ...; i < rows.length; i++)] over the rows from
    index [i] on. *)
Fixpoint importLoop (clk : clock) (delimiter : ascii) (cols : columns)
    (stock : list Saree.t) (i : nat) (rows : list string) (acc : importAcc)
  : importAcc :=
  match rows with
  | [] => acc
  | row :: rest =>
      importLoop clk delimiter cols stock (S i) rest
                 (importRow clk delimiter cols stock acc i row)
  end.

(** The batch: the loop from index 1 with empty [newSarees] and zero counts. *)
Definition importBatch (clk : clock) (delimiter : ascii) (cols : columns)
    (stock : list Saree.t) (rows : list string) : importAcc :=
  importLoop clk delimiter cols stock 1 rows (ImportAcc [] 0 0).

(** The header predicates of [handleFileUpload]. *)
Definition isShopName (h : string) : bool :=
  includes h "shop_name" || String.eqb h "shop name" || String.eqb h "shopname".
Definition isShopCode (h : string) : bool :=
  includes h "shop_code" || String.eqb h "shop code" || String.eqb h "shopcode".
Definition isCode (h : string) : bool :=
  includes h "product_code" || String.eqb h "product code"
  || String.eqb h "productcode" || String.eqb h "code".
Definition isCp (h : string) : bool := String.eqb h "cp" || includes h "cost".
Definition isMrp (h : string) : bool := String.eqb h "mrp".
Definition isAsp (h : string) : bool := includes h "asp60" || String.eqb h "asp".
Definition isStatus (h : string) : bool := includes h "status".

Definition missingColumnMessage : string :=
  "Error: CSV must have a " +:+ String dquote "Product_Code"
  +:+ String dquote " column".

(** What [text.includes('|') ? '|' : ','] chooses. *)
Definition detectDelimiter (text : string) : ascii :=
  if includesChar text pipe then pipe else comma.

Definition readHeaders (delimiter : ascii) (row : string) : list string :=
  map (fun h => trim (removeQuotes (toLowerCase h))) (parseCSVRow delimiter row).

(** The seven [findIndex] calls on the headers; [None] when there is no code
    column. *)
Definition findColumns (headers : list string) : option columns :=
  match findIndex isCode headers with
  | None => None
  | Some codeIdx =>
      Some (Columns (findIndex isShopName headers) (findIndex isShopCode headers) codeIdx
                    (findIndex isCp headers) (findIndex isMrp headers)
                    (findIndex isAsp headers) (findIndex isStatus headers))
  end.

(** The [onload] callback that [handleFileUpload] gives to the file reader,
    for a file whose text is [text].  No step of it throws, so the [catch]
    branch has no model.  The callback reads the file after the handler has
    returned, and the two inventories it uses are not the same one: the
    duplicate test reads [sarees], the inventory of the render in which the
    file was chosen, and the update [setSarees(prev => ...)] prepends to
    [prev], the inventory when the callback runs.  Here [closure] is the
    first and [st] is the state when the callback runs. *)
Definition onload (clk : clock) (text : string) (closure : list Saree.t) (st : state)
  : state :=
  let rows := split newline text in
  let delimiter := detectDelimiter text in
  let headers := readHeaders delimiter (hd EmptyString rows) in
  match findColumns headers with
  | None => showNotification missingColumnMessage error st
  | Some cols =>
      let acc := importBatch clk delimiter cols closure (tl rows) in
      if (0 <? addedCount acc)%nat then
        showNotification
          ("Imported " +:+ natToString (addedCount acc) +:+ " items. ("
           +:+ natToString (duplicateCount acc) +:+ " duplicates skipped)") success
          (setSarees (newSarees acc ++ sarees st) st)
      else
        showNotification
          ("No items imported. " +:+ natToString (duplicateCount acc)
           +:+ " duplicates found.") error st
  end.

(** An upload whose file is read before anything else changes the
    inventory: the callback finds the inventory that the handler saw. *)
Definition handleFileUpload (clk : clock) (text : string) (st : state) : state :=
  onload clk text (sarees st) st.

(** ** Export *)

(** The values an exported object holds. *)
Inductive jsval : Type :=
| VStr (s : string)
| VNum (n : number).

(** [String(val)] *)
Definition String_ (v : jsval) : string :=
  match v with
  | VStr s => s
  | VNum n => toString n
  end.

(** An object as its keys and values in definition order. *)
Definition object : Type := list (string * jsval).

Definition paymentName (p : payment) : string :=
  match p with Cash => "Cash" | UPI => "UPI" end.

Definition sareeObject (s : Saree.t) : object :=
  ([("id", VStr (Saree.id s)); ("code", VStr (Saree.code s));
    ("shopName", VStr (Saree.shopName s)); ("shopCode", VStr (Saree.shopCode s))]
   ++ match Saree.type s with
      | Some ty => [("type", VStr ty)]
      | None => []
      end
   ++ [("cp", VNum (Saree.cp s)); ("mrp", VNum (Saree.mrp s));
       ("asp60", VNum (Saree.asp60 s)); ("status", VStr (Saree.status s));
       ("dateAdded", VStr (Saree.dateAdded s))]).

Definition saleObject (s : Sale.t) : object :=
  [("id", VStr (Sale.id s)); ("sareeCode", VStr (Sale.sareeCode s));
   ("salePrice", VNum (Sale.salePrice s));
   ("paymentMethod", VStr (paymentName (Sale.paymentMethod s)));
   ("saleDate", VStr (Sale.saleDate s))].

(** A text between quotes, its quotes doubled. *)
Definition quoteText (s : string) : string :=
  String dquote (doubleQuotes s) +:+ String dquote EmptyString.

(** One cell of a row. *)
Definition csvCell (v : jsval) : string := quoteText (String_ v).

Definition csvRow (obj : object) : string :=
  join "," (map (fun kv => csvCell (snd kv)) obj).

(** [Object.keys(data[0]).join(',')] *)
Definition csvHeader (first : object) : string := join "," (map fst first).

(** [[headers, ...rows].join('\n')] for [data] with first element [first]. *)
Definition csvContent (first : object) (data : list object) : string :=
  join (String newline EmptyString) (csvHeader first :: map csvRow data).

(** The file handed to the browser. *)
Record download : Type := Download { fileName : string; content : string }.

Definition exportToCSV (clk : clock) (data : list object) (filename : string)
    (st : state) : state * option download :=
  match data with
  | [] => (showNotification "No data available to export!" error st, None)
  | first :: _ =>
      (showNotification (filename +:+ " downloaded successfully!") success st,
       Some (Download
               (filename +:+ "_" +:+ slashesToDashes (localeDateString clk) +:+ ".csv")
               (csvContent first data)))
  end.

(** The two export buttons of the dashboard. *)
Definition exportSales (clk : clock) (st : state) : state * option download :=
  exportToCSV clk (map saleObject (sales st)) "Sales_Log" st.
Definition exportInventory (clk : clock) (st : state) : state * option download :=
  exportToCSV clk (map sareeObject (sarees st)) "Inventory_Master" st.

(** ** Start-up: the durable store and the legacy mechanism *)

(** What a key of either store holds: one of the two collections. *)
Inductive stored : Type :=
| Inventory (items : list Saree.t)
| SalesLog (lines : list Sale.t).

(** The world outside React: the IndexedDB object store [db], the legacy
    [localStorage], and the [faults] of the durable store: each request to
    it takes the head of the list, and rejects when the head is [true] (no
    fault once the list is empty). *)
Record world : Type := World {
  db : gmap string stored;
  localStorage : gmap string string;
  faults : list bool
}.

(** How an awaited step ends. *)
Inductive outcome (A : Type) : Type :=
| Resolved (a : A)
| Rejected.
Arguments Resolved {A} a.
Arguments Rejected {A}.

(** A step of an [async] function: it may change the world, and it resolves
    or throws. *)
Definition io (A : Type) : Type := world -> outcome A * world.

Definition ret {A : Type} (a : A) : io A := fun w => (Resolved a, w).

Definition throw {A : Type} : io A := fun w => (Rejected, w).

Definition bind {A B : Type} (m : io A) (k : A -> io B) : io B :=
  fun w =>
    match m w with
    | (Resolved a, w') => k a w'
    | (Rejected, w') => (Rejected, w')
    end.

Notation "x <- m ;; k" := (bind m (fun x => k))
  (at level 100, m at next level, right associativity).

(** The head of the fault schedule, and the world with it consumed. *)
Definition request (w : world) : bool * world :=
  match faults w with
  | [] => (false, w)
  | f :: rest => (f, World (db w) (localStorage w) rest)
  end.

Definition getDBItem (key : string) : io (option stored) :=
  fun w =>
    let '(fault, w') := request w in
    if fault then (Rejected, w') else (Resolved (db w' !! key), w').

Definition setDBItem (key : string) (value : stored) : io unit :=
  fun w =>
    let '(fault, w') := request w in
    if fault then (Rejected, w')
    else (Resolved tt, World (<[key := value]> (db w')) (localStorage w') (faults w')).

(** [localStorage.getItem(key)] *)
Definition getItem (key : string) : io (option string) :=
  fun w => (Resolved (localStorage w !! key), w).

Section Startup.

(** [JSON.parse] at the type of the stored collections; [None] when it
    throws. *)
Variable JSON_parse : string -> option stored.

Definition parseJSON (text : string) : io stored :=
  match JSON_parse text with
  | Some v => ret v
  | None => throw
  end.

(** One of the two [if (!saved && localStorage.getItem(key))] blocks of
    [loadData].  A stored collection is an array, so it is truthy. *)
Definition migrate (key : string) (saved : option stored) : io (option stored) :=
  match saved with
  | Some _ => ret saved
  | None =>
      item <- getItem key ;;
      match item with
      | Some text =>
          if JsString.truthy text then
            v <- parseJSON text ;;
            _ <- setDBItem key v ;;
            ret (Some v)
          else ret None
      | None => ret None
      end
  end.

(** [if (savedSarees) setSarees(savedSarees)]; a value of the other
    collection under the key has no place in the typed state, which keeps
    its value then. *)
Definition useSarees (saved : option stored) (st : state) : state :=
  match saved with
  | Some (Inventory items) => setSarees items st
  | _ => st
  end.

Definition useSales (saved : option stored) (st : state) : state :=
  match saved with
  | Some (SalesLog lines) => setSales lines st
  | _ => st
  end.

(** The [try] block of [loadData]: what it does to the world, and the
    state updates it ends with when nothing threw. *)
Definition loadDataTry : io (state -> state) :=
  savedSarees <- getDBItem "saree_inventory" ;;
  savedSales <- getDBItem "saree_sales" ;;
  savedSarees <- migrate "saree_inventory" savedSarees ;;
  savedSales <- migrate "saree_sales" savedSales ;;
  ret (fun st => useSales savedSales (useSarees savedSarees st)).

(** [loadData]: the [catch] only logs, the [finally] sets [isDBLoaded]. *)
Definition loadData (st : state) (w : world) : state * world :=
  match loadDataTry w with
  | (Resolved updates, w') => (setIsDBLoaded true (updates st), w')
  | (Rejected, w') => (setIsDBLoaded true st, w')
  end.

(** The effect that saves both collections whenever one of them or
    [isDBLoaded] changed.  Its two writes are not awaited: a rejection
    stops neither the other write nor the caller. *)
Definition saveEffect (st : state) (w : world) : world :=
  if isDBLoaded st then
    let w1 := snd (setDBItem "saree_inventory" (Inventory (sarees st)) w) in
    snd (setDBItem "saree_sales" (SalesLog (sales st)) w1)
  else w.

(** The start-up sequence: [loadData], then the save effect its state
    updates trigger. *)
Definition startup (st : state) (w : world) : state * world :=
  let '(st', w') := loadData st w in (st', saveEffect st' w').

End Startup.

(** ** Factory reset *)

Definition RESET_PASSWORD : string := "9999".

(** The React state of the hidden reset: the modal, the PIN field, its error
    line and the count of quick taps. *)
Record resetUi : Type := ResetUi {
  showResetModal : bool;
  resetPassword : string;
  passwordError : string;
  devClickCount : nat
}.

Definition initialResetUi : resetUi := ResetUi false EmptyString EmptyString 0.

Definition setDevClickCount (v : nat) (ui : resetUi) : resetUi :=
  ResetUi (showResetModal ui) (resetPassword ui) (passwordError ui) v.

(** One tap on the hidden trigger: the updater passed to
    [setDevClickCount]. *)
Definition handleHiddenResetTrigger (ui : resetUi) : resetUi :=
  if (5 <=? devClickCount ui + 1)%nat then ResetUi true EmptyString EmptyString 0
  else setDevClickCount (devClickCount ui + 1) ui.

(** The timer that the last tap set, when it fires a second later. *)
Definition clickTimeout (ui : resetUi) : resetUi := setDevClickCount 0 ui.

(** [onChange] of the PIN field. *)
Definition changeResetPassword (v : string) (ui : resetUi) : resetUi :=
  ResetUi (showResetModal ui) v EmptyString (devClickCount ui).

(** The Cancel button of the modal. *)
Definition cancelReset (ui : resetUi) : resetUi :=
  ResetUi false EmptyString EmptyString (devClickCount ui).

(** [localStorage.removeItem(key)] *)
Definition removeItem (key : string) : io unit :=
  fun w => (Resolved tt, World (db w) (delete key (localStorage w)) (faults w)).

(** [performFactoryReset] by itself: the three state updates come first; a
    write that rejects ends the function there. *)
Definition performFactoryReset (st : state) (ui : resetUi) (w : world)
  : state * resetUi * world :=
  let st := setCart [] (setSales [] (setSarees [] st)) in
  match (_ <- setDBItem "saree_inventory" (Inventory []) ;;
         _ <- setDBItem "saree_sales" (SalesLog []) ;;
         _ <- removeItem "saree_inventory" ;;
         removeItem "saree_sales") w with
  | (Resolved _, w') =>
      (showNotification "All inventory and sales data cleared successfully." success st,
       ResetUi false (resetPassword ui) (passwordError ui) (devClickCount ui),
       w')
  | (Rejected, w') => (st, ui, w')
  end.

(** The button that confirms the reset, with the render that follows the
    click.  With the PIN, [performFactoryReset] runs to its first [await]:
    the three updates are made and the first write is on its way.  React
    then renders the emptied collections, and the save effect runs on them;
    its two writes reach the store after the first write of the reset and
    before the second, which waits for the first to resolve.  The effect is
    not awaited, so the reset goes on, or stops at its rejected write,
    whatever the effect's writes did. *)
Definition confirmReset (st : state) (ui : resetUi) (w : world)
  : state * resetUi * world :=
  if String.eqb (resetPassword ui) RESET_PASSWORD then
    let st := setCart [] (setSales [] (setSarees [] st)) in
    let '(first, w) := setDBItem "saree_inventory" (Inventory []) w in
    let w := saveEffect st w in
    match first with
    | Rejected => (st, ui, w)
    | Resolved _ =>
        match (_ <- setDBItem "saree_sales" (SalesLog []) ;;
               _ <- removeItem "saree_inventory" ;;
               removeItem "saree_sales") w with
        | (Resolved _, w') =>
            (showNotification "All inventory and sales data cleared successfully."
               success st,
             ResetUi false (resetPassword ui) (passwordError ui) (devClickCount ui),
             w')
        | (Rejected, w') => (st, ui, w')
        end
    end
  else (st,
        ResetUi (showResetModal ui) (resetPassword ui) "Incorrect PIN" (devClickCount ui),
        w).

(** ** The earlier variant of the application

    The variant kept beside [App.jsx]: items have a name, a cloth type and
    one price, codes are generated, and a scan sells at once. *)

Module Legacy.

Record saree : Type := Saree {
  id : string;
  code : string;
  name : string;
  type : string;
  price : number;
  status : string;
  dateAdded : string
}.

Record sale : Type := Sale {
  saleId : string;
  sareeCode : string;
  saleName : string;
  salePrice : number;
  saleDate : string
}.

Record state : Type := State {
  sarees : list saree;
  sales : list sale;
  notification : option notif
}.

Definition showNotification (msg : string) (ty : notifType) (st : state) : state :=
  State (sarees st) (sales st) (Some (Notif msg ty)).

(** [generateProductCode(type, price)]; [randomNum] is
    [Math.floor(1000 + Math.random() * 9000)] as drawn by the host. *)
Definition generateProductCode (type : string) (randomNum : N) : string :=
  "SAR-" +:+ toUpperCase (String.substring 0 3 type) +:+ "-" +:+ NToString randomNum.

(** [handleAddSaree] for a form with the texts [name], [type] and [price]. *)
Definition handleAddSaree (clk : clock) (randomNum : N) (name type price : string)
    (st : state) : state :=
  let newCode := generateProductCode type randomNum in
  let newSaree :=
    Saree (NToString (now clk)) newCode name type (parseFloat price) "available"
          (isoString clk) in
  showNotification ("Saree added! Code: " +:+ newCode) success
    (State (newSaree :: sarees st) (sales st) (notification st)).

Definition hasCode (c : string) (s : saree) : bool := String.eqb (code s) c.

Definition withStatus (s : saree) (v : string) : saree :=
  Saree (id s) (code s) (name s) (type s) (price s) v (dateAdded s).

(** [processSale]: the assignment to [updatedSarees[sareeIndex].status]
    writes to the object that [sarees] holds too; the state that is set is
    the list with that item sold. *)
Definition processSale (clk : clock) (codeToScan : string) (st : state) : state * bool :=
  match findIndex (hasCode codeToScan) (sarees st) with
  | None =>
      (showNotification ("Code " +:+ codeToScan +:+ " not found in inventory!") error st,
       false)
  | Some sareeIndex =>
      match sarees st !! sareeIndex with
      | None => (st, false)
      | Some s =>
          if String.eqb (status s) "sold" then
            (showNotification ("Alert: " +:+ codeToScan +:+ " is already marked as SOLD!")
               error st,
             false)
          else
            let updatedSarees := <[sareeIndex := withStatus s "sold"]> (sarees st) in
            let newSale :=
              Sale (NToString (now clk)) codeToScan (name s) (price s) (localeString clk) in
            (showNotification ("Success! " +:+ codeToScan +:+ " marked as sold.") success
               (State updatedSarees (newSale :: sales st) (notification st)),
             true)
      end
  end.

(** [handleManualScan]; the form is cleared when the sale went through. *)
Definition handleManualScan (clk : clock) (scanCode : string) (st : state) : state * bool :=
  processSale clk (toUpperCase (trim scanCode)) st.

End Legacy.

(** ** Derived notions used by the statements *)

(** The legacy mechanism holds the serialized [value] under [key]: a text
    that is there, not empty, and that [JSON.parse] decodes to [value]. *)
Definition legacyHolds (JSON_parse : string -> option stored) (w : world)
    (key : string) (value : stored) : Prop :=
  exists text,
    localStorage w !! key = Some text
    /\ JsString.truthy text = true
    /\ JSON_parse text = Some value.

(** Nothing under [key] makes the load throw: when the durable store lacks
    the key and the legacy mechanism has a text for it, the text decodes. *)
Definition decodable (JSON_parse : string -> option stored) (w : world)
    (key : string) : Prop :=
  forall text,
    db w !! key = None ->
    localStorage w !! key = Some text ->
    JsString.truthy text = true ->
    exists value, JSON_parse text = Some value.

(** The codes of the inventory, in order. *)
Definition codes (l : list Saree.t) : list string := map Saree.code l.

(** An item's code is normalized when upper-casing leaves it alone. *)
Definition normalized (s : Saree.t) : Prop := toUpperCase (Saree.code s) = Saree.code s.

(** A sequence of [handleAddSaree] calls, each with its own clock reading. *)
Definition addItems (calls : list (clock * Form.t)) (st : state) : state :=
  fold_left (fun st call => handleAddSaree (fst call) (snd call) st) calls st.

(** The codes of the cart lines, in order. *)
Definition lineCodes (lines : list CartLine.t) : list string :=
  map (fun line => Saree.code (CartLine.saree line)) lines.

Definition isSold (s : Saree.t) : bool := String.eqb (Saree.status s) "sold".

(** What checkout does to one item, for the cart [lines]. *)
Definition soldIfInCart (lines : list CartLine.t) (s : Saree.t) : Saree.t :=
  if inCart (Saree.code s) lines then Saree.withStatus s "sold" else s.

(** The codes of the rows that reach the duplicate test, in row order. *)
Definition rowCodes (delimiter : ascii) (cols : columns) (rows : list string)
  : list string :=
  omap (rowCode delimiter cols) rows.

Definition mem (c : string) (l : list string) : bool := existsb (String.eqb c) l.

(** Modelled on the specification's words, to compare the loop with: a row
    is a duplicate when its code exists in the current collection or appeared
    [earlier] in the same batch.  [duplicateRows] lists the codes of the
    duplicate rows, [acceptedRows] those of the other rows, in row order. *)
Fixpoint duplicateRows (stockCodes earlier cs : list string) : list string :=
  match cs with
  | [] => []
  | c :: rest =>
      if mem c stockCodes || mem c earlier
      then c :: duplicateRows stockCodes (c :: earlier) rest
      else duplicateRows stockCodes (c :: earlier) rest
  end.

Fixpoint acceptedRows (stockCodes earlier cs : list string) : list string :=
  match cs with
  | [] => []
  | c :: rest =>
      if mem c stockCodes || mem c earlier
      then acceptedRows stockCodes (c :: earlier) rest
      else c :: acceptedRows stockCodes (c :: earlier) rest
  end.

(** What the loop has seen: the codes in stock or in [newSarees] are the
    codes in stock or in the [earlier] rows. *)
Definition seenAgrees (stock : list Saree.t) (earlier : list string) (acc : importAcc)
  : Prop :=
  forall c, mem c (codes stock) || mem c earlier
            = mem c (codes stock) || mem c (codes (newSarees acc)).

(** The texts of the values of an object, in order. *)
Definition cellTexts (obj : object) : list string :=
  map (fun kv => String_ (snd kv)) obj.

Fixpoint allChars (p : ascii -> bool) (s : string) : bool :=
  match s with
  | EmptyString => true
  | String c r => p c && allChars p r
  end.

Definition noSpaceQuote (c : ascii) : bool :=
  negb (isWhiteSpace c) && negb (Ascii.eqb c dquote).

Definition startsWithQuote (s : string) : bool :=
  match s with
  | String c _ => Ascii.eqb c dquote
  | EmptyString => false
  end.

(** The texts that the row parser gives back as they are: no white space
    at either end, a character that is not a quote, and no line break. *)
Definition plainText (s : string) : bool :=
  String.eqb (trim s) s
  && JsString.truthy (removeQuotes s)
  && negb (includesChar s newline).

(** An object with a field, whose text fields are all plain. *)
Definition plainObject (obj : object) : bool :=
  negb (Nat.eqb (length obj) 0)
  && forallb (fun kv => match snd kv with
                        | VStr s => plainText s
                        | VNum _ => true
                        end) obj.

(** Re-parsing an exported table, as the specification words it: the table
    is read back by reversing the quote-doubling.  This is a second
    definition, from the specification's words, to compare the export with;
    it is not the import's [parseCSVRow].  A cell that opens with a quote runs
    to its closing quote, a doubled quote inside standing for one quote; any
    other cell (the header's) runs to the next comma or line break. *)
Inductive reparseState : Type :=
| Bare
| Quoted
| QuoteSeen.

Fixpoint reparse (str : string) (state : reparseState) (cell : string)
    (row : list string) (table : list (list string)) : list (list string) :=
  match str with
  | EmptyString => table ++ [row ++ [cell]]
  | String c rest =>
      match state with
      | Quoted =>
          if Ascii.eqb c dquote then reparse rest QuoteSeen cell row table
          else reparse rest Quoted (cell +:+ String c EmptyString) row table
      | QuoteSeen =>
          if Ascii.eqb c dquote then
            reparse rest Quoted (cell +:+ String dquote EmptyString) row table
          else if Ascii.eqb c comma then
            reparse rest Bare EmptyString (row ++ [cell]) table
          else if Ascii.eqb c newline then
            reparse rest Bare EmptyString [] (table ++ [row ++ [cell]])
          else reparse rest Bare (cell +:+ String c EmptyString) row table
      | Bare =>
          if Ascii.eqb c dquote && negb (JsString.truthy cell) then
            reparse rest Quoted cell row table
          else if Ascii.eqb c comma then
            reparse rest Bare EmptyString (row ++ [cell]) table
          else if Ascii.eqb c newline then
            reparse rest Bare EmptyString [] (table ++ [row ++ [cell]])
          else reparse rest Bare (cell +:+ String c EmptyString) row table
      end
  end.

Definition reparseTable (str : string) : list (list string) :=
  reparse str Bare EmptyString [] [].

(** Two numbers of the model that are the same number: [m / 10^p] and
    [m' / 10^p'] with [m * 10^p' = m' * 10^p]. *)
Definition sameNumber (a b : number) : Prop :=
  match a, b with
  | NaN, NaN => True
  | Infinity x, Infinity y => x = y
  | Dec m p, Dec m' p' => (m * 10 ^ Z.of_nat p' = m' * 10 ^ Z.of_nat p)%Z
  | _, _ => False
  end.

(** A text of the table that gives back a numeric field: read as a number,
    it is that number. *)
Definition readsAs (t : string) (n : number) : Prop := sameNumber (parseFloat t) n.

(** The original field values, as the data model has them, against a row of
    texts: the row has one text for each field of the record, in the order
    of the fields; the text of a text field is the field, and the text of a
    numeric field reads as the field.  The names are those of the fields of
    the first record.  An item has a cloth type only when it was added by
    the form. *)
Definition sareeNames (first : Saree.t) : list string :=
  ["id"; "code"; "shopName"; "shopCode"]
  ++ match Saree.type first with Some _ => ["type"] | None => [] end
  ++ ["cp"; "mrp"; "asp60"; "status"; "dateAdded"].

Definition sareeRow (s : Saree.t) (row : list string) : Prop :=
  exists cp mrp asp60 : string,
    row = [Saree.id s; Saree.code s; Saree.shopName s; Saree.shopCode s]
          ++ match Saree.type s with Some ty => [ty] | None => [] end
          ++ [cp; mrp; asp60; Saree.status s; Saree.dateAdded s]
    /\ readsAs cp (Saree.cp s)
    /\ readsAs mrp (Saree.mrp s)
    /\ readsAs asp60 (Saree.asp60 s).

Definition saleNames : list string :=
  ["id"; "sareeCode"; "salePrice"; "paymentMethod"; "saleDate"].

Definition saleRow (s : Sale.t) (row : list string) : Prop :=
  exists salePrice : string,
    row = [Sale.id s; Sale.sareeCode s; salePrice;
           match Sale.paymentMethod s with Cash => "Cash" | UPI => "UPI" end;
           Sale.saleDate s]
    /\ readsAs salePrice (Sale.salePrice s).

(** The table as the specification words it: a row of field names, then
    one row per record, the rows on lines of their own and the cells of a row
    between commas; every value between quotes, with each quote in it
    doubled. *)
Fixpoint quotesDoubled (v : string) : string :=
  match v with
  | EmptyString => EmptyString
  | String c r =>
      if Ascii.eqb c dquote then String dquote (String dquote (quotesDoubled r))
      else String c (quotesDoubled r)
  end.

Definition quotedValue (v : string) : string :=
  String dquote (quotesDoubled v +:+ String dquote EmptyString).

Definition quotedTable (names : list string) (rows : list (list string)) : string :=
  join (String newline EmptyString)
       (join "," names :: map (fun row => join "," (map quotedValue row)) rows).

(** The characters of a field name: no quote, comma or line break. *)
Definition nameChar (c : ascii) : bool :=
  negb (Ascii.eqb c dquote) && negb (Ascii.eqb c comma) && negb (Ascii.eqb c newline).

(** A form field is absent when it is [null] or empty. *)
Definition absent (v : option string) : Prop := v = None \/ v = Some EmptyString.

(** The handlers that act on the ledger, as the events of a session in
    which every handler is called in the render that is current.  The two
    callbacks that may be called later, [onload] and [onDecoded], are here
    through [FileUpload] and [ScanInput], that is with no update between
    the render that made the callback and its call. *)
Inductive action : Type :=
| AddSaree (clk : clock) (form : Form.t)
| FileUpload (clk : clock) (text : string)
| ScanInput (codeToScan : string)
| ScanMode (mode : scanModes)
| UpdateCartItemPrice (index : nat) (sel : selection) (customVal : option string)
| RemoveCartItem (index : nat)
| ShowPaymentModal (v : bool)
| PaymentMethod (p : payment)
| CompleteSale (clk : clock) (rnd : nat -> string)
| ExportSales (clk : clock)
| ExportInventory (clk : clock).

(** What an action does to the state, and a session from a state. *)
Definition step (st : state) (a : action) : state :=
  match a with
  | AddSaree clk form => handleAddSaree clk form st
  | FileUpload clk text => handleFileUpload clk text st
  | ScanInput codeToScan => handleScanInput codeToScan st
  | ScanMode mode => setScanMode mode st
  | UpdateCartItemPrice index sel customVal => updateCartItemPrice index sel customVal st
  | RemoveCartItem index => removeCartItem index st
  | ShowPaymentModal v => setShowPaymentModal v st
  | PaymentMethod p => setPaymentMethod p st
  | CompleteSale clk rnd => completeSaleTransaction clk rnd st
  | ExportSales clk => fst (exportSales clk st)
  | ExportInventory clk => fst (exportInventory clk st)
  end.

Definition run (actions : list action) (st : state) : state :=
  fold_left step actions st.

(** The ledger is consistent: codes are unique in the inventory, in the sales
    log and in the cart; every sale is the sale of an item that is there and
    sold; every cart line is a line for an item that is there and not sold. *)
Definition ledgerOk (st : state) : Prop :=
  List.NoDup (codes (sarees st))
  /\ List.NoDup (map Sale.sareeCode (sales st))
  /\ (forall sale, In sale (sales st) ->
        exists s, In s (sarees st) /\ Saree.code s = Sale.sareeCode sale
                  /\ Saree.status s = "sold")
  /\ List.NoDup (lineCodes (cart st))
  /\ (forall line, In line (cart st) ->
        exists s, In s (sarees st) /\ Saree.code s = Saree.code (CartLine.saree line)
                  /\ Saree.status s <> "sold").

(** A price is settled when [p || 0] is [p]: it is not [NaN] (and a zero is
    written [Dec 0 0], the one zero that [|| 0] gives). *)
Definition settled (p : number) : Prop := orElse p zero = p.

(** The three prices of an item are settled; so are all prices that the
    ledger holds. *)
Definition priced (s : Saree.t) : Prop :=
  settled (Saree.cp s) /\ settled (Saree.mrp s) /\ settled (Saree.asp60 s).

Definition pricesOk (st : state) : Prop :=
  (forall s, In s (sarees st) -> priced s)
  /\ (forall line, In line (cart st) -> priced (CartLine.saree line))
  /\ (forall sale, In sale (sales st) -> settled (Sale.salePrice sale)).

(** A burst of [n] quick taps, and bursts with a pause of a second after
    each. *)
Definition taps (n : nat) (ui : resetUi) : resetUi :=
  Nat.iter n handleHiddenResetTrigger ui.

Definition bursts (ns : list nat) (ui : resetUi) : resetUi :=
  fold_left (fun ui n => clickTimeout (taps n ui)) ns ui.

(** A step that leaves the legacy store alone. *)
Definition keepsLegacy {A : Type} (m : io A) : Prop :=
  forall w, localStorage (snd (m w)) = localStorage w.

(** What every imported item looks like. *)
Definition imported (s : Saree.t) : Prop :=
  JsString.truthy (Saree.code s) = true
  /\ toUpperCase (Saree.code s) = Saree.code s
  /\ includesChar (Saree.code s) dquote = false
  /\ Saree.type s = None
  /\ (Saree.status s = "available" \/ includes (Saree.status s) "sold" = true).

(** A row as a file with Windows line ends has it: with a carriage return
    at its end. *)
Definition carriageReturn : ascii := "013"%char.

Definition withCR (row : string) : string := row +:+ String carriageReturn EmptyString.

(** The rows of the same file with or without carriage returns. *)
Definition sameRows (rows rows' : list string) : Prop :=
  Forall2 (fun r r' => r' = r \/ r' = withCR r) rows rows'.

(** The value of the digits [d] after the digits read so far. *)
Fixpoint uintValue (acc : N) (d : Decimal.uint) : N :=
  match d with
  | Decimal.Nil => acc
  | Decimal.D0 l => uintValue (10 * acc) l
  | Decimal.D1 l => uintValue (10 * acc + 1) l
  | Decimal.D2 l => uintValue (10 * acc + 2) l
  | Decimal.D3 l => uintValue (10 * acc + 3) l
  | Decimal.D4 l => uintValue (10 * acc + 4) l
  | Decimal.D5 l => uintValue (10 * acc + 5) l
  | Decimal.D6 l => uintValue (10 * acc + 6) l
  | Decimal.D7 l => uintValue (10 * acc + 7) l
  | Decimal.D8 l => uintValue (10 * acc + 8) l
  | Decimal.D9 l => uintValue (10 * acc + 9) l
  end.





(** ** Sample data *)

Definition sampleClock : clock :=
  Clock 1700000000000 "2023-11-14T22:13:20.000Z" "11/14/2023, 10:13:20 PM" "11/14/2023".

(** The add form filled in, and the form with every optional field [null]. *)
Definition sampleForm : Form.t :=
  Form.mk "sar101" (Some "Sharma Textiles") (Some "SHARMA01") (Some "Silk")
          (Some "300") (Some "500") (Some "400").
Definition sampleFormAgain : Form.t :=
  Form.mk "SAR101" None None None (Some "1") (Some "2") (Some "3").
Definition emptyForm : Form.t := Form.mk "x1" None None None None None None.
Definition sampleForm2 : Form.t :=
  Form.mk "sar102" (Some "Sharma Textiles") (Some "SHARMA01") None
          (Some "250.50") (Some "450") (Some "bargain").

(** A file of the given lines. *)
Definition fileOf (lines : list string) : string :=
  join (String newline EmptyString) lines.

(** Two rows, the first with an empty status cell. *)
Definition statusCsv : string :=
  fileOf ["Product_Code,Item_Status"; "CODE_A,"; "CODE_B,Sold - floor 2"].

(** A code twice (in two spellings), and a code that is in [sampleStock]. *)
Definition duplicateCsv : string :=
  fileOf ["Product_Code,MRP"; "A1,100"; "a1,200"; "SAR101,5"].

Definition orderCsv : string := fileOf ["code"; "A"; "B"].

Definition codeOnly : columns := Columns None None 0 None None None None.

(** A shop name with a comma and quotes in it, and one that is a single
    quote. *)
Definition quotedForm : Form.t :=
  Form.mk "q7" (Some ("Sharma, " +:+ String dquote "Silk" +:+ String dquote " House"))
          (Some "SH,01") (Some "Silk") (Some "300") (Some "520.75") (Some "400").
Definition quoteForm : Form.t :=
  Form.mk "q1" (Some (String dquote EmptyString)) None None None None None.

(** A legacy store with a serialized inventory of three items, and a
    [JSON.parse] that decodes that text. *)
Definition threeItems : list Saree.t :=
  [Saree.mk "3" "SAR-COT-1003" "Unknown Shop" "N/A" (Some "Cotton")
            (Dec 100 0) (Dec 300 0) (Dec 250 0) "available" "2023-01-03T00:00:00.000Z";
   Saree.mk "2" "SAR-SIL-1002" "Unknown Shop" "N/A" (Some "Silk")
            (Dec 900 0) (Dec 2500 0) (Dec 2000 0) "sold" "2023-01-02T00:00:00.000Z";
   Saree.mk "1" "SAR-COT-1001" "Unknown Shop" "N/A" (Some "Cotton")
            (Dec 100 0) (Dec 300 0) (Dec 250 0) "available" "2023-01-01T00:00:00.000Z"].
(** The JSON text of a collection whose strings need no escaping, as
    [JSON.stringify] writes it. *)
Definition jsonString (s : string) : string :=
  String dquote s +:+ String dquote EmptyString.
Definition jsonObject (obj : object) : string :=
  "{" +:+ join "," (map (fun kv => jsonString (fst kv) +:+ ":"
                                   +:+ match snd kv with
                                       | VStr s => jsonString s
                                       | VNum n => toString n
                                       end) obj)
  +:+ "}".
Definition jsonArray (data : list object) : string :=
  "[" +:+ join "," (map jsonObject data) +:+ "]".
Definition legacyText : string := jsonArray (map sareeObject threeItems).
Definition sampleParse (text : string) : option stored :=
  if String.eqb text legacyText then Some (Inventory threeItems) else None.
Definition legacyWorld : world :=
  World ∅ {["saree_inventory" := legacyText]} [].

(** The same legacy inventory beside a sales text that is not JSON, and the
    same legacy inventory with a durable store whose third request (the
    write of the migrated inventory) is rejected. *)
Definition brokenSalesWorld : world :=
  World ∅ (<["saree_sales" := "garbage"]> {["saree_inventory" := legacyText]}) [].
Definition faultyWorld : world :=
  World ∅ {["saree_inventory" := legacyText]} [false; false; true].

(** Two items in stock, then both in the cart. *)
Definition sampleStock : state :=
  addItems [(sampleClock, sampleForm); (sampleClock, sampleForm2)] initialState.
Definition sampleCart : state :=
  fst (addToCart "SAR102" (fst (addToCart "SAR101" sampleStock))).
Definition sampleRnd (k : nat) : string := "12345" +:+ natToString k.

(** A code typed with a space after it, and prices that are not numbers. *)
Definition spacedForm : Form.t :=
  Form.mk "sar7 " None None None None (Some "700") None.
Definition badPriceForm : Form.t :=
  Form.mk "p1" None None None (Some "abc") (Some "") (Some "12.50").

(** The sum of two numbers where no rounding occurs, to run the total on an
    example. *)
Definition sampleAdd (a b : number) : number :=
  match a, b with
  | NaN, _ => NaN
  | _, NaN => NaN
  | Infinity s, Infinity t => if Bool.eqb s t then Infinity s else NaN
  | Infinity s, Dec _ _ => Infinity s
  | Dec _ _, Infinity t => Infinity t
  | Dec m p, Dec n q =>
      Dec (m * 10 ^ Z.of_nat (q - p) + n * 10 ^ Z.of_nat (p - q)) (Nat.max p q)
  end.

(** A durable store and a legacy store that both hold an inventory, and the
    state of the application once it has loaded it. *)
Definition stockedWorld : world :=
  World {["saree_inventory" := Inventory threeItems]}
        {["saree_inventory" := legacyText]} [].
Definition stockedState : state :=
  setIsDBLoaded true (setSarees threeItems initialState).

(** A durable store with both collections beside a legacy text that is not
    JSON, and a durable store whose first request is rejected. *)
Definition durableWorld : world :=
  World (<["saree_sales" := SalesLog []]> {["saree_inventory" := Inventory threeItems]})
        {["saree_inventory" := "garbage"]} [].
Definition lostWorld : world :=
  World {["saree_inventory" := Inventory threeItems]} ∅ [true].

(** The same two stores when the durable store rejects the first request. *)
Definition rejectingWorld : world :=
  World {["saree_inventory" := Inventory threeItems]}
        {["saree_inventory" := legacyText]} [true].


(** The earlier variant with one item. *)
Definition legacyStock : Legacy.state :=
  Legacy.handleAddSaree sampleClock 4821 "Kanchipuram" "Silk" "2500"
    (Legacy.State [] [] None).

(** A comma-separated file with a pipe in one shop name. *)
Definition pipeCsv : string :=
  fileOf ["Product_Code,Shop_Name"; "A1,Sharma"; "B2,Gupta | Sons"].

(** * Properties *)

(** ** Numbers and strings on examples *)

Example parseFloat_plain : parseFloat "499.50" = Dec 49950 2.
Proof. reflexivity. Qed.

Example parseFloat_prefix : parseFloat "  -12.5abc" = Dec (-125) 1.
Proof. reflexivity. Qed.

Example parseFloat_exponent : parseFloat "1.5e3" = Dec 1500 0.
Proof. reflexivity. Qed.

Example parseFloat_null : parseFloat "null" = NaN.
Proof. reflexivity. Qed.

Example parseFloat_empty : parseFloat EmptyString = NaN.
Proof. reflexivity. Qed.

Example toString_decimal : toString (Dec 49950 2) = "499.5".
Proof. reflexivity. Qed.

Example toString_small : toString (Dec (-5) 3) = "-0.005".
Proof. reflexivity. Qed.

Example toString_int : toString (Dec 500 0) = "500".
Proof. reflexivity. Qed.

Example trim_inner_space : trim "  Unknown Shop  " = "Unknown Shop".
Proof. reflexivity. Qed.

Example split_lines :
  split newline (fileOf ["code"; "A"; "B"]) = ["code"; "A"; "B"].
Proof. reflexivity. Qed.

Example parseCSVRow_quoted :
  parseCSVRow comma (quoteText "a,b" +:+ "," +:+ "c") = ["a,b"; "c"].
Proof. reflexivity. Qed.

(** ** Strings and arrays *)

Lemma upperChar_idempotent (c : ascii) : upperChar (upperChar c) = upperChar c.
Proof.
  destruct c as [[] [] [] [] [] [] [] []]; reflexivity.
Qed.

Lemma toUpperCase_idempotent (s : string) : toUpperCase (toUpperCase s) = toUpperCase s.
Proof.
  unfold toUpperCase.
  induction s as [|c s IH]; cbn [mapChars]; [reflexivity|].
  now rewrite upperChar_idempotent, IH.
Qed.

Lemma hasCode_eq (c : string) (s : Saree.t) :
  Saree.hasCode c s = true <-> Saree.code s = c.
Proof. unfold Saree.hasCode. apply String.eqb_eq. Qed.

Lemma existsb_hasCode (c : string) (l : list Saree.t) :
  existsb (Saree.hasCode c) l = true <-> In c (codes l).
Proof.
  unfold codes. rewrite existsb_exists, in_map_iff. split.
  - intros (s & Hin & Hc). exists s. split; [now apply hasCode_eq | exact Hin].
  - intros (s & Hc & Hin). exists s. split; [exact Hin | now apply hasCode_eq].
Qed.

Lemma existsb_hasCode_false (c : string) (l : list Saree.t) :
  existsb (Saree.hasCode c) l = false <-> ~ In c (codes l).
Proof.
  rewrite <- existsb_hasCode. destruct (existsb _ l); split; congruence.
Qed.

(** ** Adding an item *)

Lemma handleAddSaree_duplicate clk form st :
  In (toUpperCase (Form.code form)) (codes (sarees st)) ->
  handleAddSaree clk form st = setNotification (Some DuplicateCode) st.
Proof.
  intros Hin. apply existsb_hasCode in Hin.
  unfold handleAddSaree. now rewrite Hin.
Qed.

Lemma handleAddSaree_fresh clk form st :
  ~ In (toUpperCase (Form.code form)) (codes (sarees st)) ->
  exists s,
    sarees (handleAddSaree clk form st) = s :: sarees st
    /\ Saree.code s = toUpperCase (Form.code form)
    /\ Saree.status s = "available".
Proof.
  intros Hin. apply existsb_hasCode_false in Hin.
  unfold handleAddSaree. rewrite Hin. simpl. eexists. repeat split.
Qed.

Lemma handleAddSaree_NoDup clk form st :
  List.NoDup (codes (sarees st)) -> List.NoDup (codes (sarees (handleAddSaree clk form st))).
Proof.
  intros Hnd.
  destruct (in_dec string_dec (toUpperCase (Form.code form)) (codes (sarees st)))
    as [Hin|Hin].
  - now rewrite handleAddSaree_duplicate.
  - destruct (handleAddSaree_fresh clk form st Hin) as (s & -> & Hc & _).
    unfold codes in *. cbn [map]. rewrite Hc. constructor; assumption.
Qed.

Lemma handleAddSaree_normalized clk form st :
  Forall normalized (sarees st) ->
  Forall normalized (sarees (handleAddSaree clk form st)).
Proof.
  intros Hn.
  destruct (in_dec string_dec (toUpperCase (Form.code form)) (codes (sarees st)))
    as [Hin|Hin].
  - now rewrite handleAddSaree_duplicate.
  - destruct (handleAddSaree_fresh clk form st Hin) as (s & -> & Hc & _).
    constructor; [|exact Hn]. unfold normalized. rewrite Hc.
    apply toUpperCase_idempotent.
Qed.

Lemma addItems_invariant (P : state -> Prop) :
  (forall clk form st, P st -> P (handleAddSaree clk form st)) ->
  forall calls st, P st -> P (addItems calls st).
Proof.
  intros Hstep calls. unfold addItems.
  induction calls as [|call calls IH]; intros st HP; simpl; [exact HP|].
  apply IH, Hstep, HP.
Qed.

Lemma normalized_codes (l : list Saree.t) :
  Forall normalized l -> map toUpperCase (codes l) = codes l.
Proof.
  induction 1 as [|s l Hs _ IH]; simpl; [reflexivity|].
  now rewrite Hs, IH.
Qed.

(** C1.  Whatever sequence of [handleAddSaree] calls runs from an inventory
    whose codes are unique, the codes of the resulting inventory are unique;
    when the codes it started from were normalized (upper-case), so are all
    codes afterwards, and no two items share a normalized code.  There, an
    add whose upper-cased code is the code of an item in stock reports
    [DuplicateCode] and leaves the inventory (and the rest of the state) as it
    was. *)
Theorem addItem_codes_unique :
  forall (calls : list (clock * Form.t)) (st : state) (clk : clock) (form : Form.t),
    List.NoDup (codes (sarees st)) ->
    let st' := addItems calls st in
    List.NoDup (codes (sarees st'))
    /\ (Forall normalized (sarees st) ->
        Forall normalized (sarees st')
        /\ List.NoDup (map toUpperCase (codes (sarees st'))))
    /\ (In (toUpperCase (Form.code form)) (codes (sarees st')) ->
        notification (handleAddSaree clk form st') = Some DuplicateCode
        /\ sarees (handleAddSaree clk form st') = sarees st'
        /\ handleAddSaree clk form st' = setNotification (Some DuplicateCode) st').
Proof.
  intros calls st clk form Hnd st'.
  assert (Hnd' : List.NoDup (codes (sarees st'))).
  { apply (addItems_invariant (fun st => List.NoDup (codes (sarees st)))); [|exact Hnd].
    intros; now apply handleAddSaree_NoDup. }
  split; [exact Hnd'|]. split.
  - intros Hn.
    assert (Hn' : Forall normalized (sarees st')).
    { apply (addItems_invariant (fun st => Forall normalized (sarees st))); [|exact Hn].
      intros; now apply handleAddSaree_normalized. }
    split; [exact Hn'|]. now rewrite normalized_codes.
  - intros Hin. rewrite (handleAddSaree_duplicate clk form st' Hin). now repeat split.
Qed.

(** C1, at a concrete sequence: the same code added twice, in two spellings. *)
Lemma addItem_codes_unique_witness :
  List.NoDup (codes (sarees initialState))
  /\ List.NoDup
       (codes (sarees (addItems [(sampleClock, sampleForm); (sampleClock, sampleFormAgain)]
                               initialState))).
Proof.
  split; [constructor|].
  exact (proj1 (addItem_codes_unique
                  [(sampleClock, sampleForm); (sampleClock, sampleFormAgain)]
                  initialState sampleClock sampleForm (List.NoDup_nil _))).
Defined.

Example addItem_twice_keeps_one :
  codes (sarees (addItems [(sampleClock, sampleForm); (sampleClock, sampleFormAgain)]
                          initialState)) = ["SAR101"].
Proof. reflexivity. Qed.

Lemma parseFloatOf_absent (v : option string) : absent v -> parseFloatOf v = NaN.
Proof. intros [-> | ->]; reflexivity. Qed.

Lemma orElse_NaN (d : number) : orElse NaN d = d.
Proof. reflexivity. Qed.

Lemma orDefault_absent (v : option string) (d : string) : absent v -> orDefault v d = d.
Proof. intros [-> | ->]; reflexivity. Qed.

(** C8, as stated, fails: the [type] field of an item added with no type is
    [Cotton], not [N/A]. *)
Lemma addItem_type_default_counterexample :
  exists s,
    sarees (handleAddSaree sampleClock emptyForm initialState) = [s]
    /\ absent (Form.type emptyForm)
    /\ Saree.type s = Some "Cotton"
    /\ Saree.type s <> Some "N/A".
Proof.
  eexists. split; [reflexivity|]. split; [now left|]. split; [reflexivity|].
  discriminate.
Qed.

(** C8, amended.  An add that is not a duplicate puts one new item in front
    of the inventory.  Each of its numeric fields (cost price, list price,
    alternate price) is 0 when [parseFloat] makes nothing of the input
    ([NaN]), which is the case of an absent input; its shop name is
    [Unknown Shop], its shop code [N/A] and its type [Cotton] when the
    corresponding input is absent. *)
Theorem addItem_defaults :
  forall (clk : clock) (form : Form.t) (st : state),
    ~ In (toUpperCase (Form.code form)) (codes (sarees st)) ->
    exists s,
      sarees (handleAddSaree clk form st) = s :: sarees st
      /\ (parseFloatOf (Form.cp form) = NaN -> Saree.cp s = zero)
      /\ (parseFloatOf (Form.mrp form) = NaN -> Saree.mrp s = zero)
      /\ (parseFloatOf (Form.asp60 form) = NaN -> Saree.asp60 s = zero)
      /\ (forall v, absent v -> parseFloatOf v = NaN)
      /\ (absent (Form.shopName form) -> Saree.shopName s = "Unknown Shop")
      /\ (absent (Form.shopCode form) -> Saree.shopCode s = "N/A")
      /\ (absent (Form.type form) -> Saree.type s = Some "Cotton").
Proof.
  intros clk form st Hin. apply existsb_hasCode_false in Hin.
  unfold handleAddSaree. rewrite Hin. cbn [sarees showNotification setNotification setSarees].
  eexists. split; [reflexivity|]. cbn [Saree.cp Saree.mrp Saree.asp60 Saree.shopName
                                       Saree.shopCode Saree.type].
  repeat split.
  - intros ->. reflexivity.
  - intros ->. reflexivity.
  - intros ->. reflexivity.
  - apply parseFloatOf_absent.
  - intros H. now apply orDefault_absent.
  - intros H. now apply orDefault_absent.
  - intros H. now rewrite orDefault_absent.
Qed.

(** C8 amended, on the form with every optional field [null]. *)
Lemma addItem_defaults_witness :
  ~ In (toUpperCase (Form.code emptyForm)) (codes (sarees initialState))
  /\ exists s,
      sarees (handleAddSaree sampleClock emptyForm initialState) = s :: sarees initialState
      /\ (parseFloatOf (Form.cp emptyForm) = NaN -> Saree.cp s = zero)
      /\ (parseFloatOf (Form.mrp emptyForm) = NaN -> Saree.mrp s = zero)
      /\ (parseFloatOf (Form.asp60 emptyForm) = NaN -> Saree.asp60 s = zero)
      /\ (forall v, absent v -> parseFloatOf v = NaN)
      /\ (absent (Form.shopName emptyForm) -> Saree.shopName s = "Unknown Shop")
      /\ (absent (Form.shopCode emptyForm) -> Saree.shopCode s = "N/A")
      /\ (absent (Form.type emptyForm) -> Saree.type s = Some "Cotton").
Proof.
  assert (H : ~ In (toUpperCase (Form.code emptyForm)) (codes (sarees initialState))).
  { simpl. tauto. }
  split; [exact H|].
  exact (addItem_defaults sampleClock emptyForm initialState H).
Defined.

(** ** Export of an empty collection *)

(** C10.  For an empty collection [exportToCSV] hands no file to the browser:
    it reports [NoData] and returns; a file exists exactly when the collection
    has a record, and then its content is the header row and the rows.
    Whatever the collection, the inventory and the sales stay as they were. *)
Theorem export_empty_collection :
  forall (clk : clock) (filename : string) (st : state),
    exportToCSV clk [] filename st = (setNotification (Some NoData) st, None)
    /\ (forall data : list object,
          (exists d, snd (exportToCSV clk data filename st) = Some d) <-> data <> [])
    /\ (forall (first : object) (rest : list object),
          option_map content (snd (exportToCSV clk (first :: rest) filename st))
          = Some (csvContent first (first :: rest)))
    /\ (forall data : list object,
          sarees (fst (exportToCSV clk data filename st)) = sarees st
          /\ sales (fst (exportToCSV clk data filename st)) = sales st).
Proof.
  intros clk filename st. split; [reflexivity|]. split; [|split].
  - intros [|first rest]; simpl; split.
    + intros [d Hd]. discriminate.
    + intros H. now contradiction H.
    + discriminate.
    + intros _. eexists. reflexivity.
  - reflexivity.
  - intros [|first rest]; split; reflexivity.
Qed.

(** ** [findIndex], [find] and assignment at an index *)

Lemma findIndex_None {A : Type} (p : A -> bool) (l : list A) :
  findIndex p l = None <-> existsb p l = false.
Proof.
  induction l as [|x l IH]; simpl; [tauto|].
  destruct (p x); simpl; [split; discriminate|].
  rewrite <- IH. destruct (findIndex p l); simpl; split; congruence.
Qed.

Lemma findIndex_Some {A : Type} (p : A -> bool) (l : list A) (i : nat) :
  findIndex p l = Some i -> exists x, l !! i = Some x /\ p x = true.
Proof.
  revert i. induction l as [|x l IH]; simpl; intros i H; [discriminate|].
  destruct (p x) eqn:Hp.
  - injection H as <-. exists x. now split.
  - destruct (findIndex p l) as [j|]; simpl in H; [|discriminate].
    injection H as <-. destruct (IH j eq_refl) as (y & Hy & Hpy).
    exists y. now split.
Qed.

Lemma find_findIndex {A : Type} (p : A -> bool) (l : list A) :
  List.find p l = match findIndex p l with
                  | Some i => l !! i
                  | None => None
                  end.
Proof.
  induction l as [|x l IH]; simpl; [reflexivity|].
  destruct (p x); [reflexivity|]. rewrite IH.
  now destruct (findIndex p l).
Qed.

Lemma find_insert_first {A : Type} (p : A -> bool) (l : list A) (i : nat) (x : A) :
  findIndex p l = Some i -> p x = true -> List.find p (<[i := x]> l) = Some x.
Proof.
  revert i. induction l as [|y l IH]; simpl; intros i H Hx; [discriminate|].
  destruct (p y) eqn:Hp.
  - injection H as <-. simpl. now rewrite Hx.
  - destruct (findIndex p l) as [j|]; simpl in H; [|discriminate].
    injection H as <-. simpl. rewrite Hp. now apply IH.
Qed.

Lemma findIndex_codes (c : string) (l l' : list Saree.t) :
  codes l = codes l' ->
  findIndex (Saree.hasCode c) l = findIndex (Saree.hasCode c) l'.
Proof.
  revert l'. induction l as [|s l IH]; intros [|s' l'] H; simpl in *;
    try discriminate; [reflexivity|].
  injection H as Hc Hl. unfold Saree.hasCode at 1 3. rewrite Hc.
  now rewrite (IH l' Hl).
Qed.

Lemma codes_insert (l : list Saree.t) (i : nat) (s : Saree.t) (v : string) :
  l !! i = Some s -> codes (<[i := Saree.withStatus s v]> l) = codes l.
Proof.
  revert i. induction l as [|x l IH]; intros [|i] H; simpl in *; try discriminate.
  - now injection H as ->.
  - unfold codes in *. simpl. now rewrite IH.
Qed.

(** ** Return *)

Lemma processReturn_not_found c st :
  ~ In c (codes (sarees st)) ->
  processReturn c st = (setNotification (Some (NotFound c)) st, false).
Proof.
  intros H. apply existsb_hasCode_false, findIndex_None in H.
  unfold processReturn. now rewrite H.
Qed.

Lemma processReturn_already_available c st s :
  List.find (Saree.hasCode c) (sarees st) = Some s ->
  Saree.status s = "available" ->
  processReturn c st = (setNotification (Some (AlreadyAvailable c)) st, false).
Proof.
  intros Hf Hs. rewrite find_findIndex in Hf. unfold processReturn.
  destruct (findIndex (Saree.hasCode c) (sarees st)) as [i|]; [|discriminate].
  rewrite Hf, Hs. reflexivity.
Qed.

Lemma processReturn_success c st s :
  List.find (Saree.hasCode c) (sarees st) = Some s ->
  Saree.status s <> "available" ->
  exists i,
    findIndex (Saree.hasCode c) (sarees st) = Some i
    /\ processReturn c st =
       (setNotification
          (Some (Notif ("Return Successful! " +:+ c +:+ " is back in inventory.") success))
          (setSales
             (List.filter (fun sale => negb (String.eqb (Sale.sareeCode sale) c)) (sales st))
             (setSarees (<[i := Saree.withStatus s "available"]> (sarees st)) st)),
        true)
    /\ List.find (Saree.hasCode c) (<[i := Saree.withStatus s "available"]> (sarees st))
       = Some (Saree.withStatus s "available").
Proof.
  intros Hf Hs. rewrite find_findIndex in Hf. unfold processReturn.
  destruct (findIndex (Saree.hasCode c) (sarees st)) as [i|] eqn:Hi; [|discriminate].
  exists i. split; [reflexivity|]. rewrite Hf.
  apply String.eqb_neq in Hs. rewrite Hs. split; [reflexivity|].
  apply find_insert_first; [exact Hi|].
  destruct (findIndex_Some _ _ _ Hi) as (x & Hx & Hp).
  rewrite Hx in Hf. injection Hf as ->. exact Hp.
Qed.

Lemma filter_other_codes (c : string) (l : list Sale.t) :
  forall sale,
    In sale (List.filter (fun sale => negb (String.eqb (Sale.sareeCode sale) c)) l) ->
    Sale.sareeCode sale <> c.
Proof.
  intros sale H. apply filter_In in H as [_ H].
  apply negb_true_iff, String.eqb_neq in H. exact H.
Qed.

(** ** Checkout marks items sold *)

Lemma markSold_codes (l : list Saree.t) (line : CartLine.t) :
  codes (markSold l line) = codes l.
Proof.
  unfold markSold.
  destruct (findIndex _ l) as [i|]; [|reflexivity].
  destruct (l !! i) as [s|] eqn:Hs; [|reflexivity].
  now apply codes_insert.
Qed.

Lemma fold_markSold_codes (lines : list CartLine.t) (l : list Saree.t) :
  codes (fold_left markSold lines l) = codes l.
Proof.
  revert l. induction lines as [|line lines IH]; intros l; simpl; [reflexivity|].
  now rewrite IH, markSold_codes.
Qed.

Lemma markSold_find (l : list Saree.t) (line : CartLine.t) (c : string) :
  Saree.code (CartLine.saree line) = c ->
  In c (codes l) ->
  exists s, List.find (Saree.hasCode c) (markSold l line) = Some s
            /\ Saree.status s = "sold".
Proof.
  intros Hc Hin. unfold markSold. rewrite Hc.
  destruct (findIndex (Saree.hasCode c) l) as [i|] eqn:Hi.
  - destruct (findIndex_Some _ _ _ Hi) as (x & Hx & Hp). rewrite Hx.
    exists (Saree.withStatus x "sold"). split; [|reflexivity].
    apply find_insert_first; [exact Hi | exact Hp].
  - apply findIndex_None, existsb_hasCode_false in Hi. contradiction.
Qed.

Lemma addToCart_true c st st1 :
  addToCart c st = (st1, true) ->
  exists s line,
    List.find (Saree.hasCode c) (sarees st) = Some s
    /\ Saree.status s <> "sold"
    /\ CartLine.saree line = s
    /\ CartLine.selection line = MRP
    /\ inCart c (cart st) = false
    /\ st1 = setNotification (Some (Notif ("Added " +:+ c +:+ " to Cart.") success))
                             (setCart (cart st ++ [line]) st).
Proof.
  unfold addToCart. intros H.
  destruct (List.find (Saree.hasCode c) (sarees st)) as [s|]; [|discriminate].
  destruct (String.eqb (Saree.status s) "sold") eqn:Hs; [discriminate|].
  destruct (inCart c (cart st)) eqn:Hc; [discriminate|].
  injection H as <-.
  exists s, (CartLine.mk s MRP
               (if JsNumber.truthy (Saree.mrp s) then PriceNumber (Saree.mrp s)
                else PriceText EmptyString)).
  split; [reflexivity|].
  split; [now apply String.eqb_neq|]. split; [reflexivity|]. split; [reflexivity|].
  split; reflexivity.
Qed.

Lemma completeSaleTransaction_nonempty clk rnd st :
  cart st <> [] ->
  completeSaleTransaction clk rnd st =
  setNotification
    (Some (Notif ("Sale Completed! " +:+ natToString (length (cart st)) +:+ " items sold.")
                 success))
    (setPaymentMethod UPI
       (setShowPaymentModal false
          (setCart []
             (setSales (imap (saleOf clk rnd (paymentMethod st)) (cart st) ++ sales st)
                (setSarees (fold_left markSold (cart st) (sarees st)) st))))).
Proof.
  intros H. unfold completeSaleTransaction.
  destruct (cart st); [contradiction|reflexivity].
Qed.

Lemma find_hasCode_In (c : string) (l : list Saree.t) (s : Saree.t) :
  List.find (Saree.hasCode c) l = Some s -> Saree.code s = c /\ In c (codes l).
Proof.
  intros H. apply find_some in H as [Hin Hc]. apply hasCode_eq in Hc.
  split; [exact Hc|]. unfold codes. rewrite <- Hc. now apply in_map.
Qed.

(** A sale through the cart, then a return, then a second return. *)
Lemma sell_then_return c st st1 clk rnd :
  addToCart c st = (st1, true) ->
  exists st3 s,
    processReturn c (completeSaleTransaction clk rnd st1) = (st3, true)
    /\ List.find (Saree.hasCode c) (sarees st3) = Some s
    /\ Saree.status s = "available"
    /\ (forall sale, In sale (sales st3) -> Sale.sareeCode sale <> c)
    /\ processReturn c st3 = (setNotification (Some (AlreadyAvailable c)) st3, false).
Proof.
  intros Hadd.
  destruct (addToCart_true c st st1 Hadd) as (s & line & Hf & _ & Hl & _ & _ & ->).
  destruct (find_hasCode_In _ _ _ Hf) as [Hc Hin].
  rewrite completeSaleTransaction_nonempty by (simpl; now destruct (cart st)).
  set (st2 := setNotification _ _).
  assert (Hsold : exists s', List.find (Saree.hasCode c) (sarees st2) = Some s'
                             /\ Saree.status s' = "sold").
  { subst st2. cbn [sarees setNotification setPaymentMethod setShowPaymentModal setCart
                    setSales setSarees cart].
    rewrite fold_left_app. cbn [fold_left].
    apply markSold_find; [now rewrite Hl|].
    now rewrite fold_markSold_codes. }
  destruct Hsold as (s' & Hf' & Hs').
  destruct (processReturn_success c st2 s' Hf') as (i & Hi & Hret & Hfind).
  { rewrite Hs'. discriminate. }
  eexists _, _. split; [exact Hret|]. split; [exact Hfind|]. split; [reflexivity|].
  split; [apply filter_other_codes|].
  eapply processReturn_already_available; [exact Hfind | reflexivity].
Qed.

(** C3.  [processReturn] reports [NotFound] when no item has the code, and
    [AlreadyAvailable] when the item with the code (the first one) has status
    [available]; in both cases nothing else changes and it returns [false].
    Otherwise it returns [true], that item alone gets status [available], and
    the sales that are left are those whose [sareeCode] is another code.  So a
    return that follows a sale of the code through the cart succeeds, leaves
    the item available and no sale of the code, and the return repeated at
    once reports [AlreadyAvailable]. *)
Theorem processReturn_spec :
  forall (c : string) (st : state),
    (~ In c (codes (sarees st)) ->
     processReturn c st = (setNotification (Some (NotFound c)) st, false))
    /\ (forall s,
          List.find (Saree.hasCode c) (sarees st) = Some s ->
          Saree.status s = "available" ->
          processReturn c st = (setNotification (Some (AlreadyAvailable c)) st, false))
    /\ (forall s,
          List.find (Saree.hasCode c) (sarees st) = Some s ->
          Saree.status s <> "available" ->
          exists st' i,
            processReturn c st = (st', true)
            /\ findIndex (Saree.hasCode c) (sarees st) = Some i
            /\ sarees st' = <[i := Saree.withStatus s "available"]> (sarees st)
            /\ List.find (Saree.hasCode c) (sarees st')
               = Some (Saree.withStatus s "available")
            /\ sales st'
               = List.filter (fun sale => negb (String.eqb (Sale.sareeCode sale) c))
                             (sales st)
            /\ (forall sale, In sale (sales st') -> Sale.sareeCode sale <> c)
            /\ cart st' = cart st)
    /\ (forall clk rnd st1,
          addToCart c st = (st1, true) ->
          exists st3 s,
            processReturn c (completeSaleTransaction clk rnd st1) = (st3, true)
            /\ List.find (Saree.hasCode c) (sarees st3) = Some s
            /\ Saree.status s = "available"
            /\ (forall sale, In sale (sales st3) -> Sale.sareeCode sale <> c)
            /\ processReturn c st3
               = (setNotification (Some (AlreadyAvailable c)) st3, false)).
Proof.
  intros c st. split; [apply processReturn_not_found|].
  split; [apply processReturn_already_available|]. split.
  - intros s Hf Hs.
    destruct (processReturn_success c st s Hf Hs) as (i & Hi & Hret & Hfind).
    eexists _, i. split; [exact Hret|]. split; [exact Hi|].
    cbn [sarees sales cart setNotification setSales setSarees].
    split; [reflexivity|]. split; [exact Hfind|]. split; [reflexivity|].
    split; [apply filter_other_codes | reflexivity].
  - intros clk rnd st1. apply sell_then_return.
Qed.

(** ** Checkout *)

Lemma inCart_In (c : string) (lines : list CartLine.t) :
  inCart c lines = true <-> In c (lineCodes lines).
Proof.
  unfold inCart, lineCodes. rewrite existsb_exists, in_map_iff. split.
  - intros (l & Hin & Hc). exists l. split; [now apply hasCode_eq | exact Hin].
  - intros (l & Hc & Hin). exists l. split; [exact Hin | now apply hasCode_eq].
Qed.

Lemma map_other_codes (c : string) (v : string) (l : list Saree.t) :
  ~ In c (codes l) ->
  map (fun x => if Saree.hasCode c x then Saree.withStatus x v else x) l = l.
Proof.
  induction l as [|x l IH]; simpl; intros H; [reflexivity|].
  destruct (Saree.hasCode c x) eqn:Hx.
  - apply hasCode_eq in Hx. tauto.
  - rewrite IH; [reflexivity | tauto].
Qed.

Lemma insert_first_map (c v : string) (l : list Saree.t) (i : nat) (s : Saree.t) :
  List.NoDup (codes l) ->
  findIndex (Saree.hasCode c) l = Some i ->
  l !! i = Some s ->
  <[i := Saree.withStatus s v]> l
  = map (fun x => if Saree.hasCode c x then Saree.withStatus x v else x) l.
Proof.
  revert i. induction l as [|x l IH]; intros i Hnd Hi Hs; [discriminate|].
  simpl in Hi. apply List.NoDup_cons_iff in Hnd as [Hx Hnd]. simpl.
  destruct (Saree.hasCode c x) eqn:Hc.
  - injection Hi as <-. simpl in Hs. injection Hs as ->. simpl.
    apply hasCode_eq in Hc. rewrite <- Hc in *.
    now rewrite map_other_codes.
  - destruct (findIndex (Saree.hasCode c) l) as [j|] eqn:Hj; [|discriminate].
    injection Hi as <-. simpl in *. now rewrite (IH j).
Qed.

Lemma markSold_map (l : list Saree.t) (line : CartLine.t) :
  List.NoDup (codes l) ->
  markSold l line
  = map (fun x => if Saree.hasCode (Saree.code (CartLine.saree line)) x
                  then Saree.withStatus x "sold" else x) l.
Proof.
  intros Hnd. unfold markSold.
  destruct (findIndex _ l) as [i|] eqn:Hi.
  - destruct (findIndex_Some _ _ _ Hi) as (x & Hx & _). rewrite Hx.
    now apply insert_first_map.
  - apply findIndex_None, existsb_hasCode_false in Hi.
    now rewrite map_other_codes.
Qed.

Lemma fold_markSold_map (lines : list CartLine.t) (l : list Saree.t) :
  List.NoDup (codes l) ->
  fold_left markSold lines l = map (soldIfInCart lines) l.
Proof.
  revert l. induction lines as [|line lines IH]; intros l Hnd; simpl.
  - unfold soldIfInCart. simpl. now rewrite map_id.
  - rewrite IH by now rewrite markSold_codes.
    rewrite markSold_map by exact Hnd. rewrite map_map.
    apply map_ext. intros x. unfold soldIfInCart, inCart. simpl.
    destruct (Saree.hasCode (Saree.code (CartLine.saree line)) x) eqn:Hx.
    + apply hasCode_eq in Hx.
      assert (Hh : Saree.hasCode (Saree.code x) (CartLine.saree line) = true)
        by now apply hasCode_eq.
      cbn [Saree.withStatus Saree.code]. rewrite Hh. simpl.
      now destruct (existsb _ lines).
    + assert (Hh : Saree.hasCode (Saree.code x) (CartLine.saree line) = false).
      { unfold Saree.hasCode in *. now rewrite String.eqb_sym. }
      now rewrite Hh.
Qed.

Lemma imap_cons {A B : Type} (f : nat -> A -> B) (x : A) (l : list A) :
  imap f (x :: l) = f O x :: imap (fun k => f (S k)) l.
Proof. reflexivity. Qed.

Lemma imap_sales (f : nat -> CartLine.t -> Sale.t) (date : string) (pm : payment)
    (lines : list CartLine.t) :
  (forall k line,
      Sale.sareeCode (f k line) = Saree.code (CartLine.saree line)
      /\ Sale.saleDate (f k line) = date
      /\ Sale.paymentMethod (f k line) = pm) ->
  length (imap f lines) = length lines
  /\ map Sale.sareeCode (imap f lines) = lineCodes lines
  /\ (forall sale, In sale (imap f lines) ->
        Sale.saleDate sale = date /\ Sale.paymentMethod sale = pm).
Proof.
  revert f. induction lines as [|line lines IH]; intros f H.
  - simpl. repeat split; intros; contradiction.
  - rewrite imap_cons. destruct (IH (fun k => f (S k))) as (Hlen & Hmap & Hall).
    { intros k l. apply H. }
    destruct (H O line) as (Hc & Hd & Hp).
    split; [simpl; now rewrite Hlen|]. split.
    + unfold lineCodes in *. simpl. now rewrite Hmap, Hc.
    + intros sale [<- | Hin]; [now split | now apply Hall].
Qed.

Lemma imap_saleOf clk rnd pm (lines : list CartLine.t) :
  length (imap (saleOf clk rnd pm) lines) = length lines
  /\ map Sale.sareeCode (imap (saleOf clk rnd pm) lines) = lineCodes lines
  /\ (forall sale, In sale (imap (saleOf clk rnd pm) lines) ->
        Sale.saleDate sale = localeString clk /\ Sale.paymentMethod sale = pm).
Proof. apply imap_sales. intros k line. now repeat split. Qed.

Lemma NoDup_codes_filter (p : Saree.t -> bool) (l : list Saree.t) :
  List.NoDup (codes l) -> List.NoDup (codes (List.filter p l)).
Proof.
  induction l as [|x l IH]; simpl; intros H; [constructor|].
  apply List.NoDup_cons_iff in H as [Hx H].
  destruct (p x); [|now apply IH]. simpl. constructor; [|now apply IH].
  intros Hin. apply Hx. unfold codes in *.
  apply in_map_iff in Hin as (y & Hy & Hin). apply filter_In in Hin as [Hin _].
  rewrite <- Hy. now apply in_map.
Qed.

(** The items the cart refers to are as many as its lines, when the codes of
    the inventory and of the cart are unique and every line is in stock. *)
Lemma cart_items_count (lines : list CartLine.t) (l : list Saree.t) :
  List.NoDup (codes l) ->
  List.NoDup (lineCodes lines) ->
  (forall c, In c (lineCodes lines) -> In c (codes l)) ->
  length (List.filter (fun s => inCart (Saree.code s) lines) l) = length lines.
Proof.
  intros Hl Hc Hin.
  rewrite <- (length_map Saree.code), <- (length_map (fun line => Saree.code (CartLine.saree line)) lines).
  apply Permutation.Permutation_length, Permutation.NoDup_Permutation.
  - now apply NoDup_codes_filter.
  - exact Hc.
  - intros c. fold (lineCodes lines). rewrite <- inCart_In. split.
    + intros H. apply in_map_iff in H as (s & <- & Hs).
      now apply filter_In in Hs as [_ Hs].
    + intros H. apply inCart_In in H as H'. apply Hin in H'.
      unfold codes in H'. apply in_map_iff in H' as (s & <- & Hs).
      apply in_map. apply filter_In. now split.
Qed.

Lemma sold_count (lines : list CartLine.t) (l : list Saree.t) :
  (forall s, In s l -> inCart (Saree.code s) lines = true -> isSold s = false) ->
  length (List.filter isSold (map (soldIfInCart lines) l))
  = length (List.filter isSold l)
    + length (List.filter (fun s => inCart (Saree.code s) lines) l).
Proof.
  induction l as [|x l IH]; intros H; [reflexivity|].
  assert (IH' := IH (fun s Hs => H s (or_intror Hs))). clear IH.
  cbn [map List.filter]. unfold soldIfInCart at 1.
  destruct (inCart (Saree.code x) lines) eqn:Hx.
  - rewrite (H x (or_introl eq_refl) Hx).
    change (isSold (Saree.withStatus x "sold")) with true.
    cbn [length]. rewrite IH'. lia.
  - destruct (isSold x); cbn [length]; rewrite IH'; lia.
Qed.

(** C2.  Checkout on an empty cart returns the state as it is.  For a cart
    of distinct codes, each the code of an available item of an inventory
    with unique codes, checkout puts as many new sales as the cart has lines
    in front of the sales, one per line in cart order, all with the checkout's
    date string and the payment method chosen; it empties the cart; and the
    items it marks sold are exactly the items in the cart, which raises the
    number of sold items by the number of lines. *)
Theorem checkout_batch :
  forall (clk : clock) (rnd : nat -> string) (st : state),
    (cart st = [] -> completeSaleTransaction clk rnd st = st)
    /\ (List.NoDup (codes (sarees st)) ->
        List.NoDup (lineCodes (cart st)) ->
        (forall c, In c (lineCodes (cart st)) ->
                   exists s, In s (sarees st) /\ Saree.code s = c
                             /\ Saree.status s = "available") ->
        let st' := completeSaleTransaction clk rnd st in
        exists newSales,
          sales st' = (newSales ++ sales st)
          /\ length newSales = length (cart st)
          /\ map Sale.sareeCode newSales = lineCodes (cart st)
          /\ (forall sale, In sale newSales ->
                Sale.saleDate sale = localeString clk
                /\ Sale.paymentMethod sale = paymentMethod st)
          /\ cart st' = []
          /\ sarees st' = map (soldIfInCart (cart st)) (sarees st)
          /\ length (List.filter isSold (sarees st'))
             = length (List.filter isSold (sarees st)) + length (cart st)).
Proof.
  intros clk rnd st. split.
  { intros H. unfold completeSaleTransaction. now rewrite H. }
  intros Hnd Hcart Hstock st'.
  destruct (imap_saleOf clk rnd (paymentMethod st) (cart st)) as (Hlen & Hcodes & Hall).
  assert (Hsarees : sarees st' = map (soldIfInCart (cart st)) (sarees st)).
  { subst st'. unfold completeSaleTransaction.
    destruct (cart st) as [|line lines] eqn:Hc.
    - unfold soldIfInCart. simpl. now rewrite map_id.
    - cbn [sarees showNotification setNotification setPaymentMethod setShowPaymentModal
           setCart setSales setSarees].
      now apply fold_markSold_map. }
  destruct (cart st) as [|line lines] eqn:Hc.
  - exists []. subst st'. unfold completeSaleTransaction in *. rewrite Hc in *.
    repeat split; easy.
  - exists (imap (saleOf clk rnd (paymentMethod st)) (line :: lines)).
    rewrite Hsarees. subst st'. unfold completeSaleTransaction. rewrite Hc.
    cbn [sales cart showNotification setNotification setPaymentMethod
         setShowPaymentModal setCart setSales setSarees].
    split; [reflexivity|]. split; [exact Hlen|]. split; [exact Hcodes|].
    split; [exact Hall|]. split; [reflexivity|]. split; [reflexivity|].
    rewrite sold_count.
    + f_equal. apply cart_items_count; [exact Hnd | exact Hcart |].
      intros c Hin. destruct (Hstock c Hin) as (s & Hs & <- & _).
      unfold codes. now apply in_map.
    + intros s Hs Hin. apply inCart_In in Hin.
      destruct (Hstock _ Hin) as (s' & Hs' & Hcode & Hav).
      assert (s' = s) as ->.
      { clear - Hnd Hs Hs' Hcode. revert Hnd Hs Hs' Hcode. generalize (sarees st).
        induction l as [|x l IH]; simpl; intros Hnd Hs Hs' Hcode; [contradiction|].
        apply List.NoDup_cons_iff in Hnd as [Hx Hnd].
        destruct Hs as [-> | Hs], Hs' as [-> | Hs']; try reflexivity.
        - exfalso. apply Hx. rewrite <- Hcode. unfold codes. now apply in_map.
        - exfalso. apply Hx. rewrite Hcode. unfold codes. now apply in_map.
        - now apply IH. }
      unfold isSold. rewrite Hav. reflexivity.
Qed.

(** C2, on a cart of two items in stock. *)
Lemma checkout_batch_witness :
  List.NoDup (codes (sarees sampleCart))
  /\ List.NoDup (lineCodes (cart sampleCart))
  /\ length (cart sampleCart) = 2%nat
  /\ exists newSales,
      sales (completeSaleTransaction sampleClock sampleRnd sampleCart)
      = (newSales ++ sales sampleCart)
      /\ length newSales = 2%nat.
Proof.
  assert (H1 : List.NoDup (codes (sarees sampleCart))).
  { repeat constructor; simpl; intuition discriminate. }
  assert (H2 : List.NoDup (lineCodes (cart sampleCart))).
  { repeat constructor; simpl; intuition discriminate. }
  assert (H3 : forall c, In c (lineCodes (cart sampleCart)) ->
                         exists s, In s (sarees sampleCart) /\ Saree.code s = c
                                   /\ Saree.status s = "available").
  { intros c [<- | [<- | []]].
    - eexists. split; [right; left; reflexivity|]. now split.
    - eexists. split; [left; reflexivity|]. now split. }
  split; [exact H1|]. split; [exact H2|]. split; [reflexivity|].
  destruct (proj2 (checkout_batch sampleClock sampleRnd sampleCart) H1 H2 H3)
    as (newSales & Hs & Hl & _).
  exists newSales. split; [exact Hs | exact Hl].
Defined.

Example checkout_sample :
  let st' := completeSaleTransaction sampleClock sampleRnd sampleCart in
  map Sale.sareeCode (sales st') = ["SAR101"; "SAR102"]
  /\ map Sale.salePrice (sales st') = [Dec 500 0; Dec 450 0]
  /\ map Saree.status (sarees st') = ["sold"; "sold"]
  /\ cart st' = [].
Proof. repeat split. Qed.

(** C3, on the sample stock: sale of SAR101 through the cart, then its
    return, then the return again. *)
Lemma processReturn_spec_witness :
  exists st3 s,
    processReturn "SAR101"
      (completeSaleTransaction sampleClock sampleRnd (fst (addToCart "SAR101" sampleStock)))
    = (st3, true)
    /\ List.find (Saree.hasCode "SAR101") (sarees st3) = Some s
    /\ Saree.status s = "available"
    /\ (forall sale, In sale (sales st3) -> Sale.sareeCode sale <> "SAR101")
    /\ processReturn "SAR101" st3
       = (setNotification (Some (AlreadyAvailable "SAR101")) st3, false).
Proof.
  exact (proj2 (proj2 (proj2 (processReturn_spec "SAR101" sampleStock)))
               sampleClock sampleRnd (fst (addToCart "SAR101" sampleStock)) eq_refl).
Defined.

(** ** Import: the loop against the specification's reading *)

Lemma mem_In (c : string) (l : list string) : mem c l = true <-> In c l.
Proof.
  unfold mem. rewrite existsb_exists. split.
  - intros (x & Hin & Hx). apply String.eqb_eq in Hx. now subst.
  - intros H. exists c. split; [exact H | apply String.eqb_refl].
Qed.

Lemma existsb_hasCode_mem (c : string) (l : list Saree.t) :
  existsb (Saree.hasCode c) l = mem c (codes l).
Proof.
  apply eq_true_iff_eq. now rewrite existsb_hasCode, mem_In.
Qed.

Lemma mem_cons (c d : string) (l : list string) :
  mem c (d :: l) = String.eqb c d || mem c l.
Proof. reflexivity. Qed.

Lemma mem_app (c : string) (l l' : list string) :
  mem c (l ++ l') = mem c l || mem c l'.
Proof. unfold mem. apply existsb_app. Qed.

Lemma codes_app (l l' : list Saree.t) : codes (l ++ l') = (codes l ++ codes l').
Proof. unfold codes. apply map_app. Qed.

Section ImportLoop.

Variable clk : clock.
Variable delimiter : ascii.
Variable cols : columns.
Variable stock : list Saree.t.

Lemma importRow_blank acc i row :
  rowCode delimiter cols row = None ->
  importRow clk delimiter cols stock acc i row = acc.
Proof. intros H. unfold importRow. now rewrite H. Qed.

Lemma importRow_duplicate acc i row c :
  rowCode delimiter cols row = Some c ->
  mem c (codes stock) || mem c (codes (newSarees acc)) = true ->
  importRow clk delimiter cols stock acc i row
  = ImportAcc (newSarees acc) (addedCount acc) (S (duplicateCount acc)).
Proof.
  intros H Hd. unfold importRow. rewrite H, !existsb_hasCode_mem. now rewrite Hd.
Qed.

Lemma importRow_accepted acc i row c :
  rowCode delimiter cols row = Some c ->
  mem c (codes stock) || mem c (codes (newSarees acc)) = false ->
  importRow clk delimiter cols stock acc i row
  = ImportAcc (newSarees acc ++ [rowSaree clk cols i c (parseCSVRow delimiter row)])
              (S (addedCount acc)) (duplicateCount acc).
Proof.
  intros H Hd. unfold importRow. rewrite H, !existsb_hasCode_mem. now rewrite Hd.
Qed.

Lemma rowCodes_cons row rows :
  rowCodes delimiter cols (row :: rows)
  = match rowCode delimiter cols row with
    | Some c => c :: rowCodes delimiter cols rows
    | None => rowCodes delimiter cols rows
    end.
Proof. reflexivity. Qed.

Lemma importLoop_spec rows :
  forall i acc earlier,
    seenAgrees stock earlier acc ->
    let r := importLoop clk delimiter cols stock i rows acc in
    let cs := rowCodes delimiter cols rows in
    codes (newSarees r)
    = (codes (newSarees acc) ++ acceptedRows (codes stock) earlier cs)
    /\ addedCount r = (addedCount acc + length (acceptedRows (codes stock) earlier cs))%nat
    /\ duplicateCount r
       = (duplicateCount acc + length (duplicateRows (codes stock) earlier cs))%nat.
Proof.
  induction rows as [|row rows IH]; intros i acc earlier Hseen; cbn zeta.
  - simpl. rewrite app_nil_r. repeat split; lia.
  - cbn [importLoop]. rewrite rowCodes_cons.
    destruct (rowCode delimiter cols row) as [c|] eqn:Hrow.
    + cbn [acceptedRows duplicateRows]. rewrite (Hseen c).
      destruct (mem c (codes stock) || mem c (codes (newSarees acc))) eqn:Hd.
      * rewrite (importRow_duplicate acc i row c Hrow Hd).
        destruct (IH (S i) (ImportAcc (newSarees acc) (addedCount acc)
                                      (S (duplicateCount acc))) (c :: earlier))
          as (H1 & H2 & H3).
        { intros d. cbn [newSarees]. rewrite mem_cons, <- (Hseen d).
          destruct (String.eqb d c) eqn:Hdc; [|reflexivity].
          apply String.eqb_eq in Hdc. subst d. rewrite (Hseen c), Hd.
          now rewrite !orb_true_r. }
        cbn [newSarees addedCount duplicateCount] in *.
        rewrite H1, H2, H3. cbn [length]. repeat split; lia.
      * rewrite (importRow_accepted acc i row c Hrow Hd).
        destruct (IH (S i)
                    (ImportAcc
                       (newSarees acc ++ [rowSaree clk cols i c (parseCSVRow delimiter row)])
                       (S (addedCount acc)) (duplicateCount acc)) (c :: earlier))
          as (H1 & H2 & H3).
        { intros d. cbn [newSarees]. rewrite codes_app, mem_app, mem_cons.
          cbn [codes map Saree.code rowSaree]. rewrite mem_cons. cbn [mem existsb].
          rewrite orb_false_r.
          rewrite (orb_comm (d =? c)), !orb_assoc, (Hseen d). reflexivity. }
        cbn [newSarees addedCount duplicateCount] in *.
        rewrite H1, H2, H3, codes_app. cbn [codes map Saree.code rowSaree length].
        rewrite <- app_assoc. repeat split; lia.
    + rewrite (importRow_blank acc i row Hrow). now apply IH.
Qed.

End ImportLoop.

Lemma count_rows_split (stockCodes earlier cs : list string) (c : string) :
  count_occ string_dec cs c
  = (count_occ string_dec (acceptedRows stockCodes earlier cs) c
     + count_occ string_dec (duplicateRows stockCodes earlier cs) c)%nat.
Proof.
  revert earlier. induction cs as [|d cs IH]; intros earlier; [reflexivity|].
  cbn [acceptedRows duplicateRows].
  destruct (mem d stockCodes || mem d earlier); cbn [count_occ]; rewrite (IH (d :: earlier));
    destruct (string_dec d c); lia.
Qed.

Lemma count_accepted (stockCodes earlier cs : list string) (c : string) :
  count_occ string_dec (acceptedRows stockCodes earlier cs) c
  = if mem c stockCodes || mem c earlier then O else Nat.min 1 (count_occ string_dec cs c).
Proof.
  revert earlier. induction cs as [|d cs IH]; intros earlier.
  - simpl. now destruct (mem c stockCodes || mem c earlier).
  - cbn [acceptedRows]. destruct (string_dec d c) as [->|Hdc].
    + destruct (mem c stockCodes || mem c earlier) eqn:Hseen.
      * rewrite IH, mem_cons, String.eqb_refl. cbn [orb]. now rewrite orb_true_r.
      * cbn [count_occ]. destruct (string_dec c c); [|contradiction].
        rewrite IH, mem_cons, String.eqb_refl. cbn [orb]. rewrite orb_true_r. lia.
    + assert (Hm : mem c (d :: earlier) = mem c earlier).
      { rewrite mem_cons. apply not_eq_sym, String.eqb_neq in Hdc. now rewrite Hdc. }
      destruct (mem d stockCodes || mem d earlier); cbn [count_occ];
        try (destruct (string_dec d c); [contradiction|]); now rewrite IH, Hm.
Qed.

Lemma accepted_or_seen (stockCodes earlier cs : list string) (c : string) :
  In c cs -> mem c stockCodes || mem c earlier = true \/ In c (acceptedRows stockCodes earlier cs).
Proof.
  revert earlier. induction cs as [|d cs IH]; intros earlier Hin; [contradiction|].
  cbn [acceptedRows]. destruct Hin as [-> | Hin].
  - destruct (mem c stockCodes || mem c earlier); [now left | right; now left].
  - destruct (IH (d :: earlier) Hin) as [H | H].
    + rewrite mem_cons in H. destruct (String.eqb c d) eqn:Hcd.
      * apply String.eqb_eq in Hcd. subst d.
        destruct (mem c stockCodes || mem c earlier); [now left | right; now left].
      * now left.
    + destruct (mem d stockCodes || mem d earlier); right; [exact H | now right].
Qed.

Lemma acceptedRows_sublist (stockCodes earlier cs : list string) :
  sublist (acceptedRows stockCodes earlier cs) cs.
Proof.
  revert earlier. induction cs as [|d cs IH]; intros earlier; cbn [acceptedRows].
  - constructor.
  - destruct (mem d stockCodes || mem d earlier); [apply sublist_cons | apply sublist_skip]; apply IH.
Qed.

Lemma importBatch_spec clk delimiter cols stock rows :
  let acc := importBatch clk delimiter cols stock rows in
  let cs := rowCodes delimiter cols rows in
  codes (newSarees acc) = acceptedRows (codes stock) [] cs
  /\ addedCount acc = length (acceptedRows (codes stock) [] cs)
  /\ duplicateCount acc = length (duplicateRows (codes stock) [] cs).
Proof.
  apply (importLoop_spec clk delimiter cols stock rows 1 (ImportAcc [] 0 0) []).
  intros c. reflexivity.
Qed.

Lemma importBatch_added clk delimiter cols stock rows :
  let acc := importBatch clk delimiter cols stock rows in
  addedCount acc = length (newSarees acc)
  /\ codes (newSarees acc)
     = acceptedRows (codes stock) [] (rowCodes delimiter cols rows)
  /\ List.NoDup (codes (newSarees acc)).
Proof.
  intros acc.
  destruct (importBatch_spec clk delimiter cols stock rows) as (Hcodes & Hadd & _).
  fold acc in Hcodes, Hadd. split.
  { rewrite Hadd, <- Hcodes. unfold codes. now rewrite length_map. }
  split; [exact Hcodes|].
  apply (NoDup_count_occ string_dec). intros c. rewrite Hcodes, count_accepted.
  destruct (mem c (codes stock) || mem c []); lia.
Qed.

Lemma importLoop_app clk delimiter cols stock rows row :
  forall i acc,
    importLoop clk delimiter cols stock i (rows ++ [row]) acc
    = importRow clk delimiter cols stock
                (importLoop clk delimiter cols stock i rows acc)
                (i + length rows) row.
Proof.
  induction rows as [|r rows IH]; intros i acc; simpl.
  - now rewrite Nat.add_0_r.
  - rewrite IH. f_equal. lia.
Qed.

(** C4.  The import loop against the specification's reading of a duplicate
    (a row whose code is in stock or appeared earlier in the batch):
    [duplicateCount] is the number of such rows, and the items added carry
    the codes of the other rows.  No code is added twice.  A code that is not
    in stock and stands in exactly two rows is counted once as a duplicate and
    added once; a code in stock is never added, and each of its rows is
    counted.  A further row whose code is in stock or in an earlier row adds
    one to [duplicateCount] and no item. *)
Theorem import_dedup :
  forall (clk : clock) (delimiter : ascii) (cols : columns) (stock : list Saree.t)
         (rows : list string),
    let acc := importBatch clk delimiter cols stock rows in
    let cs := rowCodes delimiter cols rows in
    let dups := duplicateRows (codes stock) [] cs in
    duplicateCount acc = length dups
    /\ addedCount acc = length (newSarees acc)
    /\ codes (newSarees acc) = acceptedRows (codes stock) [] cs
    /\ (forall c, count_occ string_dec cs c
                  = (count_occ string_dec (codes (newSarees acc)) c
                     + count_occ string_dec dups c)%nat)
    /\ List.NoDup (codes (newSarees acc))
    /\ (forall c, ~ In c (codes stock) ->
                  count_occ string_dec cs c = 2%nat ->
                  count_occ string_dec dups c = 1%nat
                  /\ count_occ string_dec (codes (newSarees acc)) c = 1%nat)
    /\ (forall c, In c (codes stock) ->
                  count_occ string_dec (codes (newSarees acc)) c = 0%nat
                  /\ count_occ string_dec dups c = count_occ string_dec cs c)
    /\ (forall row c,
          rowCode delimiter cols row = Some c ->
          In c (codes stock) \/ In c cs ->
          let acc' := importBatch clk delimiter cols stock (rows ++ [row]) in
          duplicateCount acc' = S (duplicateCount acc)
          /\ newSarees acc' = newSarees acc).
Proof.
  intros clk delimiter cols stock rows acc cs dups.
  destruct (importBatch_spec clk delimiter cols stock rows) as (Hcodes & Hadd & Hdup).
  fold acc cs in Hcodes, Hadd, Hdup. fold dups in Hdup.
  assert (Hcount : forall c, count_occ string_dec (codes (newSarees acc)) c
                             = if mem c (codes stock) then O
                               else Nat.min 1 (count_occ string_dec cs c)).
  { intros c. rewrite Hcodes, count_accepted. cbn [mem existsb].
    now rewrite orb_false_r. }
  assert (Hsplit : forall c, count_occ string_dec cs c
                             = (count_occ string_dec (codes (newSarees acc)) c
                                + count_occ string_dec dups c)%nat).
  { intros c. rewrite Hcodes. apply count_rows_split. }
  destruct (importBatch_added clk delimiter cols stock rows) as (Hlen & _ & Hnd).
  split; [exact Hdup|]. split; [exact Hlen|].
  split; [exact Hcodes|]. split; [exact Hsplit|]. split; [exact Hnd|].
  split; [|split].
  - intros c Hstock Htwo. specialize (Hsplit c). specialize (Hcount c).
    destruct (mem c (codes stock)) eqn:Hm; [apply mem_In in Hm; contradiction|].
    rewrite Htwo in *. cbn [Nat.min] in Hcount. lia.
  - intros c Hstock. specialize (Hsplit c). specialize (Hcount c).
    apply mem_In in Hstock. rewrite Hstock in Hcount. lia.
  - intros row c Hrow Hseen acc'. subst acc'. unfold importBatch.
    rewrite importLoop_app. fold (importBatch clk delimiter cols stock rows). fold acc.
    rewrite (importRow_duplicate clk delimiter cols stock acc _ row c Hrow).
    + now split.
    + apply orb_true_iff. destruct Hseen as [H | H]; [left; now apply mem_In|].
      destruct (accepted_or_seen (codes stock) [] cs c H) as [H' | H'].
      * cbn [mem existsb] in H'. rewrite orb_false_r in H'. now left.
      * right. apply mem_In. now rewrite Hcodes.
Qed.

(** C4, on a file with a code in two rows and a code that is in stock. *)
Lemma import_dedup_witness :
  let acc := importBatch sampleClock comma codeOnly (sarees sampleStock)
                         ["A1,100"; "a1,200"; "SAR101,5"] in
  rowCodes comma codeOnly ["A1,100"; "a1,200"; "SAR101,5"] = ["A1"; "A1"; "SAR101"]
  /\ In "SAR101" (codes (sarees sampleStock))
  /\ ~ In "A1" (codes (sarees sampleStock))
  /\ duplicateCount acc = 2%nat
  /\ count_occ string_dec (codes (newSarees acc)) "A1" = 1%nat
  /\ count_occ string_dec (codes (newSarees acc)) "SAR101" = 0%nat.
Proof.
  pose proof (import_dedup sampleClock comma codeOnly (sarees sampleStock)
                           ["A1,100"; "a1,200"; "SAR101,5"])
    as (Hdup & _ & _ & _ & _ & Htwo & Hstock & _).
  assert (Hin : In "SAR101" (codes (sarees sampleStock))) by (right; now left).
  assert (Hout : ~ In "A1" (codes (sarees sampleStock)))
    by (simpl; intuition discriminate).
  split; [reflexivity|]. split; [exact Hin|]. split; [exact Hout|].
  split; [exact Hdup|]. split.
  - exact (proj2 (Htwo "A1" Hout eq_refl)).
  - exact (proj1 (Hstock "SAR101" Hin)).
Defined.

Example import_duplicates_file :
  let st' := handleFileUpload sampleClock duplicateCsv sampleStock in
  codes (sarees st') = ["A1"; "SAR102"; "SAR101"]
  /\ notification st' = Some (Notif "Imported 1 items. (2 duplicates skipped)" success).
Proof. split; reflexivity. Qed.

(** ** Import: where the batch goes *)

Lemma handleFileUpload_sarees clk text st cols :
  findColumns (readHeaders (detectDelimiter text) (hd EmptyString (split newline text)))
  = Some cols ->
  sarees (handleFileUpload clk text st)
  = (newSarees (importBatch clk (detectDelimiter text) cols (sarees st)
                            (tl (split newline text)))
     ++ sarees st).
Proof.
  intros Hcols. unfold handleFileUpload, onload. rewrite Hcols. cbn zeta.
  pose proof (importBatch_added clk (detectDelimiter text) cols (sarees st)
                                (tl (split newline text))) as (Hadd & _).
  destruct (0 <? addedCount _)%nat eqn:Hpos; [reflexivity|].
  apply Nat.ltb_ge in Hpos.
  destruct (newSarees _); [reflexivity | simpl in Hadd; lia].
Qed.

(** C5, as stated, fails: the rows A then B are not reversed; the item of
    row A stands before the item of row B. *)
Lemma import_order_counterexample :
  let st' := handleFileUpload sampleClock orderCsv sampleStock in
  rowCodes comma codeOnly ["A"; "B"] = ["A"; "B"]
  /\ codes (sarees st') = (["A"; "B"] ++ codes (sarees sampleStock))
  /\ codes (sarees st') <> (rev ["A"; "B"] ++ codes (sarees sampleStock)).
Proof.
  split; [reflexivity|]. split; [reflexivity|]. discriminate.
Qed.

(** C5, amended.  When the file has a code column, the inventory after the
    import is the accepted rows' items as one block, followed by the
    inventory as it was, in its order.  Inside the block the items stand in
    the order of their rows in the file (not reversed): their codes are a
    subsequence of the rows' codes, and each code is there once. *)
Theorem import_prepends_batch :
  forall (clk : clock) (text : string) (st : state) (cols : columns),
    let rows := split newline text in
    let delimiter := detectDelimiter text in
    findColumns (readHeaders delimiter (hd EmptyString rows)) = Some cols ->
    let batch := newSarees (importBatch clk delimiter cols (sarees st) (tl rows)) in
    sarees (handleFileUpload clk text st) = (batch ++ sarees st)
    /\ codes batch = acceptedRows (codes (sarees st)) [] (rowCodes delimiter cols (tl rows))
    /\ sublist (codes batch) (rowCodes delimiter cols (tl rows))
    /\ List.NoDup (codes batch).
Proof.
  intros clk text st cols rows delimiter Hcols batch.
  pose proof (importBatch_added clk delimiter cols (sarees st) (tl rows))
    as (_ & Hcodes & Hnd).
  split; [now apply handleFileUpload_sarees|]. split; [exact Hcodes|].
  split; [|exact Hnd]. subst batch. rewrite Hcodes. apply acceptedRows_sublist.
Qed.

(** C5 amended, on a file of two rows. *)
Lemma import_prepends_batch_witness :
  findColumns (readHeaders (detectDelimiter orderCsv)
                           (hd EmptyString (split newline orderCsv)))
  = Some codeOnly
  /\ sarees (handleFileUpload sampleClock orderCsv sampleStock)
     = (newSarees (importBatch sampleClock (detectDelimiter orderCsv) codeOnly
                               (sarees sampleStock) (tl (split newline orderCsv)))
        ++ sarees sampleStock).
Proof.
  split; [reflexivity|].
  exact (proj1 (import_prepends_batch sampleClock orderCsv sampleStock codeOnly eq_refl)).
Defined.

(** ** Import: the status of a row *)

Lemma rowStatus_no_column cols values :
  statusIdx cols = None -> rowStatus cols values = "available".
Proof. intros H. unfold rowStatus, cellOr. rewrite H. reflexivity. Qed.

Lemma rowStatus_empty_cell cols values i :
  statusIdx cols = Some i ->
  values !! i = None \/ values !! i = Some EmptyString ->
  rowStatus cols values = "available".
Proof.
  intros H [Hv | Hv]; unfold rowStatus, cellOr; rewrite H, Hv; reflexivity.
Qed.

Lemma rowStatus_cases cols values :
  rowStatus cols values = "available"
  \/ (includes (rowStatus cols values) "sold" = true
      /\ exists i v, statusIdx cols = Some i /\ values !! i = Some v
                     /\ rowStatus cols values = trim (toLowerCase v)).
Proof.
  unfold rowStatus, cellOr.
  destruct (statusIdx cols) as [i|]; [|left; reflexivity].
  destruct (values !! i) as [v|] eqn:Hv; [|left; reflexivity].
  destruct (JsString.truthy v); [|left; reflexivity].
  destruct (includes (trim (toLowerCase v)) "sold") eqn:Hs; [|left; reflexivity].
  right. cbn [negb]. split; [exact Hs|]. exists i, v. now repeat split.
Qed.

(** C6, at the failing input: the row with status text [Sold - floor 2]
    becomes an item whose status is the text [sold - floor 2], a third value
    beside [available] and [sold]; the cart's test for [sold] lets that
    item be sold. *)
Theorem import_status_text :
  let st' := handleFileUpload sampleClock statusCsv initialState in
  map (fun s => (Saree.code s, Saree.status s)) (sarees st')
  = [("CODE_A", "available"); ("CODE_B", "sold - floor 2")]
  /\ "sold - floor 2" <> "sold"
  /\ snd (addToCart "CODE_B" st') = true.
Proof. split; [reflexivity|]. split; [discriminate | reflexivity]. Qed.


(** ** Export: what the row parser reads back *)

Lemma append_cons (c : ascii) (s t : string) : String c s +:+ t = String c (s +:+ t).
Proof. reflexivity. Qed.

Lemma append_nil_l (t : string) : EmptyString +:+ t = t.
Proof. reflexivity. Qed.

Lemma append_nil_r (s : string) : s +:+ EmptyString = s.
Proof.
  induction s as [|c s IH]; [reflexivity|]. now rewrite append_cons, IH.
Qed.

Lemma append_assoc (a b c : string) : (a +:+ b) +:+ c = a +:+ (b +:+ c).
Proof.
  induction a as [|x a IH]; [reflexivity|]. now rewrite !append_cons, IH.
Qed.

(** Inside quotes: the escaped text, then the closing quote. *)
Lemma parseCells_close (d : ascii) (w : string) :
  forall cell rest result,
    startsWithQuote rest = false ->
    parseCells d (doubleQuotes w +:+ String dquote rest) cell true result
    = parseCells d rest (cell +:+ w) false result.
Proof.
  induction w as [|a w IH]; intros cell rest result Hrest.
  - cbn [doubleQuotes]. rewrite append_nil_l, append_nil_r. cbn [parseCells].
    rewrite Ascii.eqb_refl.
    destruct rest as [|c r]; [reflexivity|]. cbn [startsWithQuote] in Hrest.
    now rewrite Hrest.
  - cbn [doubleQuotes]. destruct (Ascii.eqb a dquote) eqn:Ha.
    + apply Ascii.eqb_eq in Ha. subst a. rewrite !append_cons. cbn [parseCells].
      rewrite !Ascii.eqb_refl, IH by exact Hrest. now rewrite append_assoc.
    + rewrite append_cons. cbn [parseCells].
      rewrite Ha, andb_false_r, IH by exact Hrest. now rewrite append_assoc.
Qed.

Lemma parseCells_quote_quote (d : ascii) (rest cell : string) (inQuotes : bool)
    (result : list string) :
  parseCells d (String dquote (String dquote rest)) cell inQuotes result
  = parseCells d rest (cell +:+ String dquote EmptyString) inQuotes result.
Proof. cbn [parseCells]. now rewrite !Ascii.eqb_refl. Qed.

Lemma parseCells_quote_other (d c : ascii) (rest cell : string) (inQuotes : bool)
    (result : list string) :
  Ascii.eqb c dquote = false ->
  parseCells d (String dquote (String c rest)) cell inQuotes result
  = parseCells d (String c rest) cell (negb inQuotes) result.
Proof.
  intros Hc. change (parseCells d (String dquote (String c rest)) cell inQuotes result)
    with (if Ascii.eqb dquote dquote
          then if Ascii.eqb c dquote
               then parseCells d rest (cell +:+ String dquote EmptyString) inQuotes result
               else parseCells d (String c rest) cell (negb inQuotes) result
          else if Ascii.eqb dquote d && negb inQuotes
               then parseCells d (String c rest) EmptyString inQuotes
                               (result ++ [trim cell])
               else parseCells d (String c rest) (cell +:+ String dquote EmptyString)
                               inQuotes result).
  now rewrite Ascii.eqb_refl, Hc.
Qed.

Lemma parseCells_delimiter (d : ascii) (rest cell : string) (result : list string) :
  Ascii.eqb d dquote = false ->
  parseCells d (String d rest) cell false result
  = parseCells d rest EmptyString false (result ++ [trim cell]).
Proof.
  intros Hd. cbn [parseCells]. now rewrite Hd, Ascii.eqb_refl.
Qed.

(** A whole cell, from its opening quote on. *)
Lemma parseCells_open (d : ascii) (w : string) :
  forall cell rest result,
    JsString.truthy (removeQuotes w) = true ->
    startsWithQuote rest = false ->
    parseCells d (String dquote (doubleQuotes w +:+ String dquote rest)) cell false result
    = parseCells d rest (cell +:+ w) false result.
Proof.
  induction w as [|a w IH]; intros cell rest result Hw Hrest; [discriminate|].
  cbn [doubleQuotes]. destruct (Ascii.eqb a dquote) eqn:Ha.
  - assert (Hw' : JsString.truthy (removeQuotes w) = true).
    { unfold removeQuotes in *. cbn [filterChars] in Hw. now rewrite Ha in Hw. }
    apply Ascii.eqb_eq in Ha. subst a. rewrite !append_cons.
    rewrite parseCells_quote_quote, IH by assumption. now rewrite append_assoc.
  - rewrite append_cons, parseCells_quote_other by exact Ha.
    cbn [parseCells negb]. rewrite Ha, andb_false_r.
    rewrite parseCells_close by exact Hrest. now rewrite append_assoc.
Qed.

Lemma join_cons (sep x y : string) (l : list string) :
  join sep (x :: y :: l) = x +:+ sep +:+ join sep (y :: l).
Proof. reflexivity. Qed.

Lemma plainText_spec (s : string) :
  plainText s = true ->
  trim s = s /\ JsString.truthy (removeQuotes s) = true /\ includesChar s newline = false.
Proof.
  unfold plainText. rewrite !andb_true_iff, negb_true_iff, String.eqb_eq. tauto.
Qed.

Lemma parseCells_row (vs : list string) :
  forall result,
    vs <> [] ->
    Forall (fun v => plainText v = true) vs ->
    parseCells comma (join "," (map quoteText vs)) EmptyString false result
    = (result ++ vs).
Proof.
  induction vs as [|v vs IH]; intros result Hne Hall; [contradiction|].
  apply Forall_cons_iff in Hall as [Hv Hall].
  apply plainText_spec in Hv as (Htrim & Hq & _).
  destruct vs as [|v2 vs].
  - cbn [map join String.concat]. unfold quoteText. rewrite append_cons.
    rewrite parseCells_open by (assumption || reflexivity).
    rewrite append_nil_l. cbn [parseCells]. now rewrite Htrim.
  - cbn [map]. rewrite join_cons. unfold quoteText at 1.
    rewrite append_assoc, !append_cons, !append_nil_l.
    rewrite parseCells_open by (assumption || reflexivity).
    rewrite append_nil_l. change ","%char with comma.
    rewrite parseCells_delimiter by reflexivity.
    rewrite Htrim. change (quoteText v2 :: map quoteText vs) with (map quoteText (v2 :: vs)).
    rewrite IH by (assumption || discriminate).
    now rewrite <- app_assoc.
Qed.

(** ** Export: lines of the table *)

Lemma includesChar_app (a b : string) (c : ascii) :
  includesChar (a +:+ b) c = includesChar a c || includesChar b c.
Proof.
  induction a as [|x a IH]; [reflexivity|].
  rewrite append_cons. cbn [includesChar]. now rewrite IH, orb_assoc.
Qed.

Lemma includesChar_doubleQuotes (s : string) :
  includesChar (doubleQuotes s) newline = includesChar s newline.
Proof.
  induction s as [|x s IH]; [reflexivity|]. cbn [doubleQuotes].
  destruct (Ascii.eqb x dquote) eqn:Hx.
  - apply Ascii.eqb_eq in Hx. subst x. cbn [includesChar]. now rewrite IH.
  - cbn [includesChar]. now rewrite IH.
Qed.

Lemma quoteText_one_line (s : string) :
  includesChar s newline = false -> includesChar (quoteText s) newline = false.
Proof.
  intros H. unfold quoteText. rewrite includesChar_app. cbn [includesChar].
  now rewrite includesChar_doubleQuotes, H.
Qed.

Lemma join_one_line (l : list string) :
  Forall (fun s => includesChar s newline = false) l ->
  includesChar (join "," l) newline = false.
Proof.
  induction 1 as [|x l Hx Hl IH]; [reflexivity|].
  destruct l as [|y l]; [exact Hx|].
  rewrite join_cons, !includesChar_app, Hx, IH. reflexivity.
Qed.

Lemma split_line (l : string) :
  includesChar l newline = false -> split newline l = [l].
Proof.
  induction l as [|c l IH]; [reflexivity|]. cbn [includesChar split].
  intros H. apply orb_false_iff in H as [Hc Hl]. now rewrite Hc, IH.
Qed.

Lemma split_append (l r : string) :
  includesChar l newline = false ->
  split newline (l +:+ String newline r) = l :: split newline r.
Proof.
  induction l as [|c l IH].
  - intros _. rewrite append_nil_l. cbn [split]. now rewrite Ascii.eqb_refl.
  - cbn [includesChar]. intros H. apply orb_false_iff in H as [Hc Hl].
    rewrite append_cons. cbn [split]. now rewrite Hc, IH.
Qed.

Lemma split_join (ls : list string) :
  ls <> [] ->
  Forall (fun s => includesChar s newline = false) ls ->
  split newline (join (String newline EmptyString) ls) = ls.
Proof.
  intros Hne Hall. induction Hall as [|l ls Hl Hls IH]; [contradiction|].
  destruct ls as [|l2 ls]; [now apply split_line|].
  rewrite join_cons, append_cons, append_nil_l, split_append by exact Hl.
  now rewrite IH.
Qed.

(** ** Export: the text of a number is plain *)

Lemma allChars_app (p : ascii -> bool) (a b : string) :
  allChars p (a +:+ b) = allChars p a && allChars p b.
Proof.
  induction a as [|x a IH]; [reflexivity|].
  rewrite append_cons. cbn [allChars]. now rewrite IH, andb_assoc.
Qed.

Lemma allChars_weaken (p q : ascii -> bool) (s : string) :
  (forall c, p c = true -> q c = true) -> allChars p s = true -> allChars q s = true.
Proof.
  intros Hpq. induction s as [|x s IH]; [reflexivity|]. cbn [allChars].
  rewrite !andb_true_iff. intros [Hx Hs]. split; [now apply Hpq | now apply IH].
Qed.

Lemma isDigit_noSpaceQuote (c : ascii) : isDigit c = true -> noSpaceQuote c = true.
Proof.
  destruct c as [[] [] [] [] [] [] [] []]; intros H; try reflexivity; discriminate H.
Qed.

Lemma digits_of_uint (d : Decimal.uint) :
  allChars isDigit (NilEmpty.string_of_uint d) = true.
Proof. induction d; simpl; auto. Qed.

Lemma digits_of_uint_zero (d : Decimal.uint) :
  allChars isDigit (NilZero.string_of_uint d) = true
  /\ JsString.truthy (NilZero.string_of_uint d) = true.
Proof.
  destruct d; simpl; try (split; [apply digits_of_uint | reflexivity]).
  now split.
Qed.

Lemma padZeros_digits (p : nat) (s : string) :
  allChars isDigit s = true -> allChars isDigit (padZeros p s) = true.
Proof.
  intros Hs. induction p as [|p IH]; cbn [padZeros].
  - now destruct (0 <=? String.length s)%nat.
  - destruct (S p <=? String.length s)%nat; [exact Hs|]. cbn [allChars]. exact IH.
Qed.

Lemma truthy_app (a b : string) :
  JsString.truthy (a +:+ b) = JsString.truthy a || JsString.truthy b.
Proof. destruct a; [reflexivity|]. now rewrite append_cons. Qed.

Lemma toString_chars (n : number) :
  allChars noSpaceQuote (toString n) = true /\ JsString.truthy (toString n) = true.
Proof.
  destruct n as [|[]|m p]; try (split; reflexivity).
  unfold toString. destruct (normalize m p) as [m' p'].
  assert (Hsign : allChars noSpaceQuote (if (m' <? 0)%Z then "-" else EmptyString) = true)
    by now destruct (m' <? 0)%Z.
  pose proof (digits_of_uint_zero (N.to_uint (Z.to_N (Z.abs m') / 10 ^ N.of_nat p')))
    as [Hip Hne]. fold (NToString (Z.to_N (Z.abs m') / 10 ^ N.of_nat p')) in Hip, Hne.
  apply (allChars_weaken _ _ _ isDigit_noSpaceQuote) in Hip.
  destruct p' as [|p'].
  - rewrite allChars_app, truthy_app, Hsign, Hip, Hne. now rewrite orb_true_r.
  - pose proof (digits_of_uint_zero
                  (N.to_uint (Z.to_N (Z.abs m') mod 10 ^ N.of_nat (S p')))) as [Hfp _].
    fold (NToString (Z.to_N (Z.abs m') mod 10 ^ N.of_nat (S p'))) in Hfp.
    apply (padZeros_digits (S p')), (allChars_weaken _ _ _ isDigit_noSpaceQuote) in Hfp.
    rewrite !allChars_app, !truthy_app, Hsign, Hip, Hne, Hfp.
    now rewrite !orb_true_r.
Qed.

Lemma trimEnd_no_space (s : string) :
  allChars (fun c => negb (isWhiteSpace c)) s = true -> trimEnd s = s.
Proof.
  induction s as [|c s IH]; [reflexivity|]. cbn [allChars trimEnd].
  rewrite andb_true_iff, negb_true_iff. intros [Hc Hs]. rewrite (IH Hs), Hc.
  now destruct s.
Qed.

Lemma plain_of_chars (s : string) :
  allChars noSpaceQuote s = true -> JsString.truthy s = true -> plainText s = true.
Proof.
  intros Hall Hne. unfold plainText.
  assert (Hsp : allChars (fun c => negb (isWhiteSpace c)) s = true).
  { revert Hall. apply allChars_weaken. intros c. unfold noSpaceQuote.
    now rewrite andb_true_iff. }
  assert (Htrim : trim s = s).
  { unfold trim. rewrite (trimEnd_no_space s Hsp). destruct s as [|c s]; [reflexivity|].
    cbn [allChars] in Hsp. apply andb_true_iff in Hsp as [Hc _].
    apply negb_true_iff in Hc. cbn [trimStart]. now rewrite Hc. }
  assert (Hq : removeQuotes s = s).
  { clear - Hall. induction s as [|c s IH]; [reflexivity|]. cbn [allChars] in Hall.
    apply andb_true_iff in Hall as [Hc Hs]. unfold noSpaceQuote in Hc.
    apply andb_true_iff in Hc as [_ Hc]. unfold removeQuotes in *.
    cbn [filterChars]. now rewrite Hc, (IH Hs). }
  assert (Hnl : includesChar s newline = false).
  { clear - Hsp. induction s as [|c s IH]; [reflexivity|]. cbn [allChars] in Hsp.
    apply andb_true_iff in Hsp as [Hc Hs]. cbn [includesChar]. rewrite (IH Hs).
    destruct (Ascii.eqb c newline) eqn:Hcn; [|reflexivity].
    apply Ascii.eqb_eq in Hcn. subst c. discriminate Hc. }
  now rewrite Htrim, String.eqb_refl, Hq, Hne, Hnl.
Qed.

Lemma toString_plain (n : number) : plainText (toString n) = true.
Proof. destruct (toString_chars n). now apply plain_of_chars. Qed.

(** ** Export: the table read back *)

Lemma plainObject_texts (obj : object) :
  plainObject obj = true ->
  obj <> [] /\ Forall (fun v => plainText v = true) (cellTexts obj).
Proof.
  unfold plainObject. rewrite andb_true_iff, negb_true_iff, Nat.eqb_neq.
  intros [Hlen Hall]. split; [now destruct obj|].
  unfold cellTexts. rewrite Forall_map. rewrite forallb_forall in Hall.
  apply List.Forall_forall. intros kv Hin. specialize (Hall kv Hin).
  destruct (snd kv) as [s|n]; [exact Hall | apply toString_plain].
Qed.

Lemma csvRow_texts (obj : object) :
  csvRow obj = join "," (map quoteText (cellTexts obj)).
Proof. unfold csvRow, cellTexts, csvCell. now rewrite map_map. Qed.

Lemma parseCSVRow_csvRow (obj : object) :
  plainObject obj = true -> parseCSVRow comma (csvRow obj) = cellTexts obj.
Proof.
  intros H. apply plainObject_texts in H as [Hne Hall].
  unfold parseCSVRow. rewrite csvRow_texts, parseCells_row; [reflexivity| |exact Hall].
  unfold cellTexts. now destruct obj.
Qed.

Lemma csvRow_one_line (obj : object) :
  plainObject obj = true -> includesChar (csvRow obj) newline = false.
Proof.
  intros H. apply plainObject_texts in H as [_ Hall].
  rewrite csvRow_texts. apply join_one_line. rewrite Forall_map.
  eapply Forall_impl; [exact Hall|]. intros v Hv. cbn beta.
  apply quoteText_one_line. now apply plainText_spec in Hv.
Qed.

Lemma table_roundtrip (first : object) (data : list object) :
  parseCSVRow comma (csvHeader first) = map fst first ->
  includesChar (csvHeader first) newline = false ->
  Forall (fun o => plainObject o = true) data ->
  map (parseCSVRow comma) (split newline (csvContent first data))
  = map fst first :: map cellTexts data.
Proof.
  intros Hhead Hline Hall. unfold csvContent.
  rewrite split_join; [| discriminate |].
  - cbn [map]. rewrite Hhead. f_equal. rewrite map_map.
    apply map_ext_Forall. eapply Forall_impl; [exact Hall|].
    intros o Ho. now apply parseCSVRow_csvRow.
  - constructor; [exact Hline|]. rewrite Forall_map.
    eapply Forall_impl; [exact Hall|]. intros o Ho. now apply csvRow_one_line.
Qed.

Lemma sareeObject_header (s : Saree.t) :
  parseCSVRow comma (csvHeader (sareeObject s)) = map fst (sareeObject s)
  /\ includesChar (csvHeader (sareeObject s)) newline = false.
Proof. unfold sareeObject. destruct (Saree.type s); split; reflexivity. Qed.

Lemma saleObject_header (s : Sale.t) :
  parseCSVRow comma (csvHeader (saleObject s)) = map fst (saleObject s)
  /\ includesChar (csvHeader (saleObject s)) newline = false.
Proof. split; reflexivity. Qed.

(** The import's own row parser is not the re-parse of the specification:
    it reads the rows of an exported table back when the text fields are
    plain, and misreads, for one, a field that is a single quote. *)
Lemma parseCSVRow_reads_plain_export (first : Saree.t) (items : list Saree.t) :
  Forall (fun s => plainObject (sareeObject s) = true) items ->
  map (parseCSVRow comma)
      (split newline (csvContent (sareeObject first) (map sareeObject items)))
  = map fst (sareeObject first) :: map (fun s => cellTexts (sareeObject s)) items.
Proof.
  intros Hplain. destruct (sareeObject_header first) as [Hh Hl].
  rewrite (table_roundtrip _ _ Hh Hl), map_map; [reflexivity|].
  now rewrite Forall_map.
Qed.

Example parseCSVRow_misreads_quote_cell :
  parseCSVRow comma (csvRow [("shopName", VStr (String dquote EmptyString))])
  = [String dquote (String dquote EmptyString)].
Proof. reflexivity. Qed.

(** ** Export: the table re-parsed *)

Lemma reparse_quoted_body (w : string) :
  forall cell rest row table,
    reparse (doubleQuotes w +:+ String dquote rest) Quoted cell row table
    = reparse rest QuoteSeen (cell +:+ w) row table.
Proof.
  induction w as [|a w IH]; intros cell rest row table.
  - cbn [doubleQuotes]. rewrite append_nil_l, append_nil_r. cbn [reparse].
    now rewrite Ascii.eqb_refl.
  - cbn [doubleQuotes]. destruct (Ascii.eqb a dquote) eqn:Ha.
    + apply Ascii.eqb_eq in Ha. subst a. rewrite !append_cons. cbn [reparse].
      rewrite !Ascii.eqb_refl, IH. now rewrite append_assoc.
    + rewrite append_cons. cbn [reparse]. rewrite Ha, IH. now rewrite append_assoc.
Qed.

Lemma reparse_cell (v rest : string) (row : list string) (table : list (list string)) :
  reparse (quoteText v +:+ rest) Bare EmptyString row table
  = reparse rest QuoteSeen v row table.
Proof.
  unfold quoteText. rewrite append_assoc, !append_cons, append_nil_l.
  cbn [reparse JsString.truthy negb]. rewrite Ascii.eqb_refl. cbn [andb].
  now rewrite reparse_quoted_body, append_nil_l.
Qed.

Lemma reparse_after_cell_comma (rest cell : string) (row : list string)
    (table : list (list string)) :
  reparse (String comma rest) QuoteSeen cell row table
  = reparse rest Bare EmptyString (row ++ [cell]) table.
Proof. reflexivity. Qed.

Lemma reparse_after_cell_newline (rest cell : string) (row : list string)
    (table : list (list string)) :
  reparse (String newline rest) QuoteSeen cell row table
  = reparse rest Bare EmptyString [] (table ++ [row ++ [cell]]).
Proof. reflexivity. Qed.

Lemma reparse_row (vs : list string) :
  vs <> [] ->
  forall row table,
    reparse (join "," (map quoteText vs)) Bare EmptyString row table
    = (table ++ [row ++ vs])
    /\ forall rest,
        reparse (join "," (map quoteText vs) +:+ String newline rest)
                Bare EmptyString row table
        = reparse rest Bare EmptyString [] (table ++ [row ++ vs]).
Proof.
  induction vs as [|v vs IH]; intros Hne row table; [contradiction|].
  destruct vs as [|v2 vs].
  - cbn [map join String.concat]. split.
    + rewrite <- (append_nil_r (quoteText v)), reparse_cell. reflexivity.
    + intros rest. now rewrite reparse_cell, reparse_after_cell_newline.
  - cbn [map]. rewrite join_cons.
    change (quoteText v2 :: map quoteText vs) with (map quoteText (v2 :: vs)).
    destruct (IH ltac:(discriminate) (row ++ [v]) table) as [Hend Hnl].
    rewrite <- !app_assoc in Hend, Hnl. split.
    + rewrite reparse_cell. change ("," +:+ ?x) with (String comma x).
      now rewrite reparse_after_cell_comma.
    + intros rest. rewrite !append_assoc, reparse_cell.
      change ("," +:+ ?x) with (String comma x).
      now rewrite reparse_after_cell_comma.
Qed.

Lemma reparse_name (w : string) :
  allChars nameChar w = true ->
  forall cell rest row table,
    reparse (w +:+ rest) Bare cell row table
    = reparse rest Bare (cell +:+ w) row table.
Proof.
  induction w as [|c w IH]; intros Hw cell rest row table.
  - now rewrite append_nil_l, append_nil_r.
  - cbn [allChars] in Hw. apply andb_true_iff in Hw as [Hc Hw].
    unfold nameChar in Hc. rewrite !andb_true_iff, !negb_true_iff in Hc.
    destruct Hc as [[Hq Hcomma] Hnl].
    rewrite append_cons. cbn [reparse]. rewrite Hq, Hcomma, Hnl. cbn [andb].
    rewrite IH by exact Hw. now rewrite append_assoc.
Qed.

Lemma reparse_names (keys : list string) :
  keys <> [] ->
  Forall (fun k => allChars nameChar k = true) keys ->
  forall row table rest,
    reparse (join "," keys +:+ String newline rest) Bare EmptyString row table
    = reparse rest Bare EmptyString [] (table ++ [(row ++ keys)]).
Proof.
  induction keys as [|k keys IH]; intros Hne Hall row table rest; [contradiction|].
  apply Forall_cons_iff in Hall as [Hk Hall].
  destruct keys as [|k2 keys].
  - cbn [join String.concat]. rewrite reparse_name, append_nil_l by exact Hk.
    reflexivity.
  - rewrite join_cons, !append_assoc, reparse_name, append_nil_l by exact Hk.
    change ("," +:+ ?x) with (String comma x).
    change (reparse (String comma ?x) Bare k row table)
      with (reparse x Bare EmptyString (row ++ [k]) table).
    rewrite IH by (assumption || discriminate). now rewrite <- app_assoc.
Qed.

Lemma reparse_rows (data : list object) :
  data <> [] ->
  Forall (fun o => o <> []) data ->
  forall table,
    reparse (join (String newline EmptyString) (map csvRow data)) Bare EmptyString [] table
    = (table ++ map cellTexts data).
Proof.
  induction data as [|o data IH]; intros Hne Hall table; [contradiction|].
  apply Forall_cons_iff in Hall as [Ho Hall].
  assert (Hvs : cellTexts o <> []) by (unfold cellTexts; now destruct o).
  destruct (reparse_row (cellTexts o) Hvs [] table) as [Hend Hnl].
  destruct data as [|o2 data].
  - cbn [map join String.concat]. now rewrite csvRow_texts, Hend.
  - cbn [map]. rewrite join_cons, append_cons, append_nil_l, csvRow_texts, Hnl.
    change (csvRow o2 :: map csvRow data) with (map csvRow (o2 :: data)).
    rewrite IH by (assumption || discriminate). cbn [map app].
    now rewrite <- app_assoc.
Qed.

Lemma reparseTable_csvContent (first : object) (data : list object) :
  first <> [] ->
  Forall (fun k => allChars nameChar k = true) (map fst first) ->
  data <> [] ->
  Forall (fun o => o <> []) data ->
  reparseTable (csvContent first data) = map fst first :: map cellTexts data.
Proof.
  intros Hfirst Hkeys Hne Hall. unfold reparseTable, csvContent, csvHeader.
  destruct data as [|o data]; [contradiction|].
  change (map csvRow (o :: data)) with (csvRow o :: map csvRow data).
  rewrite join_cons, append_cons, append_nil_l.
  rewrite reparse_names; [| now destruct first | exact Hkeys].
  change (csvRow o :: map csvRow data) with (map csvRow (o :: data)).
  now rewrite reparse_rows.
Qed.

Lemma sareeObject_names (s : Saree.t) :
  sareeObject s <> []
  /\ Forall (fun k => allChars nameChar k = true) (map fst (sareeObject s)).
Proof.
  unfold sareeObject. destruct (Saree.type s); split; try discriminate;
    repeat constructor.
Qed.

Lemma saleObject_names (s : Sale.t) :
  saleObject s <> []
  /\ Forall (fun k => allChars nameChar k = true) (map fst (saleObject s)).
Proof. split; [discriminate | repeat constructor]. Qed.

(** ** Export: digits and their value *)

Lemma digitsValue_uint (d : Decimal.uint) :
  forall acc, digitsValue acc (NilEmpty.string_of_uint d) = uintValue acc d.
Proof.
  induction d; intros acc; cbn [NilEmpty.string_of_uint digitsValue uintValue];
    try reflexivity; rewrite IHd; f_equal;
    match goal with |- context [N.of_nat ?k] =>
      let v := eval vm_compute in (N.of_nat k) in change (N.of_nat k) with v
    end; lia.
Qed.

Lemma uintValue_acc (d : Decimal.uint) :
  forall acc : positive, uintValue (N.pos acc) d = N.pos (Pos.of_uint_acc d acc).
Proof.
  induction d; intros acc; cbn [uintValue Pos.of_uint_acc]; try reflexivity;
    rewrite <- IHd; f_equal; lia.
Qed.

Lemma uintValue_of_uint (d : Decimal.uint) : uintValue 0 d = N.of_uint d.
Proof.
  unfold N.of_uint.
  induction d; cbn [uintValue Pos.of_uint]; try reflexivity; try exact IHd;
    rewrite <- uintValue_acc; reflexivity.
Qed.

Lemma digitsValue_NToString (n : N) : digitsValue 0 (NToString n) = n.
Proof.
  unfold NToString, NilZero.string_of_uint.
  rewrite <- (DecimalN.Unsigned.of_to n) at 2. rewrite <- uintValue_of_uint.
  destruct (N.to_uint n) eqn:E; try apply digitsValue_uint. reflexivity.
Qed.

Lemma digit_facts (c : ascii) (r : string) :
  isDigit c = true ->
  isWhiteSpace c = false
  /\ takeSign (String c r) = (false, String c r)
  /\ String.prefix "Infinity" (String c r) = false
  /\ (isDigit c || Ascii.eqb c "."%char || Ascii.eqb c "-"%char) = true.
Proof.
  destruct c as [[] [] [] [] [] [] [] []]; intros H; try discriminate H;
    repeat split; reflexivity.
Qed.


Lemma takeDigits_digits (s : string) :
  allChars isDigit s = true -> takeDigits s = (s, EmptyString).
Proof.
  induction s as [|c r IH]; [reflexivity|].
  cbn. intros H. apply andb_true_iff in H. destruct H as [Hc Hr].
  rewrite Hc, (IH Hr). reflexivity.
Qed.

(** ** Export: a number printed and read again *)

Lemma normalize_value (p : nat) :
  forall m m1 p1,
    normalize m p = (m1, p1) ->
    (m1 * 10 ^ Z.of_nat p = m * 10 ^ Z.of_nat p1)%Z.
Proof.
  induction p as [|p IH]; intros m m1 p1 H; cbn [normalize] in H.
  - injection H as <- <-. reflexivity.
  - destruct (m mod 10 =? 0)%Z eqn:E.
    + apply IH in H. apply Z.eqb_eq in E.
      rewrite Nat2Z.inj_succ, Z.pow_succ_r by lia.
      rewrite (Z.div_mod m 10) at 1 by lia. rewrite E, Z.add_0_r.
      rewrite <- Z.mul_assoc, <- H. ring.
    + injection H as <- <-. reflexivity.
Qed.

Lemma digitsValue_acc (s : string) :
  forall acc,
    digitsValue acc s = (acc * 10 ^ N.of_nat (String.length s) + digitsValue 0 s)%N.
Proof.
  induction s as [|c s IH]; intros acc; cbn [digitsValue String.length].
  - cbn. lia.
  - rewrite IH. rewrite (IH (10 * 0 + _)%N).
    rewrite Nat2N.inj_succ, N.pow_succ_r'. ring.
Qed.

Lemma digitsValue_app (a b : string) :
  forall acc, digitsValue acc (a +:+ b) = digitsValue (digitsValue acc a) b.
Proof.
  induction a as [|c a IH]; intros acc; [reflexivity|].
  rewrite append_cons. cbn [digitsValue]. apply IH.
Qed.

Lemma length_app_string (a b : string) :
  String.length (a +:+ b) = String.length a + String.length b.
Proof.
  induction a as [|c a IH]; [reflexivity|].
  rewrite append_cons. cbn [String.length]. now rewrite IH.
Qed.

Lemma padZeros_value (p : nat) (s : string) :
  String.length s <= p ->
  String.length (padZeros p s) = p /\ digitsValue 0 (padZeros p s) = digitsValue 0 s.
Proof.
  induction p as [|p IH]; intros Hl; cbn [padZeros].
  - destruct (0 <=? String.length s)%nat; split; try reflexivity; lia.
  - destruct (Nat.leb_spec (S p) (String.length s)) as [H|H].
    + split; [lia|reflexivity].
    + destruct IH as [IH1 IH2]; [lia|]. cbn [String.length digitsValue].
      split; [now rewrite IH1 | exact IH2].
Qed.

Lemma uintValue_ge (d : Decimal.uint) :
  forall acc, (acc * 10 ^ N.of_nat (Decimal.nb_digits d) <= uintValue acc d)%N.
Proof.
  induction d; intros acc; cbn [uintValue Decimal.nb_digits];
    [cbn; lia | ..];
    (eapply N.le_trans; [|apply IHd]);
    rewrite Nat2N.inj_succ, N.pow_succ_r';
    rewrite N.mul_assoc; apply N.mul_le_mono_r; lia.
Qed.

Lemma length_string_of_uint (d : Decimal.uint) :
  String.length (NilEmpty.string_of_uint d) = Decimal.nb_digits d.
Proof. induction d; cbn; congruence. Qed.

(** The digits of a number below [10^p] are at most [p]. *)
Lemma length_NToString (n : N) (p : nat) :
  (n < 10 ^ N.of_nat p)%N -> 0 < p -> String.length (NToString n) <= p.
Proof.
  intros Hn Hp. destruct n as [|q]; [cbn; lia|].
  unfold NToString. set (d := N.to_uint (N.pos q)).
  assert (Hnorm : Decimal.unorm d = d).
  { unfold d. rewrite <- (DecimalN.Unsigned.to_of (N.to_uint (N.pos q))).
    now rewrite DecimalN.Unsigned.of_to. }
  assert (Hval : uintValue 0 d = N.pos q).
  { unfold d. rewrite uintValue_of_uint. apply DecimalN.Unsigned.of_to. }
  assert (Hnz : d <> Decimal.zero) by apply DecimalPos.Unsigned.to_uint_nonzero.
  assert (Hhead : Decimal.nzhead d = d).
  { unfold Decimal.unorm in Hnorm. destruct (Decimal.nzhead d) eqn:E; congruence. }
  assert (Hlow : (10 ^ N.of_nat (Decimal.nb_digits d - 1) <= N.pos q)%N).
  { rewrite <- Hval. pose proof (DecimalFacts.nzhead_nonzero d) as Hno.
    rewrite Hhead in Hno. clearbody d. clear - Hno Hval.
    destruct d as [|d|d|d|d|d|d|d|d|d|d];
      [discriminate Hval | exfalso; eapply Hno; reflexivity | ..];
      cbn [uintValue Decimal.nb_digits];
      rewrite Nat.sub_succ, Nat.sub_0_r;
      (eapply N.le_trans; [|apply uintValue_ge]);
      (rewrite <- (N.mul_1_l (10 ^ _)) at 1; apply N.mul_le_mono_r; lia). }
  assert (Hlen : String.length (NilZero.string_of_uint d) = Decimal.nb_digits d).
  { clearbody d. destruct d; try apply length_string_of_uint. discriminate Hval. }
  rewrite Hlen.
  destruct (Nat.le_gt_cases (Decimal.nb_digits d) p) as [|Hgt]; [assumption|].
  exfalso. assert (10 ^ N.of_nat p <= 10 ^ N.of_nat (Decimal.nb_digits d - 1))%N.
  { apply N.pow_le_mono_r; lia. }
  lia.
Qed.

Lemma takeDigits_app (d rest : string) :
  allChars isDigit d = true ->
  match rest with String c _ => isDigit c = false | EmptyString => True end ->
  takeDigits (d +:+ rest) = (d, rest).
Proof.
  intros Hd Hrest. induction d as [|c d IH].
  - rewrite append_nil_l. destruct rest as [|c r]; [reflexivity|].
    cbn [takeDigits]. now rewrite Hrest.
  - cbn [allChars] in Hd. apply andb_true_iff in Hd. destruct Hd as [Hc Hd].
    rewrite append_cons. cbn [takeDigits]. rewrite Hc, (IH Hd). reflexivity.
Qed.

(** [parseFloat] on the text of a decimal: a sign, digits, and digits after
    a point when [fp] is not empty. *)
Lemma parseFloat_decimal (neg : bool) (ip fp : string) :
  allChars isDigit ip = true -> JsString.truthy ip = true ->
  allChars isDigit fp = true ->
  parseFloat ((if neg then "-" else EmptyString)
              +:+ ip
              +:+ (if JsString.truthy fp then "." +:+ fp else EmptyString))
  = let m := Z.of_N (digitsValue 0 (ip +:+ fp)) in
    let m := if neg then (- m)%Z else m in
    match fp with
    | EmptyString => Dec (m * 1) 0
    | _ => Dec m (String.length fp)
    end.
Proof.
  intros Hip Hne Hfp. destruct ip as [|c ip']; [discriminate|].
  pose proof Hip as Hc. cbn [allChars] in Hc. apply andb_true_iff in Hc.
  destruct Hc as [Hc _].
  set (tail := if JsString.truthy fp then "." +:+ fp else EmptyString).
  destruct (digit_facts c (ip' +:+ tail) Hc) as (Hw & Hs & Hp & _).
  assert (Hsign : takeSign (trimStart ((if neg then "-" else EmptyString)
                                       +:+ String c ip' +:+ tail))
                  = (neg, String c (ip' +:+ tail))).
  { destruct neg.
    - rewrite !append_cons, append_nil_l. reflexivity.
    - rewrite append_nil_l, append_cons. cbn [trimStart]. rewrite Hw. exact Hs. }
  unfold parseFloat. rewrite Hsign, Hp. rewrite <- append_cons.
  assert (Htail : match tail with String x _ => isDigit x = false | EmptyString => True end).
  { unfold tail. destruct (JsString.truthy fp); [reflexivity|exact I]. }
  rewrite (takeDigits_app (String c ip') tail Hip Htail).
  unfold tail. destruct fp as [|x fp'].
  - cbn [JsString.truthy]. rewrite append_nil_r. cbn [append].
    cbn [takeExponent String.length Z.of_nat Z.sub Z.opp Z.add Z.leb Z.compare Z.pow Z.pow_pos
         Pos.iter]. reflexivity.
  - cbn [JsString.truthy]. rewrite append_cons, append_nil_l.
    rewrite (takeDigits_digits _ Hfp). rewrite append_cons.
    cbn [takeExponent]. 
    assert (He : (0 <=? 0 - Z.of_nat (String.length (String x fp')))%Z = false).
    { apply Z.leb_gt. cbn [String.length]. lia. }
    rewrite He. f_equal. lia.
Qed.

(** The text of a number reads as that number. *)
Lemma toString_readsAs (n : number) : readsAs (toString n) n.
Proof.
  unfold readsAs. destruct n as [|[]|m p]; try exact I; try reflexivity.
  unfold toString. destruct (normalize m p) as [m1 p1] eqn:Hnorm.
  apply normalize_value in Hnorm.
  set (a := Z.to_N (Z.abs m1)).
  assert (Hm1 : (if (m1 <? 0)%Z then (- Z.of_N a)%Z else Z.of_N a) = m1).
  { unfold a. rewrite Z2N.id by lia. destruct (Z.ltb_spec m1 0); lia. }
  destruct (digits_of_uint_zero (N.to_uint (a / 10 ^ N.of_nat p1))) as [Hip Hne].
  fold (NToString (a / 10 ^ N.of_nat p1)) in Hip, Hne.
  destruct p1 as [|p1'].
  - pose proof (parseFloat_decimal (m1 <? 0)%Z (NToString (a / 10 ^ N.of_nat 0))
                  EmptyString Hip Hne eq_refl) as H.
    cbn [JsString.truthy] in H. rewrite !append_nil_r in H.
    replace (if (m1 <? 0)%Z then "-" else EmptyString)
      with (if (m1 <? 0)%Z then "-" else "") by reflexivity.
    rewrite H. cbn zeta. rewrite digitsValue_NToString.
    cbn [N.of_nat N.pow]. rewrite N.div_1_r, Hm1. cbn [sameNumber].
    rewrite Z.mul_1_r. exact Hnorm.
  - set (p1 := S p1') in *. set (r := (a mod 10 ^ N.of_nat p1)%N).
    assert (Hr : (r < 10 ^ N.of_nat p1)%N).
    { apply N.mod_lt. apply N.pow_nonzero. lia. }
    destruct (digits_of_uint_zero (N.to_uint r)) as [Hfp _]. fold (NToString r) in Hfp.
    destruct (padZeros_value p1 (NToString r)) as [Hlen Hval].
    { apply length_NToString; [exact Hr | unfold p1; lia]. }
    assert (Hfpt : JsString.truthy (padZeros p1 (NToString r)) = true).
    { destruct (padZeros p1 (NToString r)); [discriminate Hlen | reflexivity]. }
    pose proof (parseFloat_decimal (m1 <? 0)%Z (NToString (a / 10 ^ N.of_nat p1))
                  (padZeros p1 (NToString r)) Hip Hne (padZeros_digits p1 _ Hfp)) as H.
    rewrite Hfpt in H.
    replace (if (m1 <? 0)%Z then "-" else EmptyString)
      with (if (m1 <? 0)%Z then "-" else "") by reflexivity.
    rewrite <- !append_assoc in H. rewrite <- !append_assoc.
    rewrite H. cbn zeta.
    rewrite digitsValue_app, digitsValue_acc, Hlen, Hval, !digitsValue_NToString.
    assert (Ha : (a / 10 ^ N.of_nat p1 * 10 ^ N.of_nat p1 + r = a)%N).
    { unfold r. rewrite N.mul_comm. symmetry. apply N.div_mod'. }
    rewrite Ha, Hm1.
    destruct (padZeros p1 (NToString r)) eqn:E; [discriminate Hfpt|].
    exact Hnorm.
Qed.
(** ** Export: the table against the specification's *)

Lemma quotesDoubled_doubleQuotes (v : string) : quotesDoubled v = doubleQuotes v.
Proof.
  induction v as [|c v IH]; [reflexivity|].
  cbn [quotesDoubled doubleQuotes]. now rewrite IH.
Qed.

Lemma quotedValue_quoteText (v : string) : quotedValue v = quoteText v.
Proof.
  unfold quotedValue, quoteText. now rewrite quotesDoubled_doubleQuotes, append_cons.
Qed.

Lemma quotedTable_csvContent (first : object) (data : list object) :
  quotedTable (map fst first) (map cellTexts data) = csvContent first data.
Proof.
  unfold quotedTable, csvContent, csvHeader. do 2 f_equal.
  rewrite map_map. apply map_ext. intros obj.
  rewrite csvRow_texts. now rewrite (map_ext _ _ quotedValue_quoteText).
Qed.

Lemma sareeObject_row (s : Saree.t) : sareeRow s (cellTexts (sareeObject s)).
Proof.
  exists (toString (Saree.cp s)), (toString (Saree.mrp s)), (toString (Saree.asp60 s)).
  split; [|repeat split; apply toString_readsAs].
  unfold sareeObject, cellTexts. destruct (Saree.type s); reflexivity.
Qed.

Lemma sareeObject_fields (s : Saree.t) : map fst (sareeObject s) = sareeNames s.
Proof. unfold sareeObject, sareeNames. destruct (Saree.type s); reflexivity. Qed.

Lemma saleObject_row (s : Sale.t) : saleRow s (cellTexts (saleObject s)).
Proof.
  exists (toString (Sale.salePrice s)). split; [|apply toString_readsAs].
  unfold saleObject, cellTexts. cbn. now destruct (Sale.paymentMethod s).
Qed.

Lemma Forall2_map_row {A : Type} (R : A -> list string -> Prop) (f : A -> list string)
    (l : list A) :
  (forall x, R x (f x)) -> Forall2 R l (map f l).
Proof. intros H. induction l; cbn; constructor; auto. Qed.

Lemma exportInventory_table clk st first rest :
  sarees st = first :: rest ->
  exists d,
    snd (exportInventory clk st) = Some d
    /\ content d
       = quotedTable (sareeNames first)
           (map (fun s => cellTexts (sareeObject s)) (sarees st))
    /\ reparseTable (content d)
       = sareeNames first :: map (fun s => cellTexts (sareeObject s)) (sarees st).
Proof.
  intros Hst.
  assert (Hdata : map sareeObject (sarees st)
                  = sareeObject first :: map sareeObject rest) by now rewrite Hst.
  unfold exportInventory, exportToCSV. rewrite Hdata. cbn [snd].
  eexists. split; [reflexivity|]. cbn [content]. rewrite <- Hdata.
  rewrite <- sareeObject_fields, <- (map_map sareeObject cellTexts). split.
  - symmetry. apply quotedTable_csvContent.
  - destruct (sareeObject_names first) as [Hne Hkeys].
    apply reparseTable_csvContent; try assumption.
    + rewrite Hdata. discriminate.
    + rewrite Forall_map. apply List.Forall_forall. intros s _.
      apply sareeObject_names.
Qed.

Lemma exportSales_table clk st first rest :
  sales st = first :: rest ->
  exists d,
    snd (exportSales clk st) = Some d
    /\ content d
       = quotedTable saleNames (map (fun s => cellTexts (saleObject s)) (sales st))
    /\ reparseTable (content d)
       = saleNames :: map (fun s => cellTexts (saleObject s)) (sales st).
Proof.
  intros Hst.
  assert (Hdata : map saleObject (sales st)
                  = saleObject first :: map saleObject rest) by now rewrite Hst.
  unfold exportSales, exportToCSV. rewrite Hdata. cbn [snd].
  eexists. split; [reflexivity|]. cbn [content]. rewrite <- Hdata.
  change saleNames with (map fst (saleObject first)).
  rewrite <- (map_map saleObject cellTexts). split.
  - symmetry. apply quotedTable_csvContent.
  - destruct (saleObject_names first) as [Hne Hkeys].
    apply reparseTable_csvContent; try assumption.
    + rewrite Hdata. discriminate.
    + rewrite Forall_map. apply List.Forall_forall. intros s _.
      apply saleObject_names.
Qed.

(** C7.  For an inventory (or a sales log) with a record, [exportToCSV]
    produces the table that the specification describes: the row of the
    field names of the first record, then one row per record in the
    collection's order, every value between quotes with its quotes doubled.
    Re-parsing the table by reversing the quote-doubling gives back the field
    names and, row by row, the original field values of the records: each
    text field exactly as the record has it, whatever commas and quotes it
    holds, and for each numeric field a text that reads as the number of the
    record. *)
Theorem export_roundtrip :
  forall (clk : clock) (st : state),
    (forall first rest,
        sarees st = first :: rest ->
        exists d rows,
          snd (exportInventory clk st) = Some d
          /\ Forall2 sareeRow (sarees st) rows
          /\ content d = quotedTable (sareeNames first) rows
          /\ reparseTable (content d) = sareeNames first :: rows)
    /\ (forall first rest,
          sales st = first :: rest ->
          exists d rows,
            snd (exportSales clk st) = Some d
            /\ Forall2 saleRow (sales st) rows
            /\ content d = quotedTable saleNames rows
            /\ reparseTable (content d) = saleNames :: rows).
Proof.
  intros clk st. split; intros first rest Hst.
  - destruct (exportInventory_table clk st first rest Hst) as (d & Hd & Hshape & Hback).
    exists d, (map (fun s => cellTexts (sareeObject s)) (sarees st)).
    split; [exact Hd|]. split; [|split; assumption].
    apply Forall2_map_row. exact sareeObject_row.
  - destruct (exportSales_table clk st first rest Hst) as (d & Hd & Hshape & Hback).
    exists d, (map (fun s => cellTexts (saleObject s)) (sales st)).
    split; [exact Hd|]. split; [|split; assumption].
    apply Forall2_map_row. exact saleObject_row.
Qed.

(** C7, on an inventory with commas and quotes in its text fields, and with
    a field that is a single quote. *)
Lemma export_roundtrip_witness :
  let st := handleAddSaree sampleClock quoteForm
              (handleAddSaree sampleClock quotedForm sampleStock) in
  exists d rows first,
    hd_error (sarees st) = Some first
    /\ snd (exportInventory sampleClock st) = Some d
    /\ Forall2 sareeRow (sarees st) rows
    /\ reparseTable (content d) = sareeNames first :: rows.
Proof.
  intros st.
  destruct (proj1 (export_roundtrip sampleClock st) _ _ eq_refl)
    as (d & rows & Hd & Hrows & _ & Hr).
  exists d, rows. eexists. split; [reflexivity|]. split; [exact Hd|].
  split; [exact Hrows | exact Hr].
Defined.

(** The shop name with a comma and quotes comes back as it was typed. *)
Example export_roundtrip_shop_name :
  let st := handleAddSaree sampleClock quotedForm initialState in
  option_map (fun d => map (fun row => nth 2 row EmptyString) (reparseTable (content d)))
             (snd (exportInventory sampleClock st))
  = Some ["shopName"; "Sharma, " +:+ String dquote "Silk" +:+ String dquote " House"].
Proof. reflexivity. Qed.

Example export_quoted_row :
  let st := handleAddSaree sampleClock quotedForm initialState in
  option_map (fun d => nth 1 (split newline (content d)) EmptyString)
             (snd (exportInventory sampleClock st))
  = Some (join ","
            (map quoteText
               ["1700000000000"; "Q7";
                "Sharma, " +:+ String dquote "Silk" +:+ String dquote " House";
                "SH,01"; "Silk"; "300"; "520.75"; "400"; "available";
                "2023-11-14T22:13:20.000Z"])).
Proof. reflexivity. Qed.

(** ** Start-up *)

Section StartupProperties.

Variable JSON_parse : string -> option stored.

Lemma request_no_fault w : faults w = [] -> request w = (false, w).
Proof. intros H. unfold request. now rewrite H. Qed.

Lemma getDBItem_ok key w :
  faults w = [] -> getDBItem key w = (Resolved (db w !! key), w).
Proof. intros H. unfold getDBItem. now rewrite request_no_fault. Qed.

Lemma setDBItem_ok key value w :
  faults w = [] ->
  setDBItem key value w
  = (Resolved tt, World (<[key := value]> (db w)) (localStorage w) []).
Proof. intros H. unfold setDBItem. rewrite request_no_fault by exact H. now rewrite H. Qed.

(** What [migrate] does for a key that is decodable, in a store without
    faults: it resolves, the legacy mechanism is as it was, and the durable
    store changes under that key at most. *)
Lemma migrate_resolves key saved w :
  faults w = [] ->
  saved = db w !! key ->
  decodable JSON_parse w key ->
  exists r w',
    migrate JSON_parse key saved w = (Resolved r, w')
    /\ faults w' = []
    /\ localStorage w' = localStorage w
    /\ (forall k, k <> key -> db w' !! k = db w !! k)
    /\ db w' !! key = r
    /\ (forall v, saved = Some v -> r = Some v)
    /\ (forall v, saved = None -> legacyHolds JSON_parse w key v -> r = Some v).
Proof.
  intros Hf Hsaved Hdec. unfold migrate. destruct saved as [v0|].
  - exists (Some v0), w. unfold ret. repeat split; easy.
  - unfold bind, getItem.
    destruct (localStorage w !! key) as [text|] eqn:Hls.
    + destruct (JsString.truthy text) eqn:Ht.
      * destruct (Hdec text (eq_sym Hsaved) Hls Ht) as (value & Hv).
        unfold parseJSON. rewrite Hv. unfold ret at 1.
        rewrite setDBItem_ok by exact Hf. unfold ret.
        eexists _, _. split; [reflexivity|]. cbn [faults localStorage db].
        split; [reflexivity|]. split; [reflexivity|]. split.
        { intros k Hk. now rewrite lookup_insert_ne. }
        split; [now rewrite lookup_insert_eq|]. split; [discriminate|].
        intros v _ (text' & Hls' & _ & Hv'). congruence.
      * exists None, w. unfold ret. repeat split; try easy.
        intros v _ (text' & Hls' & Ht' & _). congruence.
    + exists None, w. unfold ret. repeat split; try easy.
      intros v _ (text' & Hls' & _ & _). congruence.
Qed.

Lemma legacyHolds_decodable w key value :
  legacyHolds JSON_parse w key value -> decodable JSON_parse w key.
Proof.
  intros (text & Hls & _ & Hv) text' _ Hls' _. exists value. congruence.
Qed.

Lemma loadData_resolves st w :
  faults w = [] ->
  decodable JSON_parse w "saree_inventory" ->
  decodable JSON_parse w "saree_sales" ->
  exists rs rl w',
    loadData JSON_parse st w = (setIsDBLoaded true (useSales rl (useSarees rs st)), w')
    /\ faults w' = []
    /\ db w' !! "saree_inventory" = rs
    /\ db w' !! "saree_sales" = rl
    /\ (forall v, db w !! "saree_inventory" = None ->
                  legacyHolds JSON_parse w "saree_inventory" v -> rs = Some v)
    /\ (forall v, db w !! "saree_sales" = None ->
                  legacyHolds JSON_parse w "saree_sales" v -> rl = Some v).
Proof.
  intros Hf Hinv Hsales. unfold loadData, loadDataTry, bind.
  rewrite !getDBItem_ok by exact Hf.
  destruct (migrate_resolves "saree_inventory" (db w !! "saree_inventory") w
              Hf eq_refl Hinv)
    as (rs & w1 & Hm1 & Hf1 & Hls1 & Hother1 & Hkey1 & _ & Hleg1).
  rewrite Hm1.
  assert (Hdb1 : db w1 !! "saree_sales" = db w !! "saree_sales")
    by now apply Hother1.
  destruct (migrate_resolves "saree_sales" (db w !! "saree_sales") w1 Hf1)
    as (rl & w2 & Hm2 & Hf2 & Hls2 & Hother2 & Hkey2 & _ & Hleg2).
  { now rewrite Hdb1. }
  { intros text Hnone Htext. apply Hsales; congruence. }
  rewrite Hm2. unfold ret. exists rs, rl, w2. split; [reflexivity|].
  split; [exact Hf2|]. split; [now rewrite Hother2|]. split; [exact Hkey2|]. split.
  - intros v Hnone Hv. now apply Hleg1.
  - intros v Hnone (text & Htext & Ht & Hv). apply Hleg2; [exact Hnone|].
    exists text. repeat split; congruence.
Qed.

Lemma saveEffect_ok st w :
  faults w = [] ->
  isDBLoaded st = true ->
  db (saveEffect st w)
  = <["saree_sales" := SalesLog (sales st)]>
      (<["saree_inventory" := Inventory (sarees st)]> (db w)).
Proof.
  intros Hf Hl. unfold saveEffect. rewrite Hl.
  rewrite (setDBItem_ok "saree_inventory" _ w Hf). cbn [snd].
  now rewrite setDBItem_ok.
Qed.

End StartupProperties.

(** C9, as stated, fails.  With the durable store empty and a serialized
    inventory of three items in the legacy mechanism, the inventory in memory
    after the start-up is empty, and so is the durable store's, when the
    legacy mechanism also holds a sales text that [JSON.parse] rejects, or
    when the durable store rejects the write of the migrated inventory: the
    [catch] of [loadData] skips both state updates, and the save effect then
    stores the empty collections. *)
Lemma startup_load_failure_counterexample :
  (db brokenSalesWorld !! "saree_inventory" = None
   /\ legacyHolds sampleParse brokenSalesWorld "saree_inventory" (Inventory threeItems)
   /\ sarees (fst (startup sampleParse initialState brokenSalesWorld)) = []
   /\ db (snd (startup sampleParse initialState brokenSalesWorld)) !! "saree_inventory"
      = Some (Inventory []))
  /\ (db faultyWorld !! "saree_inventory" = None
      /\ legacyHolds sampleParse faultyWorld "saree_inventory" (Inventory threeItems)
      /\ sarees (fst (startup sampleParse initialState faultyWorld)) = []
      /\ db (snd (startup sampleParse initialState faultyWorld)) !! "saree_inventory"
         = Some (Inventory [])).
Proof.
  split.
  - split; [reflexivity|]. split; [|split; reflexivity].
    exists legacyText. repeat split.
  - split; [reflexivity|]. split; [|split; reflexivity].
    exists legacyText. repeat split.
Qed.

(** C9, amended.  In a start-up during which the durable store answers
    every request and the text the legacy mechanism may hold for the other
    key decodes: when the durable store lacks the inventory key and the legacy
    mechanism holds a serialized inventory, the inventory in memory after
    [loadData] is that inventory, the durable store holds it under the same
    key, and both still hold once the save effect has run; the same goes for
    the sales key. *)
Theorem startup_migrates_legacy :
  forall (JSON_parse : string -> option stored) (st : state) (w : world),
    faults w = [] ->
    (forall items,
        db w !! "saree_inventory" = None ->
        legacyHolds JSON_parse w "saree_inventory" (Inventory items) ->
        decodable JSON_parse w "saree_sales" ->
        sarees (fst (loadData JSON_parse st w)) = items
        /\ db (snd (loadData JSON_parse st w)) !! "saree_inventory" = Some (Inventory items)
        /\ sarees (fst (startup JSON_parse st w)) = items
        /\ db (snd (startup JSON_parse st w)) !! "saree_inventory" = Some (Inventory items)
        /\ isDBLoaded (fst (startup JSON_parse st w)) = true)
    /\ (forall lines,
          db w !! "saree_sales" = None ->
          legacyHolds JSON_parse w "saree_sales" (SalesLog lines) ->
          decodable JSON_parse w "saree_inventory" ->
          sales (fst (loadData JSON_parse st w)) = lines
          /\ db (snd (loadData JSON_parse st w)) !! "saree_sales" = Some (SalesLog lines)
          /\ sales (fst (startup JSON_parse st w)) = lines
          /\ db (snd (startup JSON_parse st w)) !! "saree_sales" = Some (SalesLog lines)
          /\ isDBLoaded (fst (startup JSON_parse st w)) = true).
Proof.
  intros JSON_parse st w Hf. split.
  - intros items Hnone Hleg Hsales.
    destruct (loadData_resolves JSON_parse st w Hf
                (legacyHolds_decodable JSON_parse w _ _ Hleg) Hsales)
      as (rs & rl & w' & Hload & Hf' & Hinv & _ & Hrs & _).
    specialize (Hrs _ Hnone Hleg). rewrite Hrs in Hload, Hinv. clear Hrs rs.
    unfold startup. rewrite Hload. cbn [fst snd].
    assert (Hs : sarees (setIsDBLoaded true
                           (useSales rl (useSarees (Some (Inventory items)) st)))
                 = items).
    { destruct rl as [[?|?]|]; reflexivity. }
    split; [exact Hs|]. split; [exact Hinv|]. split; [exact Hs|].
    split; [|reflexivity].
    rewrite saveEffect_ok by (exact Hf' || reflexivity).
    rewrite lookup_insert_ne by discriminate. now rewrite lookup_insert_eq, Hs.
  - intros lines Hnone Hleg Hinvd.
    destruct (loadData_resolves JSON_parse st w Hf Hinvd
                (legacyHolds_decodable JSON_parse w _ _ Hleg))
      as (rs & rl & w' & Hload & Hf' & _ & Hsal & _ & Hrl).
    specialize (Hrl _ Hnone Hleg). rewrite Hrl in Hload, Hsal. clear Hrl rl.
    unfold startup. rewrite Hload. cbn [fst snd].
    assert (Hs : sales (setIsDBLoaded true
                          (useSales (Some (SalesLog lines)) (useSarees rs st)))
                 = lines) by reflexivity.
    split; [exact Hs|]. split; [exact Hsal|]. split; [exact Hs|].
    split; [|reflexivity].
    rewrite saveEffect_ok by (exact Hf' || reflexivity).
    now rewrite lookup_insert_eq, Hs.
Qed.

(** C9 amended, on a durable store that is empty and a legacy mechanism
    that holds three items. *)
Lemma startup_migrates_legacy_witness :
  faults legacyWorld = []
  /\ db legacyWorld !! "saree_inventory" = None
  /\ legacyHolds sampleParse legacyWorld "saree_inventory" (Inventory threeItems)
  /\ length threeItems = 3%nat
  /\ sarees (fst (startup sampleParse initialState legacyWorld)) = threeItems
  /\ db (snd (startup sampleParse initialState legacyWorld)) !! "saree_inventory"
     = Some (Inventory threeItems).
Proof.
  assert (Hleg : legacyHolds sampleParse legacyWorld "saree_inventory"
                             (Inventory threeItems)).
  { exists legacyText. repeat split. }
  assert (Hdec : decodable sampleParse legacyWorld "saree_sales").
  { intros text _ Htext. discriminate Htext. }
  split; [reflexivity|]. split; [reflexivity|]. split; [exact Hleg|].
  split; [reflexivity|].
  destruct (proj1 (startup_migrates_legacy sampleParse initialState legacyWorld eq_refl)
                  threeItems eq_refl Hleg Hdec) as (_ & _ & Hs & Hd & _).
  split; [exact Hs | exact Hd].
Defined.

Example legacyText_prefix :
  String.prefix ("[{" +:+ jsonString "id" +:+ ":" +:+ jsonString "3" +:+ ","
                 +:+ jsonString "code" +:+ ":" +:+ jsonString "SAR-COT-1003")
                legacyText = true.
Proof. reflexivity. Qed.

(** * Further properties *)

(** ** The ledger in a session *)

Lemma handleAddSaree_frame clk form st :
  sales (handleAddSaree clk form st) = sales st
  /\ cart (handleAddSaree clk form st) = cart st
  /\ exists new, sarees (handleAddSaree clk form st) = new ++ sarees st.
Proof.
  unfold handleAddSaree.
  destruct (existsb _ _); cbn; repeat split; try reflexivity.
  - exists []. reflexivity.
  - eexists [_]. reflexivity.
Qed.

Lemma acceptedRows_fresh (stockCodes : list string) (cs : list string) :
  forall earlier c, In c (acceptedRows stockCodes earlier cs) -> ~ In c stockCodes.
Proof.
  induction cs as [|d cs IH]; intros earlier c H; cbn in H; [contradiction|].
  destruct (mem d stockCodes || mem d earlier) eqn:E.
  - eapply IH; eauto.
  - destruct H as [<-|H]; [|eapply IH; eauto].
    apply orb_false_iff in E. destruct E as [E _].
    intros Hin. apply mem_In in Hin. congruence.
Qed.

Lemma handleFileUpload_frame clk text st :
  sales (handleFileUpload clk text st) = sales st
  /\ cart (handleFileUpload clk text st) = cart st
  /\ exists new,
      sarees (handleFileUpload clk text st) = new ++ sarees st
      /\ List.NoDup (codes new)
      /\ (forall c, In c (codes new) -> ~ In c (codes (sarees st))).
Proof.
  unfold handleFileUpload, onload.
  destruct (findColumns _) as [cols|].
  2:{ cbn. repeat split; try reflexivity. exists []. cbn.
      repeat split; auto using List.NoDup_nil. }
  match goal with |- context [if ?b then _ else _] => destruct b end;
    cbn; repeat split; try reflexivity.
  - eexists. split; [reflexivity|].
    destruct (importBatch_added clk (detectDelimiter text) cols (sarees st)
                (tl (split newline text))) as (_ & Hc & Hn).
    split; [exact Hn|]. intros c Hin. rewrite Hc in Hin.
    eapply acceptedRows_fresh; eauto.
  - exists []. cbn. repeat split; auto using List.NoDup_nil.
Qed.

Lemma NoDup_codes_app (new old : list Saree.t) :
  List.NoDup (codes new) -> List.NoDup (codes old) ->
  (forall c, In c (codes new) -> ~ In c (codes old)) ->
  List.NoDup (codes (new ++ old)).
Proof.
  intros Hn Ho Hd. rewrite codes_app.
  induction Hn as [|c l Hc Hn IH]; cbn; [exact Ho|].
  constructor.
  - rewrite in_app_iff. intros [H|H]; [contradiction|].
    apply (Hd c); [left; reflexivity|exact H].
  - apply IH. intros d Hin. apply Hd. right. exact Hin.
Qed.

(** The consistency of the ledger depends on the three collections only, and
    survives new items with new codes. *)
Lemma ledgerOk_grow (st st' : state) (new : list Saree.t) :
  ledgerOk st ->
  sarees st' = new ++ sarees st ->
  List.NoDup (codes (sarees st')) ->
  sales st' = sales st ->
  cart st' = cart st ->
  ledgerOk st'.
Proof.
  intros (H1 & H2 & H3 & H4 & H5) Hs Hn Hl Hc.
  unfold ledgerOk. rewrite Hl, Hc. repeat split; auto.
  - intros sale Hin. destruct (H3 sale Hin) as (s & Hs1 & Hs2).
    exists s. split; [|exact Hs2]. rewrite Hs. apply in_or_app. right. exact Hs1.
  - intros line Hin. destruct (H5 line Hin) as (s & Hs1 & Hs2).
    exists s. split; [|exact Hs2]. rewrite Hs. apply in_or_app. right. exact Hs1.
Qed.

Lemma ledgerOk_same (st st' : state) :
  ledgerOk st ->
  sarees st' = sarees st -> sales st' = sales st -> cart st' = cart st ->
  ledgerOk st'.
Proof.
  intros H Hs Hl Hc. apply (ledgerOk_grow st st' []); auto.
  rewrite Hs. apply H.
Qed.

Lemma addToCart_cases c st :
  (exists n, addToCart c st = (setNotification (Some n) st, false))
  \/ (exists st1, addToCart c st = (st1, true)).
Proof.
  unfold addToCart.
  destruct (List.find _ _) as [s|]; [|left; eexists; reflexivity].
  destruct (String.eqb _ _); [left; eexists; reflexivity|].
  destruct (inCart _ _); [left; eexists; reflexivity|].
  right. eexists. reflexivity.
Qed.

Lemma find_In {A : Type} (p : A -> bool) (l : list A) (x : A) :
  List.find p l = Some x -> In x l /\ p x = true.
Proof. apply List.find_some. Qed.

Lemma NoDup_snoc (l : list string) (c : string) :
  List.NoDup l -> ~ In c l -> List.NoDup (l ++ [c]).
Proof.
  intros Hn Hc. induction Hn as [|d l Hd Hn IH]; cbn.
  - constructor; [intros []|constructor].
  - constructor.
    + rewrite in_app_iff. intros [H|[H|[]]]; [contradiction|].
      apply Hc. left. symmetry. exact H.
    + apply IH. intros H. apply Hc. right. exact H.
Qed.

Lemma ledgerOk_addToCart c st : ledgerOk st -> ledgerOk (fst (addToCart c st)).
Proof.
  intros Hok. destruct (addToCart_cases c st) as [(n & E)|(st1 & E)]; rewrite E; cbn.
  - apply (ledgerOk_same st); auto.
  - destruct (addToCart_true c st st1 E) as (s & line & Hf & Hs & Hl & _ & Hc & ->).
    destruct Hok as (H1 & H2 & H3 & H4 & H5).
    apply find_In in Hf. destruct Hf as [Hin Hcode]. apply hasCode_eq in Hcode.
    unfold ledgerOk. cbn. repeat split; auto.
    + unfold lineCodes. rewrite map_app. cbn. apply NoDup_snoc; [exact H4|].
      rewrite Hl, Hcode. intros Hin'. apply inCart_In in Hin'. congruence.
    + intros l Hl'. apply in_app_or in Hl'. destruct Hl' as [Hl'|[<-|[]]]; [auto|].
      exists s. rewrite Hl. auto.
Qed.

Lemma NoDup_map_filter {A B : Type} (f : A -> B) (p : A -> bool) (l : list A) :
  List.NoDup (map f l) -> List.NoDup (map f (List.filter p l)).
Proof.
  induction l as [|x l IH]; cbn; intros H; [constructor|].
  inversion H as [|? ? Hx Hl]; subst.
  destruct (p x); cbn; [constructor|]; auto.
  intros Hin. apply Hx. apply in_map_iff in Hin. destruct Hin as (y & <- & Hy).
  apply in_map. apply filter_In in Hy. apply Hy.
Qed.

Lemma processReturn_cases c st :
  (exists n, processReturn c st = (setNotification (Some n) st, false))
  \/ (exists s i,
        List.find (Saree.hasCode c) (sarees st) = Some s
        /\ findIndex (Saree.hasCode c) (sarees st) = Some i
        /\ sarees st !! i = Some s
        /\ Saree.status s <> "available"
        /\ processReturn c st =
           (setNotification
              (Some (Notif ("Return Successful! " +:+ c +:+ " is back in inventory.")
                           success))
              (setSales
                 (List.filter (fun sale => negb (String.eqb (Sale.sareeCode sale) c))
                              (sales st))
                 (setSarees (<[i := Saree.withStatus s "available"]> (sarees st)) st)),
            true)).
Proof.
  destruct (List.find (Saree.hasCode c) (sarees st)) as [s|] eqn:Hf.
  - destruct (String.eqb (Saree.status s) "available") eqn:Hs.
    + left. eexists. apply (processReturn_already_available c st s Hf).
      apply String.eqb_eq. exact Hs.
    + right. apply String.eqb_neq in Hs.
      destruct (processReturn_success c st s Hf Hs) as (i & Hi & E & _).
      exists s, i. repeat split; auto.
      rewrite find_findIndex, Hi in Hf. exact Hf.
  - left. eexists. apply processReturn_not_found.
    rewrite find_findIndex in Hf.
    destruct (findIndex (Saree.hasCode c) (sarees st)) as [i|] eqn:Hi.
    + apply findIndex_Some in Hi. destruct Hi as (x & Hx & _). congruence.
    + apply findIndex_None in Hi. apply existsb_hasCode_false. exact Hi.
Qed.

Lemma ledgerOk_processReturn c st : ledgerOk st -> ledgerOk (fst (processReturn c st)).
Proof.
  intros Hok.
  destruct (processReturn_cases c st) as [(n & E)|(s & i & Hf & Hi & Hs & Hst & E)];
    rewrite E; cbn.
  - apply (ledgerOk_same st); auto.
  - destruct Hok as (H1 & H2 & H3 & H4 & H5).
    unfold ledgerOk. cbn.
    rewrite (insert_first_map c "available" (sarees st) i s H1 Hi Hs).
    set (f := fun x => if Saree.hasCode c x then Saree.withStatus x "available" else x).
    assert (Hcode : forall x, Saree.code (f x) = Saree.code x).
    { intros x. unfold f. destruct (Saree.hasCode c x); reflexivity. }
    repeat split.
    + unfold codes. rewrite map_map. rewrite (map_ext _ Saree.code Hcode). exact H1.
    + apply NoDup_map_filter. exact H2.
    + intros sale Hin. apply filter_In in Hin. destruct Hin as [Hin Hne].
      destruct (H3 sale Hin) as (x & Hx & Hxc & Hxs).
      exists (f x). split; [apply in_map; exact Hx|]. split; [rewrite Hcode; exact Hxc|].
      unfold f. destruct (Saree.hasCode c x) eqn:Hh; [|exact Hxs].
      apply hasCode_eq in Hh. apply negb_true_iff, String.eqb_neq in Hne. congruence.
    + exact H4.
    + intros line Hin. destruct (H5 line Hin) as (x & Hx & Hxc & Hxs).
      exists (f x). split; [apply in_map; exact Hx|]. split; [rewrite Hcode; exact Hxc|].
      unfold f. destruct (Saree.hasCode c x); [cbn; discriminate|exact Hxs].
Qed.

Lemma ledgerOk_handleScanInput raw st : ledgerOk st -> ledgerOk (handleScanInput raw st).
Proof.
  intros Hok. unfold handleScanInput.
  destruct (negb _); [exact Hok|].
  destruct (scanMode st); [apply ledgerOk_addToCart|apply ledgerOk_processReturn]; exact Hok.
Qed.

Lemma ledgerOk_completeSaleTransaction clk rnd st :
  ledgerOk st -> ledgerOk (completeSaleTransaction clk rnd st).
Proof.
  intros Hok. destruct (cart st) as [|l0 ls] eqn:Hcart.
  { unfold completeSaleTransaction. rewrite Hcart. exact Hok. }
  rewrite completeSaleTransaction_nonempty by (rewrite Hcart; discriminate).
  clear Hcart l0 ls.
  destruct Hok as (H1 & H2 & H3 & H4 & H5).
  destruct (imap_saleOf clk rnd (paymentMethod st) (cart st)) as (_ & Hcodes & _).
  unfold ledgerOk. cbn.
  rewrite (fold_markSold_map (cart st) (sarees st) H1).
  assert (Hcode : forall x, Saree.code (soldIfInCart (cart st) x) = Saree.code x).
  { intros x. unfold soldIfInCart. destruct (inCart _ _); reflexivity. }
  repeat split.
  - unfold codes. rewrite map_map. rewrite (map_ext _ Saree.code Hcode). exact H1.
  - rewrite map_app, Hcodes.
    clear Hcodes. revert H4.
    assert (Hd : forall c, In c (lineCodes (cart st)) ->
                           ~ In c (map Sale.sareeCode (sales st))).
    { intros c Hc Hs. apply in_map_iff in Hc. destruct Hc as (line & <- & Hline).
      apply in_map_iff in Hs. destruct Hs as (sale & Hsc & Hsale).
      destruct (H5 line Hline) as (x & Hx & Hxc & Hxs).
      destruct (H3 sale Hsale) as (y & Hy & Hyc & Hys).
      assert (x = y).
      { clear - H1 Hx Hy Hxc Hyc Hsc.
        assert (Hxy : Saree.code x = Saree.code y) by congruence.
        revert H1 Hx Hy. generalize (sarees st). intros l.
        induction l as [|z l IH]; cbn; intros Hn Hx Hy; [contradiction|].
        inversion Hn as [|? ? Hz Hl]; subst.
        destruct Hx as [Hx|Hx], Hy as [Hy|Hy]; try congruence.
        - exfalso. apply Hz. rewrite Hx, Hxy. apply in_map. exact Hy.
        - exfalso. apply Hz. rewrite Hy, <- Hxy. apply in_map. exact Hx.
        - auto. }
      subst y. congruence. }
    revert Hd. generalize (lineCodes (cart st)). intros l Hd Hn.
    induction Hn as [|c l Hc Hn IH]; cbn; [exact H2|].
    constructor.
    + rewrite in_app_iff. intros [H|H]; [contradiction|].
      apply (Hd c); [left; reflexivity|exact H].
    + apply IH. intros d Hin. apply Hd. right. exact Hin.
  - intros sale Hin. apply in_app_or in Hin. destruct Hin as [Hin|Hin].
    + assert (Hc : In (Sale.sareeCode sale) (lineCodes (cart st))).
      { rewrite <- Hcodes. apply in_map. exact Hin. }
      pose proof Hc as Hc'.
      apply in_map_iff in Hc. destruct Hc as (line & Hlc & Hline).
      destruct (H5 line Hline) as (x & Hx & Hxc & Hxs).
      exists (soldIfInCart (cart st) x).
      split; [apply in_map; exact Hx|]. split; [rewrite Hcode; congruence|].
      unfold soldIfInCart.
      assert (Hin' : inCart (Saree.code x) (cart st) = true).
      { apply inCart_In. rewrite Hxc, Hlc. exact Hc'. }
      rewrite Hin'. reflexivity.
    + destruct (H3 sale Hin) as (x & Hx & Hxc & Hxs).
      exists (soldIfInCart (cart st) x).
      split; [apply in_map; exact Hx|]. split; [rewrite Hcode; exact Hxc|].
      unfold soldIfInCart. destruct (inCart _ _); [reflexivity|exact Hxs].
  - constructor.
  - intros line [].
Qed.

Lemma In_insert {A : Type} (l : list A) (i : nat) (x y : A) :
  In x (<[i := y]> l) -> x = y \/ In x l.
Proof.
  revert i. induction l as [|z l IH]; intros [|i]; cbn; try tauto.
  - intros [H|H]; auto.
  - intros [H|H]; auto. destruct (IH i H); auto.
Qed.

Lemma map_insert_same {A B : Type} (f : A -> B) (l : list A) (i : nat) (x y : A) :
  l !! i = Some x -> f y = f x -> map f (<[i := y]> l) = map f l.
Proof.
  revert i. induction l as [|z l IH]; intros [|i]; cbn; try discriminate.
  - intros [= ->] ->. reflexivity.
  - intros H E. f_equal. apply IH; auto.
Qed.

Lemma lookup_In {A : Type} (l : list A) (i : nat) (x : A) : l !! i = Some x -> In x l.
Proof.
  revert i. induction l as [|z l IH]; intros [|i]; cbn; try discriminate.
  - intros [= ->]. left. reflexivity.
  - intros H. right. eapply IH. exact H.
Qed.

Lemma ledgerOk_updateCartItemPrice index sel customVal st :
  ledgerOk st -> ledgerOk (updateCartItemPrice index sel customVal st).
Proof.
  intros Hok. unfold updateCartItemPrice.
  destruct (cart st !! index) as [line|] eqn:Hl; [|exact Hok].
  destruct Hok as (H1 & H2 & H3 & H4 & H5).
  unfold ledgerOk. cbn. repeat split; auto.
  - unfold lineCodes. erewrite map_insert_same; eauto.
  - intros l Hin. apply In_insert in Hin. destruct Hin as [->|Hin]; [|auto].
    cbn. apply H5. eapply lookup_In. exact Hl.
Qed.

Lemma In_delete {A : Type} (l : list A) (i : nat) (x : A) :
  In x (delete i l) -> In x l.
Proof.
  revert i. induction l as [|z l IH]; intros [|i]; cbn; try tauto.
  intros [H|H]; eauto.
Qed.

Lemma NoDup_map_delete {A B : Type} (f : A -> B) (l : list A) (i : nat) :
  List.NoDup (map f l) -> List.NoDup (map f (delete i l)).
Proof.
  revert i. induction l as [|z l IH]; intros [|i]; cbn; intros H; auto.
  - inversion H; auto.
  - inversion H as [|? ? Hz Hl]; subst. constructor; [|auto].
    intros Hin. apply Hz. apply in_map_iff in Hin. destruct Hin as (y & <- & Hy).
    apply in_map. eapply In_delete. exact Hy.
Qed.

Lemma ledgerOk_removeCartItem index st : ledgerOk st -> ledgerOk (removeCartItem index st).
Proof.
  intros (H1 & H2 & H3 & H4 & H5). unfold ledgerOk, removeCartItem. cbn.
  repeat split; auto.
  - apply NoDup_map_delete. exact H4.
  - intros l Hin. apply H5. eapply In_delete. exact Hin.
Qed.

Lemma ledgerOk_step st a : ledgerOk st -> ledgerOk (step st a).
Proof.
  intros Hok. destruct a; cbn.
  - destruct (handleAddSaree_frame clk form st) as (Hs & Hc & new & Hn).
    apply (ledgerOk_grow st _ new); auto.
    apply handleAddSaree_NoDup. apply Hok.
  - destruct (handleFileUpload_frame clk text st) as (Hs & Hc & new & Hn & Hd & Hf).
    apply (ledgerOk_grow st _ new); auto.
    rewrite Hn. apply NoDup_codes_app; auto. apply Hok.
  - apply ledgerOk_handleScanInput. exact Hok.
  - exact Hok.
  - apply ledgerOk_updateCartItemPrice. exact Hok.
  - apply ledgerOk_removeCartItem. exact Hok.
  - exact Hok.
  - exact Hok.
  - apply ledgerOk_completeSaleTransaction. exact Hok.
  - unfold exportSales, exportToCSV. destruct (map _ _); exact Hok.
  - unfold exportInventory, exportToCSV. destruct (map _ _); exact Hok.
Qed.

Lemma ledgerOk_initial : ledgerOk initialState.
Proof.
  unfold ledgerOk. cbn. repeat split; try constructor; intros ? [].
Qed.

Lemma find_hasCode_unique (c : string) (l : list Saree.t) (s : Saree.t) :
  List.NoDup (codes l) -> In s l -> Saree.code s = c ->
  List.find (Saree.hasCode c) l = Some s.
Proof.
  induction l as [|x l IH]; cbn; intros Hn Hin Hc; [contradiction|].
  inversion Hn as [|? ? Hx Hl]; subst.
  destruct (Saree.hasCode (Saree.code s) x) eqn:Hh.
  - destruct Hin as [->|Hin]; [reflexivity|].
    apply hasCode_eq in Hh. exfalso. apply Hx. rewrite Hh. apply in_map. exact Hin.
  - destruct Hin as [->|Hin].
    + assert (Saree.hasCode (Saree.code s) s = true) by (apply hasCode_eq; reflexivity).
      congruence.
    + apply IH; auto.
Qed.

Lemma ledgerOk_run (actions : list action) :
  forall st, ledgerOk st -> ledgerOk (run actions st).
Proof.
  induction actions as [|a actions IH]; intros st Hok; [exact Hok|].
  cbn. apply IH. apply ledgerOk_step. exact Hok.
Qed.

(** Called in the render that made them, the two callbacks are the
    handlers of the session. *)
Lemma onload_current clk text st :
  onload clk text (sarees st) st = handleFileUpload clk text st.
Proof. reflexivity. Qed.

Lemma onDecoded_current decodedText st :
  onDecoded st decodedText st = handleScanInput decodedText st.
Proof. reflexivity. Qed.

(** X1.  In a session whose handlers are all called in the render that is
    current (any sequence of adds, imports, scans in either mode, cart
    edits, payment choices, checkouts and exports), a consistent ledger stays
    consistent: codes are unique in the inventory, in the sales log and in
    the cart, every sale is the sale of an item that is in the inventory and
    sold, and every cart line is a line for an item that is in the inventory
    and not sold.  So no code has two sales in the log, and the item that a
    sale names is found sold.  The two callbacks that can be called in a
    later render break this.  A file chosen in one render and loaded after
    the form added an item of the same code leaves that code twice in the
    inventory; a camera started with an item in the cart and decoding after
    the checkout puts the sold item back into the cart, and the next
    checkout sells it a second time. *)
Theorem ledger_consistent :
  (forall (actions : list action) (st : state),
      ledgerOk st ->
      let st' := run actions st in
      ledgerOk st'
      /\ (forall c, (count_occ string_dec (map Sale.sareeCode (sales st')) c <= 1)%nat)
      /\ (forall sale, In sale (sales st') ->
            exists s, List.find (Saree.hasCode (Sale.sareeCode sale)) (sarees st') = Some s
                      /\ Saree.status s = "sold"))
  /\ (exists (clk : clock) (text : string) (actions : list action) (st : state) (c : string),
        ledgerOk st
        /\ let st' := onload clk text (sarees st) (run actions st) in
           count_occ string_dec (codes (sarees st')) c = 2)
  /\ (exists (decodedText : string) (actions : list action) (clk : clock)
             (rnd : nat -> string) (st : state) (c : string),
        ledgerOk st
        /\ let st' := completeSaleTransaction clk rnd
                        (onDecoded st decodedText (run actions st)) in
           count_occ string_dec (map Sale.sareeCode (sales st')) c = 2).
Proof.
  split; [|split].
  - intros actions st Hok. cbn.
    pose proof (ledgerOk_run actions st Hok) as Hok'.
    split; [exact Hok'|]. destruct Hok' as (H1 & H2 & H3 & _). split.
    + intros c. apply (proj1 (List.NoDup_count_occ string_dec _) H2).
    + intros sale Hin. destruct (H3 sale Hin) as (s & Hs & Hc & Hst).
      exists s. split; [|exact Hst]. apply find_hasCode_unique; auto.
  - exists sampleClock, (fileOf ["Product_Code"; "SAR101"]),
      [AddSaree sampleClock sampleForm], initialState, "SAR101".
    split; [apply ledgerOk_initial | reflexivity].
  - exists "sar102", [CompleteSale sampleClock sampleRnd], sampleClock, sampleRnd,
      (run [AddSaree sampleClock sampleForm; AddSaree sampleClock sampleForm2;
            ScanInput "sar101"] initialState), "SAR101".
    split; [apply ledgerOk_run, ledgerOk_initial | reflexivity].
Qed.

(** X1, on a session that adds an item, sells it, and scans it again. *)
Lemma ledger_consistent_witness :
  ledgerOk initialState
  /\ ledgerOk (run [AddSaree sampleClock sampleForm; ScanInput "sar101";
                    CompleteSale sampleClock sampleRnd; ScanInput "sar101"] initialState)
  /\ map Sale.sareeCode
       (sales (run [AddSaree sampleClock sampleForm; ScanInput "sar101";
                    CompleteSale sampleClock sampleRnd; ScanInput "sar101"] initialState))
     = ["SAR101"].
Proof.
  split; [apply ledgerOk_initial|]. split; [|reflexivity].
  exact (proj1 (proj1 ledger_consistent
                  [AddSaree sampleClock sampleForm; ScanInput "sar101";
                   CompleteSale sampleClock sampleRnd; ScanInput "sar101"]
                  initialState ledgerOk_initial)).
Defined.

(** The two sessions with a late callback, step by step. *)
Example late_load_duplicates :
  codes (sarees (onload sampleClock (fileOf ["Product_Code"; "SAR101"]) []
                   (handleAddSaree sampleClock sampleForm initialState)))
  = ["SAR101"; "SAR101"].
Proof. reflexivity. Qed.

Example late_decode_sells_twice :
  let started := run [AddSaree sampleClock sampleForm; AddSaree sampleClock sampleForm2;
                      ScanInput "sar101"] initialState in
  let sold := completeSaleTransaction sampleClock sampleRnd started in
  let decoded := onDecoded started "sar102" sold in
  lineCodes (cart started) = ["SAR101"]
  /\ lineCodes (cart sold) = []
  /\ lineCodes (cart decoded) = ["SAR101"; "SAR102"]
  /\ map Sale.sareeCode (sales (completeSaleTransaction sampleClock sampleRnd decoded))
     = ["SAR101"; "SAR102"; "SAR101"].
Proof. repeat split. Qed.

(** ** Scanning *)

Lemma isWhiteSpace_upperChar (c : ascii) : isWhiteSpace (upperChar c) = isWhiteSpace c.
Proof. destruct c as [[] [] [] [] [] [] [] []]; reflexivity. Qed.

Lemma trimStart_toUpperCase (s : string) :
  trimStart (toUpperCase s) = toUpperCase (trimStart s).
Proof.
  induction s as [|c r IH]; [reflexivity|].
  cbn. rewrite isWhiteSpace_upperChar. destruct (isWhiteSpace c); [exact IH|reflexivity].
Qed.

Lemma trimEnd_toUpperCase (s : string) :
  trimEnd (toUpperCase s) = toUpperCase (trimEnd s).
Proof.
  induction s as [|c r IH]; [reflexivity|].
  cbn. fold (toUpperCase r). rewrite IH, isWhiteSpace_upperChar.
  destruct (trimEnd r) as [|d r']; cbn; [destruct (isWhiteSpace c)|]; reflexivity.
Qed.

Lemma trim_toUpperCase (s : string) : trim (toUpperCase s) = toUpperCase (trim s).
Proof. unfold trim. rewrite trimEnd_toUpperCase, trimStart_toUpperCase. reflexivity. Qed.

Lemma trimEnd_idempotent (s : string) : trimEnd (trimEnd s) = trimEnd s.
Proof.
  induction s as [|c r IH]; [reflexivity|].
  cbn. destruct (trimEnd r) as [|d r'] eqn:E.
  - destruct (isWhiteSpace c) eqn:W; [reflexivity|]. cbn. rewrite W. reflexivity.
  - change (trimEnd (String c (String d r'))) with
      (match trimEnd (String d r') with
       | EmptyString => if isWhiteSpace c then EmptyString else String c EmptyString
       | r'' => String c r''
       end).
    rewrite IH. reflexivity.
Qed.

Lemma trimEnd_trimStart (s : string) : trimEnd s = s -> trimEnd (trimStart s) = trimStart s.
Proof.
  induction s as [|c r IH]; [reflexivity|].
  intros H. cbn [trimStart]. destruct (isWhiteSpace c) eqn:W; [|exact H].
  apply IH. cbn in H. rewrite W in H.
  destruct (trimEnd r) as [|d r']; [discriminate|]. congruence.
Qed.

Lemma trimStart_idempotent (s : string) : trimStart (trimStart s) = trimStart s.
Proof.
  induction s as [|c r IH]; [reflexivity|].
  cbn. destruct (isWhiteSpace c) eqn:W; [exact IH|]. cbn. rewrite W. reflexivity.
Qed.

Lemma trim_idempotent (s : string) : trim (trim s) = trim s.
Proof.
  unfold trim. rewrite trimEnd_trimStart by apply trimEnd_idempotent.
  apply trimStart_idempotent.
Qed.

(** The code a scan looks up is its own normal form. *)
Lemma scanned_code_normal (raw : string) :
  toUpperCase (trim (toUpperCase (trim raw))) = toUpperCase (trim raw).
Proof. rewrite trim_toUpperCase, trim_idempotent. apply toUpperCase_idempotent. Qed.

Lemma truthy_trim (s : string) : JsString.truthy (trim s) = true -> JsString.truthy s = true.
Proof. destruct s; [discriminate|reflexivity]. Qed.

Lemma truthy_toUpperCase (s : string) : JsString.truthy (toUpperCase s) = JsString.truthy s.
Proof. destruct s; reflexivity. Qed.

(** X2.  A scanned text that is not blank is read up to letter case and
    outer white space: it does what its trimmed, upper-cased form does,
    which is an add to the cart in SELL mode and a return in RETURN mode. *)
Theorem handleScanInput_normal_form :
  forall (raw : string) (st : state),
    JsString.truthy (trim raw) = true ->
    handleScanInput raw st = handleScanInput (toUpperCase (trim raw)) st
    /\ handleScanInput raw st
       = match scanMode st with
         | SELL => fst (addToCart (toUpperCase (trim raw)) st)
         | RETURN => fst (processReturn (toUpperCase (trim raw)) st)
         end.
Proof.
  intros raw st H. unfold handleScanInput.
  rewrite truthy_toUpperCase, H, (truthy_trim raw H). cbn.
  rewrite scanned_code_normal. split; reflexivity.
Qed.

(** X2, on a code scanned in lower case between spaces. *)
Lemma handleScanInput_normal_form_witness :
  handleScanInput "  sar101 " sampleStock = handleScanInput "SAR101" sampleStock
  /\ lineCodes (cart (handleScanInput "  sar101 " sampleStock)) = ["SAR101"].
Proof.
  split.
  - exact (proj1 (handleScanInput_normal_form "  sar101 " sampleStock eq_refl)).
  - reflexivity.
Defined.

Lemma addToCart_not_found c st :
  ~ In c (codes (sarees st)) ->
  addToCart c st = (setNotification (Some (NotFound c)) st, false).
Proof.
  intros H. unfold addToCart.
  destruct (List.find _ _) as [s|] eqn:Hf; [|reflexivity].
  apply find_hasCode_In in Hf. tauto.
Qed.

(** X3.  Only the empty input is ignored.  An input of white space alone is
    looked up as the empty code: when no item has the empty code, it is
    reported as not found, and nothing else changes. *)
Theorem handleScanInput_blank :
  forall (raw : string) (st : state),
    trim raw = EmptyString ->
    ~ In EmptyString (codes (sarees st)) ->
    handleScanInput raw st
    = if JsString.truthy raw then setNotification (Some (NotFound EmptyString)) st else st.
Proof.
  intros raw st Ht Hn. unfold handleScanInput.
  destruct (JsString.truthy raw); [|reflexivity]. cbn. rewrite Ht. cbn.
  destruct (scanMode st).
  - rewrite (addToCart_not_found _ st Hn). reflexivity.
  - rewrite (processReturn_not_found _ st Hn). reflexivity.
Qed.

(** X3, on an input of three spaces and on the empty input. *)
Lemma handleScanInput_blank_witness :
  handleScanInput "   " sampleStock
  = setNotification (Some (NotFound EmptyString)) sampleStock
  /\ handleScanInput EmptyString sampleStock = sampleStock.
Proof.
  split.
  - refine (handleScanInput_blank "   " sampleStock eq_refl _).
    cbn. intros [H|[H|[]]]; discriminate.
  - refine (handleScanInput_blank EmptyString sampleStock eq_refl _).
    cbn. intros [H|[H|[]]]; discriminate.
Defined.

(** X4.  An item whose code is not its own trimmed, upper-cased form (the
    add form stores a code with the white space typed around it) is out of
    reach of the scanner: no scanned text changes that item or brings it into
    the cart. *)
Theorem scan_misses_unnormalized_code :
  forall (raw : string) (st : state) (i : nat) (s : Saree.t),
    sarees st !! i = Some s ->
    toUpperCase (trim (Saree.code s)) <> Saree.code s ->
    let st' := handleScanInput raw st in
    sarees st' !! i = Some s
    /\ (~ In (Saree.code s) (lineCodes (cart st)) ->
        ~ In (Saree.code s) (lineCodes (cart st'))).
Proof.
  intros raw st i s Hi Hn. cbn. unfold handleScanInput.
  destruct (negb _); [split; auto|].
  assert (Hc : Saree.code s <> toUpperCase (trim raw)).
  { intros E. apply Hn. rewrite E. apply scanned_code_normal. }
  generalize dependent (toUpperCase (trim raw)). intros c Hc.
  destruct (scanMode st).
  - destruct (addToCart_cases c st) as [(n & E)|(st1 & E)]; rewrite E; cbn; [auto|].
    destruct (addToCart_true c st st1 E) as (x & line & Hf & _ & Hl & _ & _ & ->).
    cbn. split; [exact Hi|].
    intros Hout Hin. unfold lineCodes in Hin. rewrite map_app in Hin.
    apply in_app_or in Hin. destruct Hin as [Hin|[Hin|[]]]; [auto|].
    apply find_hasCode_In in Hf. destruct Hf as [Hf _]. congruence.
  - destruct (processReturn_cases c st) as [(n & E)|(x & j & Hf & Hj & Hx & _ & E)];
      rewrite E; cbn; [auto|].
    split; [|auto].
    destruct (Nat.eq_dec j i) as [->|Hne].
    + apply find_hasCode_In in Hf. destruct Hf as [Hf _]. congruence.
    + rewrite list_lookup_insert_ne by exact Hne. exact Hi.
Qed.

(** X4, on an item added with a space after its code. *)
Lemma scan_misses_unnormalized_code_witness :
  exists s,
    sarees (handleAddSaree sampleClock spacedForm initialState) = [s]
    /\ Saree.code s = "SAR7 "
    /\ notification (handleScanInput "sar7 " (handleAddSaree sampleClock spacedForm initialState))
       = Some (NotFound "SAR7")
    /\ ~ In (Saree.code s)
         (lineCodes (cart (handleScanInput "sar7 "
                             (handleAddSaree sampleClock spacedForm initialState)))).
Proof.
  eexists. split; [reflexivity|]. split; [reflexivity|]. split; [reflexivity|].
  refine (proj2 (scan_misses_unnormalized_code "sar7 "
                   (handleAddSaree sampleClock spacedForm initialState) 0 _ eq_refl _) _).
  - cbn. discriminate.
  - cbn. intros [].
Defined.

(** ** The cart *)

(** X5.  With unique codes in the inventory, a scan in SELL mode succeeds
    exactly when some item has the code, that item is not sold, and the code
    is not in the cart yet.  It never changes the inventory or the sales log;
    when it fails the cart stays as it was; when it succeeds the cart gets
    one line at its end, for an item of the inventory with that code, at the
    list price. *)
Theorem addToCart_accepts :
  forall (c : string) (st : state),
    List.NoDup (codes (sarees st)) ->
    let st' := fst (addToCart c st) in
    (snd (addToCart c st) = true <->
       (exists s, In s (sarees st) /\ Saree.code s = c /\ Saree.status s <> "sold")
       /\ ~ In c (lineCodes (cart st)))
    /\ sarees st' = sarees st
    /\ sales st' = sales st
    /\ (snd (addToCart c st) = false -> cart st' = cart st)
    /\ (snd (addToCart c st) = true ->
        exists line,
          cart st' = cart st ++ [line]
          /\ In (CartLine.saree line) (sarees st)
          /\ Saree.code (CartLine.saree line) = c
          /\ CartLine.selection line = MRP
          /\ finalPrice line = Saree.mrp (CartLine.saree line)).
Proof.
  intros c st Hn. cbn.
  destruct (addToCart_cases c st) as [(n & E)|(st1 & E)]; rewrite E; cbn.
  - repeat split; try discriminate; auto.
    intros ((s & Hin & Hc & Hs) & Hout). exfalso.
    pose proof (find_hasCode_unique c (sarees st) s Hn Hin Hc) as Hf.
    unfold addToCart in E. rewrite Hf in E.
    apply String.eqb_neq in Hs. rewrite Hs in E.
    destruct (inCart c (cart st)) eqn:Hi; [|discriminate].
    apply inCart_In in Hi. contradiction.
  - destruct (addToCart_true c st st1 E) as (s & line & Hf & Hs & Hl & Hsel & Hc & ->).
    pose proof (find_In _ _ _ Hf) as [Hin Hh]. apply hasCode_eq in Hh.
    cbn. repeat split; auto; try discriminate.
    + exists s. auto.
    + intros Hin'. apply inCart_In in Hin'. congruence.
    + intros _. exists line. rewrite Hl. repeat split; auto.
      unfold finalPrice. rewrite Hsel, Hl. reflexivity.
Qed.

(** X5, on the sample stock: a first scan, the same scan again, and an unknown code. *)
Lemma addToCart_accepts_witness :
  snd (addToCart "SAR101" sampleStock) = true
  /\ snd (addToCart "SAR101" (fst (addToCart "SAR101" sampleStock))) = false
  /\ snd (addToCart "SAR999" sampleStock) = false.
Proof.
  assert (Hn : List.NoDup (codes (sarees sampleStock))).
  { cbn. repeat constructor; cbn; intuition discriminate. }
  split; [|split].
  - apply (proj1 (addToCart_accepts "SAR101" sampleStock Hn)).
    split; [|cbn; tauto].
    eexists. split; [right; left; reflexivity|]. split; [reflexivity|cbn; discriminate].
  - reflexivity.
  - reflexivity.
Defined.


Lemma addToCart_succeeds (c : string) (st : state) (s : Saree.t) :
  List.NoDup (codes (sarees st)) ->
  In s (sarees st) -> Saree.code s = c -> Saree.status s <> "sold" ->
  ~ In c (lineCodes (cart st)) ->
  exists st1, addToCart c st = (st1, true).
Proof.
  intros Hn Hin Hc Hs Hout.
  pose proof (find_hasCode_unique c (sarees st) s Hn Hin Hc) as Hf.
  unfold addToCart. rewrite Hf.
  apply String.eqb_neq in Hs. rewrite Hs.
  destruct (inCart c (cart st)) eqn:Hi; [|eexists; reflexivity].
  apply inCart_In in Hi. contradiction.
Qed.

(** X6.  Choosing a price tier for a cart line changes that line only: the
    inventory, the sales log, the number of lines, their codes and the other
    lines stay; the line keeps its item, gets the tier, and its price becomes
    the list price, the alternate price, or the custom value read as a number
    (0 when it is not one).  Choosing the custom tier without a value makes
    the price 0; the other tiers keep the custom text.  For an index past
    the end nothing changes. *)
Theorem updateCartItemPrice_line :
  forall (index : nat) (sel : selection) (customVal : option string) (st : state),
    let st' := updateCartItemPrice index sel customVal st in
    (cart st !! index = None -> st' = st)
    /\ (forall line,
          cart st !! index = Some line ->
          sarees st' = sarees st
          /\ sales st' = sales st
          /\ length (cart st') = length (cart st)
          /\ lineCodes (cart st') = lineCodes (cart st)
          /\ (forall j, j <> index -> cart st' !! j = cart st !! j)
          /\ exists line',
              cart st' !! index = Some line'
              /\ CartLine.saree line' = CartLine.saree line
              /\ CartLine.selection line' = sel
              /\ finalPrice line'
                 = match sel with
                   | MRP => Saree.mrp (CartLine.saree line)
                   | ASP60 => Saree.asp60 (CartLine.saree line)
                   | CUSTOM => orElse (parseFloat (default EmptyString customVal)) zero
                   end
              /\ (sel <> CUSTOM -> CartLine.customPrice line' = CartLine.customPrice line)
              /\ (sel = CUSTOM -> customVal = None -> finalPrice line' = zero)).
Proof.
  intros index sel customVal st. cbn. unfold updateCartItemPrice. split.
  - intros ->. reflexivity.
  - intros line Hl. rewrite Hl. cbn.
    assert (Hlt : index < length (cart st)) by (eapply lookup_lt_Some; exact Hl).
    repeat split.
    + apply length_insert.
    + unfold lineCodes. erewrite map_insert_same; eauto.
    + intros j Hj. apply list_lookup_insert_ne. auto.
    + eexists. split; [apply list_lookup_insert_eq; exact Hlt|]. cbn.
      repeat split.
      * destruct sel; reflexivity.
      * intros H. destruct sel; try reflexivity. congruence.
      * intros -> ->. reflexivity.
Qed.

(** X6, on the first line of the sample cart, set to the custom tier without a value. *)
Lemma updateCartItemPrice_line_witness :
  exists line',
    cart (updateCartItemPrice 0 CUSTOM None sampleCart) !! 0%nat = Some line'
    /\ Saree.code (CartLine.saree line') = "SAR101"
    /\ finalPrice line' = zero.
Proof.
  destruct (proj2 (updateCartItemPrice_line 0 CUSTOM None sampleCart) _ eq_refl)
    as (_ & _ & _ & _ & _ & line' & H1 & H2 & _ & _ & _ & H3).
  exists line'. split; [exact H1|]. split; [rewrite H2; reflexivity|].
  apply H3; reflexivity.
Defined.

Lemma delete_last {A : Type} (l : list A) (x : A) : delete (length l) (l ++ [x]) = l.
Proof. induction l as [|y l IH]; cbn; [reflexivity|]. f_equal. exact IH. Qed.

Lemma delete_out {A : Type} (l : list A) (i : nat) : length l <= i -> delete i l = l.
Proof.
  revert i. induction l as [|y l IH]; intros [|i]; cbn; intros H; try reflexivity; try lia.
  f_equal. apply IH. lia.
Qed.

Lemma delete_In_map {A B : Type} (f : A -> B) (l : list A) (i : nat) (x : A) :
  List.NoDup (map f l) -> l !! i = Some x -> ~ In (f x) (map f (delete i l)).
Proof.
  revert i. induction l as [|y l IH]; intros [|i]; cbn; try discriminate.
  - intros Hn [= ->]. inversion Hn; auto.
  - intros Hn Hl [H|H].
    + inversion Hn as [|? ? Hy _]; subst. apply Hy. rewrite H. apply in_map.
      eapply lookup_In. exact Hl.
    + inversion Hn; subst. eapply IH; eauto.
Qed.

(** X7.  Removing a cart line leaves the inventory and the sales log, and
    drops the line at the index (nothing, past the end), the others keeping
    their order.  When the index is in range the cart is one line shorter;
    with unique codes in the cart the code of the line is gone from it, and in
    a consistent ledger the item can be scanned into the cart again.
    Removing the last line undoes the scan that added it. *)
Theorem removeCartItem_line :
  forall (index : nat) (st : state),
    let st' := removeCartItem index st in
    sarees st' = sarees st
    /\ sales st' = sales st
    /\ cart st' = take index (cart st) ++ drop (S index) (cart st)
    /\ (length (cart st) <= index -> cart st' = cart st)
    /\ (forall line, cart st !! index = Some line ->
          S (length (cart st')) = length (cart st)
          /\ (List.NoDup (lineCodes (cart st)) ->
              ~ In (Saree.code (CartLine.saree line)) (lineCodes (cart st')))
          /\ (ledgerOk st ->
              snd (addToCart (Saree.code (CartLine.saree line)) st') = true))
    /\ (forall c st1, addToCart c st = (st1, true) ->
          cart (removeCartItem (length (cart st)) st1) = cart st).
Proof.
  intros index st. cbn. repeat split.
  - apply delete_take_drop.
  - apply delete_out.
  - rewrite length_delete by (rewrite H; eauto). 
    apply lookup_lt_Some in H. lia.
  - intros Hn. apply (delete_In_map (fun l => Saree.code (CartLine.saree l))); assumption.
  - intros (H1 & H2 & H3 & H4 & H5).
    destruct (H5 line (lookup_In _ _ _ H)) as (s & Hs & Hc & Hst).
    destruct (addToCart_succeeds (Saree.code (CartLine.saree line))
                (removeCartItem index st) s) as (st1 & E); auto.
    + cbn. apply (delete_In_map (fun l => Saree.code (CartLine.saree l))); assumption.
    + rewrite E. reflexivity.
  - intros c st1 E.
    destruct (addToCart_true c st st1 E) as (s & line & _ & _ & _ & _ & _ & ->).
    cbn. apply delete_last.
Qed.

(** X7, on the first line of the sample cart. *)
Lemma removeCartItem_line_witness :
  lineCodes (cart (removeCartItem 0 sampleCart)) = ["SAR102"]
  /\ snd (addToCart "SAR101" (removeCartItem 0 sampleCart)) = true.
Proof.
  split; [reflexivity|].
  destruct (proj1 (proj2 (proj2 (proj2 (proj2 (removeCartItem_line 0 sampleCart))))) _ eq_refl)
    as (_ & _ & H).
  apply H.
  apply (ledgerOk_run [AddSaree sampleClock sampleForm; AddSaree sampleClock sampleForm2;
                       ScanInput "SAR101"; ScanInput "SAR102"] initialState).
  apply ledgerOk_initial.
Defined.

(** ** Prices *)

Lemma settled_orElse (p : number) : settled (orElse p zero).
Proof. unfold settled, orElse. destruct (JsNumber.truthy p) eqn:E; [rewrite E|]; reflexivity. Qed.

Lemma settled_zero : settled zero.
Proof. reflexivity. Qed.

Lemma settled_cellOr (idx : option nat) (values : list string) :
  settled (cellOr idx values parsePrice zero).
Proof.
  unfold cellOr. destruct idx as [i|]; [|apply settled_zero].
  destruct (values !! i) as [v|]; [|apply settled_zero].
  destruct (JsString.truthy v); [apply settled_orElse|apply settled_zero].
Qed.

Lemma priced_withStatus (s : Saree.t) (v : string) : priced s -> priced (Saree.withStatus s v).
Proof. intros H. exact H. Qed.

Lemma priced_importLoop clk delimiter cols stock rows :
  forall i acc,
    (forall s, In s (newSarees acc) -> priced s) ->
    forall s, In s (newSarees (importLoop clk delimiter cols stock i rows acc)) -> priced s.
Proof.
  induction rows as [|row rows IH]; intros i acc Hacc; cbn; [exact Hacc|].
  apply IH. unfold importRow.
  destruct (rowCode delimiter cols row) as [c|]; [|exact Hacc].
  destruct (_ || _); cbn; [exact Hacc|].
  intros s Hin. apply in_app_or in Hin. destruct Hin as [Hin|[<-|[]]]; [auto|].
  split; [|split]; apply settled_cellOr.
Qed.

Lemma priced_markSold (l : list Saree.t) (line : CartLine.t) :
  (forall s, In s l -> priced s) -> forall s, In s (markSold l line) -> priced s.
Proof.
  intros H s. unfold markSold.
  destruct (findIndex _ l) as [i|]; [|apply H].
  destruct (l !! i) as [x|] eqn:Hx; [|apply H].
  intros Hin. apply In_insert in Hin. destruct Hin as [->|Hin]; [|auto].
  apply priced_withStatus. apply H. eapply lookup_In. exact Hx.
Qed.

Lemma priced_fold_markSold (lines : list CartLine.t) :
  forall l, (forall s, In s l -> priced s) ->
            forall s, In s (fold_left markSold lines l) -> priced s.
Proof.
  induction lines as [|line lines IH]; intros l H; cbn; [exact H|].
  apply IH. apply priced_markSold. exact H.
Qed.

Lemma settled_finalPrice (line : CartLine.t) :
  priced (CartLine.saree line) -> settled (finalPrice line).
Proof.
  intros (_ & Hm & Ha). unfold finalPrice.
  destruct (CartLine.selection line); auto using settled_orElse.
Qed.

Lemma In_imap {A B : Type} (f : nat -> A -> B) (l : list A) (y : B) :
  In y (imap f l) -> exists k x, In x l /\ y = f k x.
Proof.
  revert f. induction l as [|x l IH]; intros f; cbn; [intros []|].
  intros [<-|H].
  - exists 0, x. auto.
  - destruct (IH _ H) as (k & z & Hz & ->). exists (S k), z. auto.
Qed.

Lemma pricesOk_step st a : pricesOk st -> pricesOk (step st a).
Proof.
  intros Hok. pose proof Hok as (H1 & H2 & H3). destruct a; cbn; try exact Hok.
  - unfold handleAddSaree. destruct (existsb _ _); [exact Hok|].
    split; [|split]; cbn; auto.
    intros x [<-|Hin]; [|auto].
    split; [|split]; apply settled_orElse.
  - unfold handleFileUpload, onload. destruct (findColumns _) as [cols|]; [|exact Hok].
    match goal with |- context [if ?b then _ else _] => destruct b end; [|exact Hok].
    split; [|split]; cbn; auto.
    intros x Hin. apply in_app_or in Hin. destruct Hin as [Hin|Hin]; [|auto].
    revert x Hin. apply priced_importLoop. intros x [].
  - unfold handleScanInput. destruct (negb _); [exact Hok|].
    destruct (scanMode st).
    + destruct (addToCart_cases (toUpperCase (trim codeToScan)) st) as [(n & E)|(st1 & E)];
        rewrite E; cbn; [exact Hok|].
      destruct (addToCart_true _ st st1 E) as (s & line & Hf & _ & Hl & _ & _ & ->).
      split; [|split]; cbn; auto.
      intros l Hin. apply in_app_or in Hin. destruct Hin as [Hin|[<-|[]]]; [auto|].
      rewrite Hl. apply H1. apply (find_In _ _ _ Hf).
    + destruct (processReturn_cases (toUpperCase (trim codeToScan)) st)
        as [(n & E)|(s & i & Hf & Hi & Hs & _ & E)]; rewrite E; cbn; [exact Hok|].
      split; [|split]; cbn; auto.
      * intros x Hin. apply In_insert in Hin. destruct Hin as [->|Hin]; [|auto].
        apply priced_withStatus. apply H1. eapply lookup_In. exact Hs.
      * intros sale Hin. apply filter_In in Hin. apply H3. apply Hin.
  - unfold updateCartItemPrice. destruct (cart st !! index) as [line|] eqn:Hl;
      [|exact Hok].
    split; [|split]; cbn; auto.
    intros l Hin. apply In_insert in Hin. destruct Hin as [->|Hin]; [|auto].
    cbn. apply H2. eapply lookup_In. exact Hl.
  - unfold removeCartItem. split; [|split]; cbn; auto.
    intros l Hin. apply H2. eapply In_delete. exact Hin.
  - unfold completeSaleTransaction. destruct (cart st) as [|l0 ls] eqn:Hc;
      [exact Hok|].
    rewrite <- Hc. split; [|split]; cbn.
    + apply priced_fold_markSold. exact H1.
    + intros l [].
    + intros sale Hin. apply in_app_or in Hin. destruct Hin as [Hin|Hin]; [|auto].
      apply In_imap in Hin. destruct Hin as (k & line & Hline & ->).
      cbn. apply settled_finalPrice. apply H2. rewrite <- Hc. exact Hline.
  - unfold exportSales, exportToCSV. destruct (map _ _); exact Hok.
  - unfold exportInventory, exportToCSV. destruct (map _ _); exact Hok.
Qed.

Lemma pricesOk_run (actions : list action) :
  forall st, pricesOk st -> pricesOk (run actions st).
Proof.
  induction actions as [|a actions IH]; intros st Hok; [exact Hok|].
  cbn. apply IH. apply pricesOk_step. exact Hok.
Qed.

Lemma pricesOk_initial : pricesOk initialState.
Proof. split; [|split]; intros ? []. Qed.

(** X8.  No session brings [NaN] into the ledger: when every price held
    is settled (it is its own [p || 0]), so is every price after any sequence
    of actions; no cost, list or alternate price of an item and no price of a
    sale is [NaN]. *)
Theorem prices_settled :
  forall (actions : list action) (st : state),
    pricesOk st ->
    let st' := run actions st in
    pricesOk st'
    /\ (forall s, In s (sarees st') ->
          Saree.cp s <> NaN /\ Saree.mrp s <> NaN /\ Saree.asp60 s <> NaN)
    /\ (forall sale, In sale (sales st') -> Sale.salePrice sale <> NaN).
Proof.
  intros actions st Hok. cbn.
  pose proof (pricesOk_run actions st Hok) as Hok'. split; [exact Hok'|].
  assert (Hnan : forall p, settled p -> p <> NaN).
  { intros p Hp ->. discriminate. }
  destruct Hok' as (H1 & _ & H3). split.
  - intros s Hin. destruct (H1 s Hin) as (Ha & Hb & Hc). auto.
  - intros sale Hin. auto.
Qed.

(** X8, on an add with prices that are not numbers. *)
Lemma prices_settled_witness :
  pricesOk initialState
  /\ map (fun s => (Saree.cp s, Saree.mrp s, Saree.asp60 s))
         (sarees (run [AddSaree sampleClock badPriceForm] initialState))
     = [(zero, zero, Dec 1250 2)]
  /\ pricesOk (run [AddSaree sampleClock badPriceForm] initialState).
Proof.
  split; [apply pricesOk_initial|]. split; [reflexivity|].
  exact (proj1 (prices_settled [AddSaree sampleClock badPriceForm] initialState
                  pricesOk_initial)).
Defined.

(** ** The total of the cart *)

Section CartTotalProperties.

Variable add : number -> number -> number.

Lemma lineAmount_finalPrice (line : CartLine.t) :
  priced (CartLine.saree line) -> lineAmount line = finalPrice line.
Proof.
  intros (_ & Hm & Ha). unfold lineAmount, finalPrice.
  destruct (CartLine.selection line); auto.
Qed.

Lemma map_imap {A B C : Type} (g : B -> C) (h : A -> C) (l : list A) :
  forall f : nat -> A -> B,
    (forall k x, g (f k x) = h x) -> map g (imap f l) = map h l.
Proof.
  induction l as [|x l IH]; intros f Hf; [reflexivity|].
  rewrite imap_cons. cbn. rewrite Hf. f_equal. apply IH. intros k y. apply Hf.
Qed.

Lemma fold_lineAmount (lines : list CartLine.t) :
  forall total,
    (forall line, In line lines -> priced (CartLine.saree line)) ->
    fold_left (fun total item => add total (lineAmount item)) lines total
    = fold_left add (map finalPrice lines) total.
Proof.
  induction lines as [|line lines IH]; intros total H; [reflexivity|].
  cbn. rewrite lineAmount_finalPrice by (apply H; left; reflexivity).
  apply IH. intros l Hl. apply H. right. exact Hl.
Qed.

(** X9.  When the prices of the items in the cart are settled, the total
    that [calculateCartTotal] shows is the sum, in cart order, of the prices
    of the sales that checkout then records, one per line.  This holds
    whatever the addition of the host is. *)
Theorem cart_total_is_recorded :
  forall (clk : clock) (rnd : nat -> string) (st : state),
    (forall line, In line (cart st) -> priced (CartLine.saree line)) ->
    exists newSales,
      sales (completeSaleTransaction clk rnd st) = newSales ++ sales st
      /\ length newSales = length (cart st)
      /\ calculateCartTotal add st = fold_left add (map Sale.salePrice newSales) zero.
Proof.
  intros clk rnd st H.
  exists (imap (saleOf clk rnd (paymentMethod st)) (cart st)). split; [|split].
  - unfold completeSaleTransaction. destruct (cart st); reflexivity.
  - apply length_imap.
  - rewrite (map_imap Sale.salePrice finalPrice) by reflexivity.
    apply fold_lineAmount. exact H.
Qed.

End CartTotalProperties.

(** X9, on the sample cart, with the exact sum of decimals. *)
Lemma cart_total_is_recorded_witness :
  calculateCartTotal sampleAdd sampleCart = Dec 950 0
  /\ exists newSales,
      sales (completeSaleTransaction sampleClock sampleRnd sampleCart)
      = newSales ++ sales sampleCart
      /\ length newSales = length (cart sampleCart)
      /\ calculateCartTotal sampleAdd sampleCart
         = fold_left sampleAdd (map Sale.salePrice newSales) zero.
Proof.
  split; [reflexivity|].
  apply (cart_total_is_recorded sampleAdd sampleClock sampleRnd sampleCart).
  apply (pricesOk_run [AddSaree sampleClock sampleForm; AddSaree sampleClock sampleForm2;
                       ScanInput "SAR101"; ScanInput "SAR102"] initialState).
  apply pricesOk_initial.
Defined.

(** ** A sale and its return *)

Lemma withStatus_same (s : Saree.t) : Saree.withStatus s (Saree.status s) = s.
Proof. destruct s; reflexivity. Qed.

Lemma filter_all {A : Type} (p : A -> bool) (l : list A) :
  (forall x, In x l -> p x = true) -> List.filter p l = l.
Proof.
  induction l as [|x l IH]; intros H; [reflexivity|].
  cbn. rewrite (H x) by (left; reflexivity). f_equal. apply IH.
  intros y Hy. apply H. right. exact Hy.
Qed.

Lemma In_same_code (l : list Saree.t) (x y : Saree.t) :
  List.NoDup (codes l) -> In x l -> In y l -> Saree.code x = Saree.code y -> x = y.
Proof.
  induction l as [|z l IH]; cbn; intros Hn Hx Hy Hxy; [contradiction|].
  inversion Hn as [|? ? Hz Hl]; subst.
  destruct Hx as [Hx|Hx], Hy as [Hy|Hy]; try congruence.
  - exfalso. apply Hz. rewrite Hx, Hxy. apply in_map. exact Hy.
  - exfalso. apply Hz. rewrite Hy, <- Hxy. apply in_map. exact Hx.
  - auto.
Qed.

(** X10.  In a consistent ledger with an empty cart, scanning an available
    item, checking out and returning the item gives back the inventory and
    the sales log as they were (checkout having added one sale), and the
    cart is empty. *)
Theorem return_undoes_sale :
  forall (c : string) (st : state) (clk : clock) (rnd : nat -> string) (s : Saree.t),
    ledgerOk st ->
    cart st = [] ->
    List.find (Saree.hasCode c) (sarees st) = Some s ->
    Saree.status s = "available" ->
    exists st1,
      addToCart c st = (st1, true)
      /\ length (sales (completeSaleTransaction clk rnd st1)) = S (length (sales st))
      /\ let st3 := fst (processReturn c (completeSaleTransaction clk rnd st1)) in
         sarees st3 = sarees st /\ sales st3 = sales st /\ cart st3 = [].
Proof.
  intros c st clk rnd s (H1 & H2 & H3 & H4 & H5) Hcart Hf Hs.
  pose proof (find_In _ _ _ Hf) as [Hin Hh]. pose proof Hh as Hcode.
  apply hasCode_eq in Hcode.
  destruct (addToCart_succeeds c st s H1 Hin Hcode) as (st1 & E).
  { rewrite Hs. discriminate. }
  { rewrite Hcart. intros []. }
  exists st1. split; [exact E|].
  destruct (addToCart_true c st st1 E) as (s' & line & Hf' & _ & Hl & _ & _ & ->).
  assert (Hss : s' = s) by congruence. rewrite Hss in Hl. clear Hss Hf' s'.
  rewrite Hcart. cbn [app].
  assert (Hi : exists i, findIndex (Saree.hasCode c) (sarees st) = Some i
                         /\ sarees st !! i = Some s).
  { rewrite find_findIndex in Hf.
    destruct (findIndex (Saree.hasCode c) (sarees st)) as [i|]; [|discriminate].
    exists i. auto. }
  destruct Hi as (i & Hi & Hx).
  assert (Hm : markSold (sarees st) line = <[i := Saree.withStatus s "sold"]> (sarees st)).
  { unfold markSold. rewrite Hl, Hcode, Hi, Hx. reflexivity. }
  set (st1 := setNotification _ (setCart [line] st)).
  set (st2 := completeSaleTransaction clk rnd st1).
  assert (Hs2 : sarees st2 = <[i := Saree.withStatus s "sold"]> (sarees st)).
  { rewrite <- Hm. reflexivity. }
  assert (Hl2 : sales st2
                = saleOf clk rnd (paymentMethod st) 0 line :: sales st) by reflexivity.
  assert (Hc2 : cart st2 = []) by reflexivity.
  split; [rewrite Hl2; reflexivity|].
  assert (Hf2 : List.find (Saree.hasCode c) (sarees st2)
                = Some (Saree.withStatus s "sold")).
  { rewrite Hs2. apply find_insert_first; auto. }
  destruct (processReturn_success c st2 _ Hf2) as (j & Hj & E2 & _); [cbn; discriminate|].
  assert (j = i).
  { rewrite (findIndex_codes c (sarees st2) (sarees st)) in Hj; [congruence|].
    rewrite Hs2. apply codes_insert. exact Hx. }
  subst j. rewrite E2. cbn [fst sarees sales cart setNotification setSales setSarees].
  rewrite Hs2, Hl2, Hc2. split; [|split; [|reflexivity]].
  - rewrite list_insert_insert_eq.
    change (Saree.withStatus (Saree.withStatus s "sold") "available")
      with (Saree.withStatus s "available").
    rewrite <- Hs, withStatus_same. apply list_insert_id. exact Hx.
  - cbn [List.filter saleOf Sale.sareeCode]. rewrite Hl, Hcode, String.eqb_refl. cbn [negb].
    apply filter_all. intros sale Hsale. apply negb_true_iff, String.eqb_neq.
    intros Hc. destruct (H3 sale Hsale) as (x & Hxin & Hxc & Hxs).
    assert (x = s) by (apply (In_same_code (sarees st)); auto; congruence).
    subst x. rewrite Hs in Hxs. discriminate.
Qed.

(** X10, on the sample stock and the code SAR101. *)
Lemma return_undoes_sale_witness :
  exists st1,
    addToCart "SAR101" sampleStock = (st1, true)
    /\ length (sales (completeSaleTransaction sampleClock sampleRnd st1)) = 1
    /\ sarees (fst (processReturn "SAR101"
                      (completeSaleTransaction sampleClock sampleRnd st1)))
       = sarees sampleStock.
Proof.
  destruct (return_undoes_sale "SAR101" sampleStock sampleClock sampleRnd
              (Saree.mk "1700000000000" "SAR101" "Sharma Textiles" "SHARMA01" (Some "Silk")
                        (Dec 300 0) (Dec 500 0) (Dec 400 0) "available"
                        "2023-11-14T22:13:20.000Z"))
    as (st1 & E & Hlen & Hs & _).
  - apply (ledgerOk_run [AddSaree sampleClock sampleForm; AddSaree sampleClock sampleForm2]
                        initialState).
    apply ledgerOk_initial.
  - reflexivity.
  - reflexivity.
  - reflexivity.
  - exists st1. split; [exact E|]. split; [exact Hlen|exact Hs].
Defined.

(** ** The hidden trigger *)

Lemma taps_S n ui : taps (S n) ui = handleHiddenResetTrigger (taps n ui).
Proof. reflexivity. Qed.

Lemma taps_below_five n ui :
  devClickCount ui = 0 -> n < 5 ->
  devClickCount (taps n ui) = n /\ showResetModal (taps n ui) = showResetModal ui
  /\ resetPassword (taps n ui) = resetPassword ui.
Proof.
  intros H0. induction n as [|n IH]; intros Hn; [auto|].
  destruct IH as (Hc & Hs & Hp); [lia|].
  rewrite taps_S. unfold handleHiddenResetTrigger. rewrite Hc.
  destruct (Nat.leb_spec 5 (n + 1)); [lia|]. cbn. repeat split; auto. lia.
Qed.

Lemma taps_five ui :
  devClickCount ui = 0 -> taps 5 ui = ResetUi true EmptyString EmptyString 0.
Proof.
  intros H0. destruct (taps_below_five 4 ui H0) as (Hc & _); [lia|].
  rewrite taps_S. unfold handleHiddenResetTrigger. rewrite Hc. reflexivity.
Qed.

Lemma taps_open n ui :
  showResetModal ui = true -> showResetModal (taps n ui) = true.
Proof.
  intros H. induction n as [|n IH]; [exact H|].
  rewrite taps_S. unfold handleHiddenResetTrigger.
  destruct (_ <=? _)%nat; [reflexivity|exact IH].
Qed.

Lemma taps_add n m ui : taps (n + m) ui = taps n (taps m ui).
Proof. unfold taps. apply Nat.iter_add. Qed.

(** X11.  From rest (modal closed, count 0), a burst of [n] taps on the
    hidden trigger opens the reset modal exactly when [n] is at least 5; the
    fifth tap opens it with an empty PIN field and puts the count back to 0.
    Bursts of fewer than five taps, each followed by the pause of a second
    that lets the timer fire, never open it. *)
Theorem hidden_trigger_five_taps :
  forall (ui : resetUi),
    showResetModal ui = false ->
    devClickCount ui = 0%nat ->
    (forall n, showResetModal (taps n ui) = true <-> 5 <= n)
    /\ taps 5 ui = ResetUi true EmptyString EmptyString 0
    /\ (forall ns, Forall (fun n => n < 5) ns ->
          showResetModal (bursts ns ui) = false
          /\ devClickCount (bursts ns ui) = 0%nat).
Proof.
  intros ui Hs H0. split; [|split].
  - intros n. split.
    + intros Hopen. destruct (Nat.lt_ge_cases n 5) as [Hlt|]; [|assumption].
      destruct (taps_below_five n ui H0 Hlt) as (_ & Hs' & _). congruence.
    + intros Hn. replace n with ((n - 5) + 5) by lia. rewrite taps_add.
      apply taps_open. rewrite (taps_five ui H0). reflexivity.
  - apply taps_five. exact H0.
  - intros ns Hns. revert ui Hs H0.
    induction Hns as [|n ns Hn _ IH]; intros ui Hs H0; [auto|].
    cbn. apply IH; [|reflexivity].
    cbn. destruct (taps_below_five n ui H0 Hn) as (_ & Hs' & _). congruence.
Qed.

(** X11, on five taps, and on bursts of four, four and three taps. *)
Lemma hidden_trigger_five_taps_witness :
  showResetModal (taps 5 initialResetUi) = true
  /\ showResetModal (bursts [4; 4; 3] initialResetUi) = false.
Proof.
  destruct (hidden_trigger_five_taps initialResetUi eq_refl eq_refl) as (H1 & _ & H3).
  split.
  - apply H1. lia.
  - apply H3. repeat constructor; lia.
Defined.

(** ** The PIN and the reset *)

Lemma saveEffect_world st w :
  faults w = [] ->
  saveEffect st w
  = if isDBLoaded st
    then World (<["saree_sales" := SalesLog (sales st)]>
                  (<["saree_inventory" := Inventory (sarees st)]> (db w)))
               (localStorage w) []
    else w.
Proof.
  intros Hf. unfold saveEffect. destruct (isDBLoaded st); [|reflexivity].
  rewrite (setDBItem_ok "saree_inventory" _ w Hf). cbn [snd].
  now rewrite setDBItem_ok.
Qed.

(** With the PIN and a store that answers, the click ends where
    [performFactoryReset] alone ends: the save effect writes what the reset
    writes. *)
Lemma confirmReset_ok st ui w :
  resetPassword ui = RESET_PASSWORD ->
  faults w = [] ->
  confirmReset st ui w
  = (showNotification "All inventory and sales data cleared successfully." success
       (setCart [] (setSales [] (setSarees [] st))),
     ResetUi false (resetPassword ui) (passwordError ui) (devClickCount ui),
     World (<["saree_sales" := SalesLog []]> (<["saree_inventory" := Inventory []]> (db w)))
           (delete "saree_sales" (delete "saree_inventory" (localStorage w)))
           []).
Proof.
  intros Hp Hf. unfold confirmReset. apply String.eqb_eq in Hp. rewrite Hp.
  rewrite (setDBItem_ok _ _ w Hf). rewrite saveEffect_world by reflexivity.
  cbn [isDBLoaded setCart setSales setSarees sarees sales db localStorage].
  unfold bind. destruct (isDBLoaded st).
  - rewrite setDBItem_ok by reflexivity. cbn.
    rewrite insert_insert_eq. rewrite (insert_insert_eq (db w)). reflexivity.
  - rewrite setDBItem_ok by reflexivity. reflexivity.
Qed.

Lemma confirmReset_before_load st ui w :
  resetPassword ui = RESET_PASSWORD ->
  isDBLoaded st = false ->
  confirmReset st ui w = performFactoryReset st ui w.
Proof.
  intros Hp Hl. unfold confirmReset, performFactoryReset, saveEffect, bind.
  apply String.eqb_eq in Hp. rewrite Hp.
  cbn [isDBLoaded setCart setSales setSarees]. rewrite Hl.
  destruct (setDBItem "saree_inventory" (Inventory []) w) as [[[]|] w1]; reflexivity.
Qed.

(** X12.  The reset is behind the PIN.  With any other text in the PIN
    field the confirm button changes nothing but the error line.  With the
    PIN, and a durable store that answers, the inventory, the sales log and
    the cart are emptied, the durable store holds the two empty collections,
    the two legacy keys are removed, other keys of either store are left
    alone and the modal is closed.  With the PIN, and a durable store that
    rejects the first write of the reset and no other, memory is emptied and
    the reset stops: the modal stays, no notification is shown and the
    legacy store keeps its keys; but the save effect of the render that
    follows has stored the two empty collections all the same.  Before the
    load at start-up has ended the save effect does nothing, and the click
    is [performFactoryReset] alone: a rejected first write then leaves both
    stores as they were. *)
Theorem confirmReset_gate :
  forall (st : state) (ui : resetUi) (w : world),
    (resetPassword ui <> RESET_PASSWORD ->
     confirmReset st ui w
     = (st,
        ResetUi (showResetModal ui) (resetPassword ui) "Incorrect PIN" (devClickCount ui),
        w))
    /\ (resetPassword ui = RESET_PASSWORD ->
        faults w = [] ->
        let '(st', ui', w') := confirmReset st ui w in
        sarees st' = [] /\ sales st' = [] /\ cart st' = []
        /\ showResetModal ui' = false
        /\ db w' !! "saree_inventory" = Some (Inventory [])
        /\ db w' !! "saree_sales" = Some (SalesLog [])
        /\ localStorage w' !! "saree_inventory" = None
        /\ localStorage w' !! "saree_sales" = None
        /\ (forall k, k <> "saree_inventory" -> k <> "saree_sales" ->
              db w' !! k = db w !! k /\ localStorage w' !! k = localStorage w !! k))
    /\ (resetPassword ui = RESET_PASSWORD ->
        faults w = [true] ->
        isDBLoaded st = true ->
        let '(st', ui', w') := confirmReset st ui w in
        sarees st' = [] /\ sales st' = [] /\ cart st' = []
        /\ notification st' = notification st
        /\ ui' = ui
        /\ db w' !! "saree_inventory" = Some (Inventory [])
        /\ db w' !! "saree_sales" = Some (SalesLog [])
        /\ (forall k, k <> "saree_inventory" -> k <> "saree_sales" ->
              db w' !! k = db w !! k)
        /\ localStorage w' = localStorage w)
    /\ (resetPassword ui = RESET_PASSWORD ->
        isDBLoaded st = false ->
        confirmReset st ui w = performFactoryReset st ui w
        /\ ((exists rest, faults w = true :: rest) ->
            let '(st', ui', w') := confirmReset st ui w in
            sarees st' = [] /\ sales st' = [] /\ cart st' = []
            /\ ui' = ui
            /\ db w' = db w
            /\ localStorage w' = localStorage w)).
Proof.
  intros st ui w. split; [|split; [|split]].
  - intros H. unfold confirmReset. apply String.eqb_neq in H. rewrite H. reflexivity.
  - intros H Hf. rewrite (confirmReset_ok st ui w H Hf). cbn.
    repeat split; auto.
    + rewrite lookup_insert_ne by discriminate. apply lookup_insert_eq.
    + apply lookup_insert_eq.
    + rewrite lookup_delete_ne by discriminate. apply lookup_delete_eq.
    + apply lookup_delete_eq.
    + rewrite !lookup_insert_ne by congruence. reflexivity.
    + rewrite !lookup_delete_ne by congruence. reflexivity.
  - intros H Hf Hl. unfold confirmReset. apply String.eqb_eq in H. rewrite H.
    unfold setDBItem at 1. unfold request. rewrite Hf.
    rewrite saveEffect_world by reflexivity.
    cbn [isDBLoaded setCart setSales setSarees sarees sales db localStorage notification
         cart]. rewrite Hl.
    repeat split; auto.
    + cbn. rewrite lookup_insert_ne by discriminate. apply lookup_insert_eq.
    + cbn. apply lookup_insert_eq.
    + intros k Hk1 Hk2. cbn. rewrite !lookup_insert_ne by congruence. reflexivity.
  - intros H Hl. split; [exact (confirmReset_before_load st ui w H Hl)|].
    intros (rest & Hf). rewrite (confirmReset_before_load st ui w H Hl).
    unfold performFactoryReset, bind, setDBItem, request. rewrite Hf. cbn.
    repeat split; auto.
Qed.

(** X12, on a wrong PIN, on the PIN, and on the PIN with a store that
    rejects the first write. *)
Lemma confirmReset_gate_witness :
  confirmReset stockedState (changeResetPassword "1234" (taps 5 initialResetUi)) stockedWorld
  = (stockedState, ResetUi true "1234" "Incorrect PIN" 0, stockedWorld)
  /\ (let '(st', ui', w') :=
        confirmReset stockedState (changeResetPassword "9999" (taps 5 initialResetUi))
                     stockedWorld in
      sarees st' = [] /\ localStorage w' !! "saree_inventory" = None)
  /\ (let '(st', ui', w') :=
        confirmReset stockedState (changeResetPassword "9999" (taps 5 initialResetUi))
                     rejectingWorld in
      db w' !! "saree_inventory" = Some (Inventory [])
      /\ localStorage w' = localStorage rejectingWorld).
Proof.
  split; [|split].
  - refine (proj1 (confirmReset_gate stockedState
                     (changeResetPassword "1234" (taps 5 initialResetUi)) stockedWorld) _).
    discriminate.
  - pose proof (proj1 (proj2 (confirmReset_gate stockedState
                     (changeResetPassword "9999" (taps 5 initialResetUi)) stockedWorld))
                  eq_refl eq_refl) as H.
    destruct (confirmReset _ _ _) as [[st' ui'] w'].
    destruct H as (H1 & _ & _ & _ & _ & _ & H7 & _). split; assumption.
  - pose proof (proj1 (proj2 (proj2 (confirmReset_gate stockedState
                     (changeResetPassword "9999" (taps 5 initialResetUi)) rejectingWorld)))
                  eq_refl eq_refl eq_refl) as H.
    destruct (confirmReset _ _ _) as [[st' ui'] w'].
    destruct H as (_ & _ & _ & _ & _ & H6 & _ & _ & H9). split; assumption.
Defined.

(** ** Start-up *)

Section StartupMore.

Variable JSON_parse : string -> option stored.

Lemma loadDataTry_durable w a b :
  faults w = [] ->
  db w !! "saree_inventory" = Some a ->
  db w !! "saree_sales" = Some b ->
  loadDataTry JSON_parse w
  = (Resolved (fun st => useSales (Some b) (useSarees (Some a) st)), w).
Proof.
  intros Hf Ha Hb. unfold loadDataTry, bind.
  rewrite (getDBItem_ok _ w Hf). rewrite (getDBItem_ok _ w Hf).
  rewrite Ha, Hb. reflexivity.
Qed.

Lemma world_eq (w : world) : World (db w) (localStorage w) (faults w) = w.
Proof. destruct w; reflexivity. Qed.

Lemma saveEffect_same st w :
  faults w = [] ->
  isDBLoaded st = true ->
  db w !! "saree_inventory" = Some (Inventory (sarees st)) ->
  db w !! "saree_sales" = Some (SalesLog (sales st)) ->
  saveEffect st w = w.
Proof.
  intros Hf Hl Ha Hb. unfold saveEffect. rewrite Hl.
  rewrite (setDBItem_ok _ _ w Hf). cbn [snd].
  rewrite setDBItem_ok by reflexivity. cbn.
  rewrite (insert_id (db w) _ _ Ha). rewrite (insert_id (db w) _ _ Hb).
  rewrite <- Hf. apply world_eq.
Qed.

End StartupMore.

Lemma startup_durable JSON_parse st w items lines :
  faults w = [] ->
  db w !! "saree_inventory" = Some (Inventory items) ->
  db w !! "saree_sales" = Some (SalesLog lines) ->
  startup JSON_parse st w = (setIsDBLoaded true (setSales lines (setSarees items st)), w).
Proof.
  intros Hf Ha Hb. unfold startup, loadData.
  rewrite (loadDataTry_durable JSON_parse w _ _ Hf Ha Hb). cbn [useSales useSarees].
  rewrite saveEffect_same; auto.
Qed.

(** X13.  Once the durable store holds both collections, start-up shows
    them: the inventory and the sales log in memory are the stored ones
    whatever the legacy store holds, the world is left as it was, and starting
    up again changes nothing. *)
Theorem startup_prefers_durable :
  forall (JSON_parse : string -> option stored) (st : state) (w : world)
         (items : list Saree.t) (lines : list Sale.t),
    faults w = [] ->
    db w !! "saree_inventory" = Some (Inventory items) ->
    db w !! "saree_sales" = Some (SalesLog lines) ->
    let st' := fst (startup JSON_parse st w) in
    sarees st' = items
    /\ sales st' = lines
    /\ isDBLoaded st' = true
    /\ snd (startup JSON_parse st w) = w
    /\ startup JSON_parse st' w = (st', w).
Proof.
  intros JSON_parse st w items lines Hf Ha Hb. cbn.
  rewrite !(startup_durable JSON_parse _ w items lines Hf Ha Hb).
  cbn. repeat split; auto.
Qed.

(** X13, on a durable store with both collections beside a legacy text that is not JSON. *)
Lemma startup_prefers_durable_witness :
  sarees (fst (startup sampleParse initialState durableWorld)) = threeItems
  /\ snd (startup sampleParse initialState durableWorld) = durableWorld.
Proof.
  assert (Ha : db durableWorld !! "saree_inventory" = Some (Inventory threeItems))
    by (cbn; reflexivity).
  assert (Hb : db durableWorld !! "saree_sales" = Some (SalesLog []))
    by (cbn; reflexivity).
  destruct (startup_prefers_durable sampleParse initialState durableWorld
              threeItems [] eq_refl Ha Hb) as (H1 & _ & _ & H4 & _).
  split; assumption.
Defined.

(** X14.  What the save effect stored is what the next load shows: after
    the save effect of a loaded state, with a durable store that answers, a
    load into any state gives that state's inventory and sales log, and
    leaves the world as the save left it; the save does not touch the legacy
    store. *)
Theorem save_then_load :
  forall (JSON_parse : string -> option stored) (st st0 : state) (w : world),
    faults w = [] ->
    isDBLoaded st = true ->
    let w' := saveEffect st w in
    sarees (fst (loadData JSON_parse st0 w')) = sarees st
    /\ sales (fst (loadData JSON_parse st0 w')) = sales st
    /\ isDBLoaded (fst (loadData JSON_parse st0 w')) = true
    /\ snd (loadData JSON_parse st0 w') = w'
    /\ localStorage w' = localStorage w.
Proof.
  intros JSON_parse st st0 w Hf Hl. cbn.
  assert (Hw : saveEffect st w
               = World (<["saree_sales" := SalesLog (sales st)]>
                          (<["saree_inventory" := Inventory (sarees st)]> (db w)))
                       (localStorage w) []).
  { unfold saveEffect. rewrite Hl. rewrite (setDBItem_ok _ _ w Hf). cbn [snd].
    rewrite setDBItem_ok by reflexivity. reflexivity. }
  rewrite Hw. unfold loadData.
  rewrite (loadDataTry_durable JSON_parse _ (Inventory (sarees st)) (SalesLog (sales st)));
    [cbn; repeat split; auto|reflexivity| |].
  - cbn. rewrite lookup_insert_ne by discriminate. apply lookup_insert_eq.
  - cbn. apply lookup_insert_eq.
Qed.

(** X14, on a loaded state with three items. *)
Lemma save_then_load_witness :
  sarees (fst (loadData sampleParse initialState (saveEffect stockedState legacyWorld)))
  = threeItems.
Proof.
  exact (proj1 (save_then_load sampleParse stockedState initialState legacyWorld
                  eq_refl eq_refl)).
Defined.

(** X15.  A reset is still there after a reload: after a reset confirmed
    with the PIN, start-up gives an empty inventory and an empty sales log,
    whatever the legacy store held before the reset, and changes nothing in
    the world. *)
Theorem reset_survives_reload :
  forall (JSON_parse : string -> option stored) (st st0 : state) (ui : resetUi) (w : world),
    resetPassword ui = RESET_PASSWORD ->
    faults w = [] ->
    let w' := snd (confirmReset st ui w) in
    let st' := fst (startup JSON_parse st0 w') in
    sarees st' = [] /\ sales st' = [] /\ isDBLoaded st' = true
    /\ snd (startup JSON_parse st0 w') = w'.
Proof.
  intros JSON_parse st st0 ui w Hp Hf. cbn.
  rewrite (confirmReset_ok st ui w Hp Hf). cbn [snd].
  rewrite (startup_durable JSON_parse st0
             (World (<["saree_sales" := SalesLog []]>
                       (<["saree_inventory" := Inventory []]> (db w)))
                    (delete "saree_sales" (delete "saree_inventory" (localStorage w))) [])
             [] [] eq_refl).
  - cbn. repeat split.
  - cbn. rewrite lookup_insert_ne by discriminate. apply lookup_insert_eq.
  - cbn. apply lookup_insert_eq.
Qed.

(** X15, on a legacy store that holds an inventory. *)
Lemma reset_survives_reload_witness :
  legacyHolds sampleParse stockedWorld "saree_inventory" (Inventory threeItems)
  /\ sarees (fst (startup sampleParse initialState
                    (snd (confirmReset stockedState
                            (changeResetPassword "9999" initialResetUi) stockedWorld))))
     = [].
Proof.
  split.
  - exists legacyText. repeat split.
  - exact (proj1 (reset_survives_reload sampleParse stockedState initialState
                    (changeResetPassword "9999" initialResetUi) stockedWorld
                    eq_refl eq_refl)).
Defined.

Lemma keepsLegacy_bind {A B : Type} (m : io A) (k : A -> io B) :
  keepsLegacy m -> (forall a, keepsLegacy (k a)) -> keepsLegacy (bind m k).
Proof.
  intros Hm Hk w. unfold bind. specialize (Hm w).
  destruct (m w) as [[a|] w1]; cbn in *; [|exact Hm].
  rewrite Hk. exact Hm.
Qed.

Lemma keepsLegacy_ret {A : Type} (a : A) : keepsLegacy (ret a).
Proof. intros w. reflexivity. Qed.

Lemma keepsLegacy_getDBItem key : keepsLegacy (getDBItem key).
Proof.
  intros w. unfold getDBItem, request.
  destruct (faults w) as [|[] rest]; reflexivity.
Qed.

Lemma keepsLegacy_setDBItem key v : keepsLegacy (setDBItem key v).
Proof.
  intros w. unfold setDBItem, request.
  destruct (faults w) as [|[] rest]; reflexivity.
Qed.

Lemma keepsLegacy_migrate JSON_parse key saved : keepsLegacy (migrate JSON_parse key saved).
Proof.
  unfold migrate. destruct saved; [apply keepsLegacy_ret|].
  apply keepsLegacy_bind; [intros w; reflexivity|].
  intros [text|]; [|apply keepsLegacy_ret].
  destruct (JsString.truthy text); [|apply keepsLegacy_ret].
  apply keepsLegacy_bind.
  - unfold parseJSON. destruct (JSON_parse text); intros w; reflexivity.
  - intros v. apply keepsLegacy_bind; [apply keepsLegacy_setDBItem|].
    intros _. apply keepsLegacy_ret.
Qed.

Lemma keepsLegacy_loadDataTry JSON_parse : keepsLegacy (loadDataTry JSON_parse).
Proof.
  unfold loadDataTry.
  apply keepsLegacy_bind; [apply keepsLegacy_getDBItem|]. intros a.
  apply keepsLegacy_bind; [apply keepsLegacy_getDBItem|]. intros b.
  apply keepsLegacy_bind; [apply keepsLegacy_migrate|]. intros a'.
  apply keepsLegacy_bind; [apply keepsLegacy_migrate|]. intros b'.
  apply keepsLegacy_ret.
Qed.

Lemma keepsLegacy_saveEffect st w : localStorage (saveEffect st w) = localStorage w.
Proof.
  unfold saveEffect. destruct (isDBLoaded st); [|reflexivity].
  rewrite keepsLegacy_setDBItem. apply keepsLegacy_setDBItem.
Qed.

Lemma useSarees_frame saved st :
  sales (useSarees saved st) = sales st
  /\ cart (useSarees saved st) = cart st
  /\ notification (useSarees saved st) = notification st
  /\ scanMode (useSarees saved st) = scanMode st.
Proof. destruct saved as [[]|]; repeat split. Qed.

Lemma useSales_frame saved st :
  sarees (useSales saved st) = sarees st
  /\ cart (useSales saved st) = cart st
  /\ notification (useSales saved st) = notification st
  /\ scanMode (useSales saved st) = scanMode st.
Proof. destruct saved as [[]|]; repeat split. Qed.

(** X16.  Start-up always ends with [isDBLoaded] set, also when the load
    threw; it never changes the legacy store, the cart or the notification;
    and as long as [isDBLoaded] is not set the save effect writes nothing. *)
Theorem startup_frame :
  forall (JSON_parse : string -> option stored) (st : state) (w : world),
    isDBLoaded (fst (startup JSON_parse st w)) = true
    /\ localStorage (snd (startup JSON_parse st w)) = localStorage w
    /\ cart (fst (startup JSON_parse st w)) = cart st
    /\ notification (fst (startup JSON_parse st w)) = notification st
    /\ (isDBLoaded st = false -> saveEffect st w = w).
Proof.
  intros JSON_parse st w. unfold startup, loadData.
  pose proof (keepsLegacy_loadDataTry JSON_parse w) as Hl.
  assert (Hlast : isDBLoaded st = false -> saveEffect st w = w).
  { intros H. unfold saveEffect. rewrite H. reflexivity. }
  destruct (loadDataTry JSON_parse w) as [[updates|] w1] eqn:E;
    cbn in Hl; cbn -[saveEffect].
  - rewrite keepsLegacy_saveEffect. repeat split; auto.
    + unfold loadDataTry, bind in E.
      destruct (getDBItem "saree_inventory" w) as [[a|] wa]; [|discriminate].
      destruct (getDBItem "saree_sales" wa) as [[b|] wb]; [|discriminate].
      destruct (migrate JSON_parse "saree_inventory" a wb) as [[a'|] wc]; [|discriminate].
      destruct (migrate JSON_parse "saree_sales" b wc) as [[b'|] wd]; [|discriminate].
      injection E as <- _.
      rewrite (proj1 (proj2 (useSales_frame _ _))).
      apply (proj1 (proj2 (useSarees_frame _ _))).
    + unfold loadDataTry, bind in E.
      destruct (getDBItem "saree_inventory" w) as [[a|] wa]; [|discriminate].
      destruct (getDBItem "saree_sales" wa) as [[b|] wb]; [|discriminate].
      destruct (migrate JSON_parse "saree_inventory" a wb) as [[a'|] wc]; [|discriminate].
      destruct (migrate JSON_parse "saree_sales" b wc) as [[b'|] wd]; [|discriminate].
      injection E as <- _.
      rewrite (proj1 (proj2 (proj2 (useSales_frame _ _)))).
      apply (proj1 (proj2 (proj2 (useSarees_frame _ _)))).
  - rewrite keepsLegacy_saveEffect. repeat split; auto.
Qed.

(** X16, on the legacy store of three items. *)
Lemma startup_frame_witness :
  saveEffect initialState legacyWorld = legacyWorld
  /\ localStorage (snd (startup sampleParse initialState legacyWorld))
     = localStorage legacyWorld.
Proof.
  split.
  - exact (proj2 (proj2 (proj2 (proj2 (startup_frame sampleParse initialState legacyWorld))))
             eq_refl).
  - exact (proj1 (proj2 (startup_frame sampleParse initialState legacyWorld))).
Defined.

(** X17.  When the load throws (a request rejected, or a legacy text that
    is not JSON) and the durable store answers afterwards, memory keeps the
    collections it had, and the save effect then stores them under both keys,
    in place of what the durable store held. *)
Theorem startup_failure_overwrites :
  forall (JSON_parse : string -> option stored) (st : state) (w w1 : world),
    loadDataTry JSON_parse w = (Rejected, w1) ->
    faults w1 = [] ->
    fst (startup JSON_parse st w) = setIsDBLoaded true st
    /\ db (snd (startup JSON_parse st w)) !! "saree_inventory" = Some (Inventory (sarees st))
    /\ db (snd (startup JSON_parse st w)) !! "saree_sales" = Some (SalesLog (sales st))
    /\ localStorage (snd (startup JSON_parse st w)) = localStorage w.
Proof.
  intros JSON_parse st w w1 E Hf. unfold startup, loadData. rewrite E. cbn [fst snd].
  split; [reflexivity|].
  rewrite (saveEffect_ok (setIsDBLoaded true st) w1 Hf eq_refl).
  split; [|split].
  - rewrite lookup_insert_ne by discriminate. apply lookup_insert_eq.
  - apply lookup_insert_eq.
  - rewrite keepsLegacy_saveEffect.
    pose proof (keepsLegacy_loadDataTry JSON_parse w) as Hl. rewrite E in Hl. exact Hl.
Qed.

(** X17, on a durable store that holds an inventory and rejects the first request. *)
Lemma startup_failure_overwrites_witness :
  db lostWorld !! "saree_inventory" = Some (Inventory threeItems)
  /\ db (snd (startup sampleParse initialState lostWorld)) !! "saree_inventory"
     = Some (Inventory []).
Proof.
  split; [reflexivity|].
  exact (proj1 (proj2 (startup_failure_overwrites sampleParse initialState lostWorld
                         (World {["saree_inventory" := Inventory threeItems]} ∅ [])
                         eq_refl eq_refl))).
Defined.

(** ** The row parser on rows without quotes *)

Lemma split_nonempty (sep : ascii) (s : string) : split sep s <> [].
Proof.
  induction s as [|c r IH]; cbn; [discriminate|].
  destruct (Ascii.eqb c sep); [discriminate|].
  destruct (split sep r); [contradiction|discriminate].
Qed.

Lemma parseCells_plain (d : ascii) (str : string) :
  includesChar str dquote = false ->
  forall cell result,
    parseCells d str cell false result
    = result ++ map trim (match split d str with
                          | h :: t => (cell +:+ h) :: t
                          | [] => [cell]
                          end).
Proof.
  induction str as [|c r IH]; intros Hq cell result.
  - cbn. rewrite append_nil_r. reflexivity.
  - cbn in Hq. apply orb_false_iff in Hq. destruct Hq as [Hc Hr].
    cbn [parseCells split]. rewrite Hc.
    destruct (Ascii.eqb c d) eqn:Hd; cbn [andb negb].
    + rewrite (IH Hr). rewrite append_nil_r.
      destruct (split d r) as [|h t] eqn:Hs; [exfalso; eapply split_nonempty; eauto|].
      rewrite append_nil_l. rewrite <- app_assoc. reflexivity.
    + rewrite (IH Hr).
      destruct (split d r) as [|h t] eqn:Hs; [exfalso; eapply split_nonempty; eauto|].
      rewrite append_assoc. reflexivity.
Qed.

Lemma parseCSVRow_split (delimiter : ascii) (row : string) :
  includesChar row dquote = false ->
  parseCSVRow delimiter row = map trim (split delimiter row).
Proof.
  intros Hq. unfold parseCSVRow. rewrite (parseCells_plain delimiter row Hq). cbn [app].
  destruct (split delimiter row) eqn:Hs; [exfalso; eapply split_nonempty; eauto|].
  rewrite append_nil_l. reflexivity.
Qed.

(** X18.  A row without a quote character is cut at every delimiter and
    each cell is trimmed: the row parser gives the trimmed pieces of
    [split], one more than the row has delimiters. *)
Theorem parseCSVRow_plain_row :
  forall (delimiter : ascii) (row : string),
    includesChar row dquote = false ->
    parseCSVRow delimiter row = map trim (split delimiter row)
    /\ length (parseCSVRow delimiter row)
       = S (String.length (filterChars (Ascii.eqb delimiter) row)).
Proof.
  intros d row Hq. rewrite (parseCSVRow_split d row Hq). split; [reflexivity|].
  rewrite length_map. clear.
  induction row as [|c r IH]; [reflexivity|].
  cbn. rewrite (Ascii.eqb_sym d c).
  destruct (Ascii.eqb c d); cbn; [rewrite IH; reflexivity|].
  destruct (split d r) eqn:Hs; [exfalso; eapply split_nonempty; eauto|].
  cbn in *. exact IH.
Qed.

(** X18, on a row cut at pipes, with a comma in a cell. *)
Lemma parseCSVRow_plain_row_witness :
  parseCSVRow pipe " A1 | Sharma, Textiles |200 " = ["A1"; "Sharma, Textiles"; "200"].
Proof.
  rewrite (proj1 (parseCSVRow_plain_row pipe " A1 | Sharma, Textiles |200 " eq_refl)).
  reflexivity.
Defined.

(** ** What an import adds *)

Lemma importLoop_Forall (P : Saree.t -> Prop) clk delimiter cols stock rows :
  (forall i row c,
      rowCode delimiter cols row = Some c ->
      P (rowSaree clk cols i c (parseCSVRow delimiter row))) ->
  forall i acc,
    (forall s, In s (newSarees acc) -> P s) ->
    forall s, In s (newSarees (importLoop clk delimiter cols stock i rows acc)) -> P s.
Proof.
  intros HP. induction rows as [|row rows IH]; intros i acc Hacc; cbn; [exact Hacc|].
  apply IH. unfold importRow.
  destruct (rowCode delimiter cols row) as [c|] eqn:Hc; [|exact Hacc].
  destruct (_ || _); cbn; [exact Hacc|].
  intros s Hin. apply in_app_or in Hin. destruct Hin as [Hin|[<-|[]]]; [auto|].
  apply HP. exact Hc.
Qed.

Lemma upperChar_not_quote (c : ascii) :
  Ascii.eqb c dquote = false -> Ascii.eqb (upperChar c) dquote = false.
Proof. destruct c as [[] [] [] [] [] [] [] []]; intros H; try reflexivity; discriminate H. Qed.

Lemma includesChar_removeQuotes (s : string) :
  includesChar (toUpperCase (removeQuotes s)) dquote = false.
Proof.
  induction s as [|c r IH]; [reflexivity|].
  cbn. destruct (Ascii.eqb c dquote) eqn:E; cbn; [exact IH|].
  rewrite (upperChar_not_quote c E). exact IH.
Qed.

Lemma rowSaree_imported clk delimiter cols i row c :
  rowCode delimiter cols row = Some c ->
  imported (rowSaree clk cols i c (parseCSVRow delimiter row)).
Proof.
  intros H. unfold rowCode in H.
  destruct (negb _); [discriminate|].
  destruct (parseCSVRow delimiter row !! codeIdx cols) as [v|]; [|discriminate].
  destruct (JsString.truthy (toUpperCase (removeQuotes v))) eqn:Ht; [|discriminate].
  injection H as <-. unfold imported. cbn.
  split; [exact Ht|]. split; [apply toUpperCase_idempotent|].
  split; [apply includesChar_removeQuotes|]. split; [reflexivity|].
  destruct (rowStatus_cases cols (parseCSVRow delimiter row)) as [E|[E _]]; auto.
Qed.

Lemma onload_frame clk text closure st :
  sales (onload clk text closure st) = sales st
  /\ cart (onload clk text closure st) = cart st
  /\ exists new,
      sarees (onload clk text closure st) = new ++ sarees st
      /\ List.NoDup (codes new)
      /\ (forall s, In s new -> imported s /\ ~ In (Saree.code s) (codes closure)).
Proof.
  unfold onload.
  destruct (findColumns _) as [cols|].
  2:{ cbn. repeat split; try reflexivity. exists []. cbn.
      repeat split; auto using List.NoDup_nil; contradiction. }
  destruct (importBatch_added clk (detectDelimiter text) cols closure
              (tl (split newline text))) as (_ & Hc & Hn).
  match goal with |- context [if ?b then _ else _] => destruct b end;
    cbn; repeat split; try reflexivity.
  - eexists. split; [reflexivity|]. split; [exact Hn|].
    intros s Hin. split.
    + revert s Hin. unfold importBatch. apply importLoop_Forall.
      * intros i row c. apply rowSaree_imported.
      * intros s [].
    + eapply acceptedRows_fresh. rewrite <- Hc. apply in_map. exact Hin.
  - exists []. cbn. repeat split; auto using List.NoDup_nil; contradiction.
Qed.

Lemma NoDup_app_common (l l' : list string) (c : string) :
  In c l -> In c l' -> ~ List.NoDup (l ++ l').
Proof.
  induction l as [|d l IH]; cbn; intros Hl Hl' Hn; [contradiction|].
  inversion Hn as [|? ? Hd Hn']; subst.
  destruct Hl as [->|Hl]; [|now apply IH].
  apply Hd. apply in_or_app. now right.
Qed.

(** X19.  The load callback of an import only adds: the sales log and the
    cart stay, and the inventory that the callback finds is kept behind the
    new items.  Every new item has a code that is not empty, in upper case
    and without a quote, that no other new item has and that was not in the
    inventory of the render in which the file was chosen; it has no cloth
    type, and its status is the text available or a text that contains sold.
    So codes that were unique stay unique when the inventory that the
    callback finds has no code that the render of the choice did not have;
    but a new item whose code came into the inventory in between is then
    there twice.  When no header names the code column only the error
    notification is set. *)
Theorem import_adds_new_codes :
  forall (clk : clock) (text : string) (closure : list Saree.t) (st : state),
    let st' := onload clk text closure st in
    sales st' = sales st
    /\ cart st' = cart st
    /\ (exists new,
          sarees st' = new ++ sarees st
          /\ List.NoDup (codes new)
          /\ (forall s, In s new -> imported s /\ ~ In (Saree.code s) (codes closure))
          /\ (forall s, In s new -> In (Saree.code s) (codes (sarees st)) ->
                ~ List.NoDup (codes (sarees st'))))
    /\ (List.NoDup (codes (sarees st)) ->
        (forall c, In c (codes (sarees st)) -> In c (codes closure)) ->
        List.NoDup (codes (sarees st')))
    /\ (findIndex isCode
          (readHeaders (detectDelimiter text) (hd EmptyString (split newline text))) = None ->
        st' = setNotification (Some (Notif missingColumnMessage error)) st).
Proof.
  intros clk text closure st. cbn.
  destruct (onload_frame clk text closure st) as (Hs & Hc & new & Hnew & Hn & Hfresh).
  split; [exact Hs|]. split; [exact Hc|]. split; [|split].
  - exists new. split; [exact Hnew|]. split; [exact Hn|]. split; [exact Hfresh|].
    intros s Hin Hold. rewrite Hnew, codes_app.
    apply (NoDup_app_common _ _ (Saree.code s)); [|exact Hold].
    apply in_map. exact Hin.
  - intros Hst Hsub. rewrite Hnew. apply NoDup_codes_app; auto.
    intros c Hin Hold. apply in_map_iff in Hin. destruct Hin as (s & <- & Hin).
    apply (proj2 (Hfresh s Hin)). apply Hsub. exact Hold.
  - intros Hcode. unfold onload, findColumns. rewrite Hcode. reflexivity.
Qed.

(** X19, on the file with duplicate codes: loaded in the render of its
    choice, and loaded after the two items of the stock were added. *)
Lemma import_adds_new_codes_witness :
  codes (sarees (onload sampleClock duplicateCsv (sarees sampleStock) sampleStock))
  = ["A1"; "SAR102"; "SAR101"]
  /\ List.NoDup
       (codes (sarees (onload sampleClock duplicateCsv (sarees sampleStock) sampleStock)))
  /\ codes (sarees (onload sampleClock duplicateCsv [] sampleStock))
     = ["A1"; "SAR101"; "SAR102"; "SAR101"]
  /\ ~ List.NoDup (codes (sarees (onload sampleClock duplicateCsv [] sampleStock))).
Proof.
  split; [reflexivity|]. split; [|split; [reflexivity|]].
  - apply (proj1 (proj2 (proj2 (proj2
             (import_adds_new_codes sampleClock duplicateCsv (sarees sampleStock)
                sampleStock))))).
    + cbn. repeat constructor; cbn; intuition discriminate.
    + intros c Hc. exact Hc.
  - destruct (proj1 (proj2 (proj2
                (import_adds_new_codes sampleClock duplicateCsv [] sampleStock))))
      as (new & Hnew & _ & _ & Hdup).
    assert (Hnew' : new ++ sarees sampleStock
                    = firstn 2 (sarees (onload sampleClock duplicateCsv [] sampleStock))
                      ++ sarees sampleStock) by (rewrite <- Hnew; reflexivity).
    apply app_inv_tail in Hnew'.
    apply (Hdup (nth 1 new (Saree.mk "" "" "" "" None zero zero zero "" ""))).
    + rewrite Hnew'. cbn. right. left. reflexivity.
    + rewrite Hnew'. cbn. right. left. reflexivity.
Defined.

(** ** Windows line ends *)

Lemma trimEnd_space_end (s : string) (w : ascii) :
  isWhiteSpace w = true -> trimEnd (s +:+ String w EmptyString) = trimEnd s.
Proof.
  intros Hw. induction s as [|c r IH].
  - rewrite append_nil_l. cbn. rewrite Hw. reflexivity.
  - rewrite append_cons. cbn [trimEnd]. rewrite IH. reflexivity.
Qed.

Lemma trim_withCR (s : string) : trim (withCR s) = trim s.
Proof. unfold trim, withCR. rewrite trimEnd_space_end; reflexivity. Qed.

Lemma withCR_cons (c : ascii) (r : string) : withCR (String c r) = String c (withCR r).
Proof. apply append_cons. Qed.

Lemma parseCells_withCR (d : ascii) :
  Ascii.eqb carriageReturn d = false ->
  forall n row,
    String.length row <= n ->
    forall cell inQuotes result,
      parseCells d (withCR row) cell inQuotes result
      = parseCells d row cell inQuotes result.
Proof.
  intros Hd.
  assert (Hbase : forall cell inQuotes result,
             parseCells d (withCR EmptyString) cell inQuotes result
             = parseCells d EmptyString cell inQuotes result).
  { intros cell q result. unfold withCR. rewrite append_nil_l.
    cbn [parseCells]. change (Ascii.eqb carriageReturn dquote) with false.
    cbv iota. rewrite Hd. cbn [andb parseCells].
    change (cell +:+ String carriageReturn EmptyString) with (withCR cell).
    rewrite trim_withCR. reflexivity. }
  induction n as [|n IH]; intros row Hlen cell q result.
  - destruct row; [apply Hbase|cbn in Hlen; lia].
  - destruct row as [|c r]; [apply Hbase|].
    cbn in Hlen. rewrite withCR_cons.
    destruct (Ascii.eqb c dquote) eqn:Hc.
    + apply Ascii.eqb_eq in Hc. subst c. destruct r as [|next r'].
      * change (withCR EmptyString) with (String carriageReturn EmptyString).
        rewrite parseCells_quote_other by reflexivity.
        apply (Hbase cell (negb q) result).
      * rewrite withCR_cons. cbn in Hlen.
        destruct (Ascii.eqb next dquote) eqn:Hn.
        -- apply Ascii.eqb_eq in Hn. subst next.
           rewrite !parseCells_quote_quote. apply IH. lia.
        -- rewrite !parseCells_quote_other by exact Hn.
           rewrite <- withCR_cons. apply IH. cbn. lia.
    + cbn [parseCells]. rewrite Hc.
      destruct (Ascii.eqb c d && negb q); apply IH; lia.
Qed.

Lemma parseCSVRow_withCR (d : ascii) (row : string) :
  Ascii.eqb carriageReturn d = false -> parseCSVRow d (withCR row) = parseCSVRow d row.
Proof. intros Hd. apply (parseCells_withCR d Hd (String.length row)). lia. Qed.

Lemma detectDelimiter_not_CR (text : string) :
  Ascii.eqb carriageReturn (detectDelimiter text) = false.
Proof. unfold detectDelimiter. destruct (includesChar text pipe); reflexivity. Qed.

Lemma importRow_withCR clk d cols stock acc i row row' :
  Ascii.eqb carriageReturn d = false ->
  row' = row \/ row' = withCR row ->
  importRow clk d cols stock acc i row' = importRow clk d cols stock acc i row.
Proof.
  intros Hd [->| ->]; [reflexivity|].
  unfold importRow, rowCode. rewrite trim_withCR, (parseCSVRow_withCR d row Hd). reflexivity.
Qed.

Lemma importLoop_sameRows clk d cols stock rows rows' :
  Ascii.eqb carriageReturn d = false ->
  sameRows rows rows' ->
  forall i acc,
    importLoop clk d cols stock i rows' acc = importLoop clk d cols stock i rows acc.
Proof.
  intros Hd H. induction H as [|r r' rows rows' Hr _ IH]; intros i acc; [reflexivity|].
  cbn. rewrite (importRow_withCR clk d cols stock acc i r r' Hd Hr). apply IH.
Qed.

Lemma includesChar_join (c : ascii) (sep : string) (l : list string) :
  includesChar (join sep l) c
  = existsb (fun s => includesChar s c) l
    || (includesChar sep c && (1 <? length l)%nat).
Proof.
  induction l as [|x l IH]; [cbn; rewrite andb_false_r; reflexivity|].
  destruct l as [|y l].
  - cbn. rewrite andb_false_r, !orb_false_r. reflexivity.
  - rewrite join_cons, !includesChar_app, IH. cbn [existsb length].
    destruct (includesChar x c), (includesChar y c), (includesChar sep c),
      (existsb (fun s => includesChar s c) l); cbn; try reflexivity;
      destruct l; reflexivity.
Qed.

Lemma includesChar_withCR (s : string) (c : ascii) :
  Ascii.eqb carriageReturn c = false -> includesChar (withCR s) c = includesChar s c.
Proof.
  intros Hc. unfold withCR. rewrite includesChar_app. cbn [includesChar]. rewrite Hc.
  rewrite !orb_false_r. reflexivity.
Qed.

Lemma sameRows_includesChar (c : ascii) (rows rows' : list string) :
  Ascii.eqb carriageReturn c = false ->
  sameRows rows rows' ->
  existsb (fun s => includesChar s c) rows' = existsb (fun s => includesChar s c) rows
  /\ length rows' = length rows.
Proof.
  intros Hc H. induction H as [|r r' rows rows' Hr _ [IH1 IH2]]; [auto|].
  cbn. rewrite IH1, IH2. split; [|reflexivity]. f_equal.
  destruct Hr as [->| ->]; [reflexivity|]. apply includesChar_withCR. exact Hc.
Qed.

Lemma sameRows_fileOf (c : ascii) (rows rows' : list string) :
  Ascii.eqb carriageReturn c = false ->
  sameRows rows rows' ->
  includesChar (fileOf rows') c = includesChar (fileOf rows) c.
Proof.
  intros Hc H. unfold fileOf. rewrite !includesChar_join.
  destruct (sameRows_includesChar c rows rows' Hc H) as [-> ->]. reflexivity.
Qed.

(** X20.  A file with Windows line ends imports like the same file without
    them: when the rows of two files differ only by a carriage return at the
    end of some rows, importing either gives the same state. *)
Theorem import_tolerates_crlf :
  forall (clk : clock) (st : state) (rows rows' : list string),
    rows <> [] ->
    Forall (fun r => includesChar r newline = false) rows ->
    sameRows rows rows' ->
    split newline (fileOf rows') = rows'
    /\ handleFileUpload clk (fileOf rows') st = handleFileUpload clk (fileOf rows) st.
Proof.
  intros clk st rows rows' Hne Hnl Hsame.
  assert (Hne' : rows' <> []).
  { destruct Hsame; [contradiction|discriminate]. }
  assert (Hnl' : Forall (fun r => includesChar r newline = false) rows').
  { clear Hne Hne'. induction Hsame as [|r r' rows rows' Hr _ IH]; [constructor|].
    inversion Hnl; subst. constructor; [|auto].
    destruct Hr as [->| ->]; [assumption|].
    rewrite includesChar_withCR by reflexivity. assumption. }
  assert (Hs' : split newline (fileOf rows') = rows') by (apply split_join; assumption).
  split; [exact Hs'|].
  unfold handleFileUpload, onload. rewrite Hs'.
  pose proof (split_join rows Hne Hnl) as Hs. fold (fileOf rows) in Hs. rewrite Hs.
  assert (Hd : detectDelimiter (fileOf rows') = detectDelimiter (fileOf rows)).
  { unfold detectDelimiter. rewrite (sameRows_fileOf pipe rows rows'); auto. }
  rewrite Hd.
  pose proof (detectDelimiter_not_CR (fileOf rows)) as Hcr.
  assert (Hh : readHeaders (detectDelimiter (fileOf rows)) (hd EmptyString rows')
               = readHeaders (detectDelimiter (fileOf rows)) (hd EmptyString rows)).
  { destruct Hsame as [|r r' ? ? [->| ->] _]; try reflexivity.
    unfold readHeaders. cbn [hd]. rewrite parseCSVRow_withCR by exact Hcr. reflexivity. }
  rewrite Hh. destruct (findColumns _) as [cols|]; [|reflexivity].
  assert (Hb : importBatch clk (detectDelimiter (fileOf rows)) cols (sarees st) (tl rows')
               = importBatch clk (detectDelimiter (fileOf rows)) cols (sarees st) (tl rows)).
  { unfold importBatch. apply importLoop_sameRows; [exact Hcr|].
    destruct Hsame; [constructor|assumption]. }
  rewrite Hb. reflexivity.
Qed.

(** X20, on a file of three rows and an empty last row. *)
Lemma import_tolerates_crlf_witness :
  handleFileUpload sampleClock
    (fileOf [withCR "Product_Code,Item_Status"; withCR "CODE_A,"; withCR "CODE_B,sold"; ""])
    initialState
  = handleFileUpload sampleClock
      (fileOf ["Product_Code,Item_Status"; "CODE_A,"; "CODE_B,sold"; ""]) initialState
  /\ map (fun s => (Saree.code s, Saree.status s))
         (sarees (handleFileUpload sampleClock
                    (fileOf ["Product_Code,Item_Status"; "CODE_A,"; "CODE_B,sold"; ""])
                    initialState))
     = [("CODE_A", "available"); ("CODE_B", "sold")].
Proof.
  split; [|reflexivity].
  refine (proj2 (import_tolerates_crlf sampleClock initialState
                   ["Product_Code,Item_Status"; "CODE_A,"; "CODE_B,sold"; ""] _ _ _ _)).
  - discriminate.
  - repeat constructor.
  - repeat (constructor; [first [left; reflexivity | right; reflexivity]|]).
    constructor.
Defined.

(** ** A price printed and read again *)




(** ** A backup and its restore *)

Lemma removeQuotes_none (s : string) : includesChar s dquote = false -> removeQuotes s = s.
Proof.
  induction s as [|c r IH]; [reflexivity|].
  cbn. intros H. apply orb_false_iff in H. destruct H as [Hc Hr].
  rewrite Hc. cbn. f_equal. apply IH. exact Hr.
Qed.



















(** ** The counters of the dashboard *)

Lemma available_after_checkout (lines : list CartLine.t) (l : list Saree.t) :
  (forall s, In s l -> inCart (Saree.code s) lines = true -> Saree.status s = "available") ->
  length (List.filter isAvailable (map (soldIfInCart lines) l))
  + length (List.filter (fun s => inCart (Saree.code s) lines) l)
  = length (List.filter isAvailable l).
Proof.
  induction l as [|s l IH]; intros H; [reflexivity|].
  assert (IH' := IH (fun x Hx => H x (or_intror Hx))).
  cbn [map List.filter]. unfold soldIfInCart at 1.
  destruct (inCart (Saree.code s) lines) eqn:E.
  - assert (Hs : isAvailable s = true).
    { unfold isAvailable. rewrite (H s (or_introl eq_refl) E). reflexivity. }
    rewrite Hs.
    change (isAvailable (Saree.withStatus s "sold")) with false.
    cbn [length]. rewrite <- IH'. lia.
  - destruct (isAvailable s); cbn [length]; rewrite <- IH'; lia.
Qed.

Lemma available_after_return (l : list Saree.t) :
  forall i s,
    l !! i = Some s -> Saree.status s <> "available" ->
    length (List.filter isAvailable (<[i := Saree.withStatus s "available"]> l))
    = S (length (List.filter isAvailable l)).
Proof.
  induction l as [|x l IH]; intros [|i] s; cbn [lookup list_lookup]; try discriminate.
  - intros [= ->] Hs. cbn [insert list_insert List.filter].
    change (isAvailable (Saree.withStatus s "available")) with true.
    assert (Hx : isAvailable s = false) by (apply String.eqb_neq; exact Hs).
    rewrite Hx. reflexivity.
  - intros Hl Hs. change (<[S i := Saree.withStatus s "available"]> (x :: l))
      with (x :: <[i := Saree.withStatus s "available"]> l).
    cbn [List.filter]. destruct (isAvailable x); cbn [length]; rewrite (IH i s Hl Hs);
      reflexivity.
Qed.

Lemma filter_count (c : string) (l : list Sale.t) :
  length (List.filter (fun sale => negb (String.eqb (Sale.sareeCode sale) c)) l)
  + count_occ string_dec (map Sale.sareeCode l) c
  = length l.
Proof.
  induction l as [|x l IH]; [reflexivity|].
  cbn [List.filter map count_occ].
  destruct (string_dec (Sale.sareeCode x) c) as [E|E].
  - apply String.eqb_eq in E. rewrite E. cbn [negb length]. lia.
  - apply String.eqb_neq in E. rewrite E. cbn [negb length]. lia.
Qed.

(** X22.  The counters of the dashboard, in a consistent ledger.  A
    checkout of a cart whose items are available lowers Available Inventory
    by the number of cart lines and raises Items Sold by the same number.  A
    return that succeeds raises Available Inventory by one and lowers Items
    Sold by the number of sales of the code, which is at most one. *)
Theorem dashboard_counters :
  forall (clk : clock) (rnd : nat -> string) (c : string) (st : state),
    ledgerOk st ->
    ((forall s, In s (sarees st) -> inCart (Saree.code s) (cart st) = true ->
                Saree.status s = "available") ->
     let st' := completeSaleTransaction clk rnd st in
     availableInventory st' + length (cart st) = availableInventory st
     /\ itemsSold st' = itemsSold st + length (cart st))
    /\ (snd (processReturn c st) = true ->
        let st' := fst (processReturn c st) in
        availableInventory st' = S (availableInventory st)
        /\ itemsSold st' + count_occ string_dec (map Sale.sareeCode (sales st)) c
           = itemsSold st
        /\ itemsSold st <= S (itemsSold st')).
Proof.
  intros clk rnd c st Hok. pose proof Hok as (H1 & H2 & H3 & H4 & H5). split.
  - intros Hav. cbn zeta. unfold availableInventory, itemsSold.
    destruct (cart st) as [|l0 ls] eqn:Hc.
    { unfold completeSaleTransaction. rewrite Hc. cbn. lia. }
    rewrite completeSaleTransaction_nonempty by (rewrite Hc; discriminate).
    rewrite <- Hc in *. clear Hc l0 ls.
    cbn [sarees sales setNotification setPaymentMethod setShowPaymentModal setCart setSales
         setSarees].
    rewrite (fold_markSold_map (cart st) (sarees st) H1).
    rewrite length_app, length_imap.
    pose proof (available_after_checkout (cart st) (sarees st) Hav) as Ha.
    rewrite (cart_items_count (cart st) (sarees st) H1 H4) in Ha.
    + lia.
    + intros code Hin. apply in_map_iff in Hin. destruct Hin as (line & <- & Hl).
      destruct (H5 line Hl) as (s & Hs & Hcode & _). rewrite <- Hcode. apply in_map. exact Hs.
  - intros Htrue. cbn zeta.
    destruct (processReturn_cases c st) as [(n & E)|(s & i & Hf & Hi & Hs & Hst & E)];
      rewrite E in *; [discriminate|].
    unfold availableInventory, itemsSold.
    cbn [fst sarees sales setNotification setSales setSarees].
    pose proof (available_after_return (sarees st) i s Hs Hst) as Ha.
    pose proof (filter_count c (sales st)) as Hc.
    pose proof (proj1 (List.NoDup_count_occ string_dec _) H2 c) as Hle.
    lia.
Qed.

(** X22, on the sample cart of two items. *)
Lemma dashboard_counters_witness :
  availableInventory sampleCart = 2
  /\ availableInventory (completeSaleTransaction sampleClock sampleRnd sampleCart) = 0
  /\ itemsSold (completeSaleTransaction sampleClock sampleRnd sampleCart) = 2.
Proof.
  assert (Hok : ledgerOk sampleCart).
  { apply (ledgerOk_run [AddSaree sampleClock sampleForm; AddSaree sampleClock sampleForm2;
                         ScanInput "SAR101"; ScanInput "SAR102"] initialState).
    apply ledgerOk_initial. }
  destruct (proj1 (dashboard_counters sampleClock sampleRnd "SAR101" sampleCart Hok))
    as [Ha Hs].
  - intros s [<-|[<-|[]]] _; reflexivity.
  - split; [reflexivity|]. split; [|exact Hs].
    change (length (cart sampleCart)) with 2 in Ha.
    change (availableInventory sampleCart) with 2 in Ha. lia.
Defined.

(** ** The earlier variant *)

Lemma legacy_findIndex_head (c : string) (s : Legacy.saree) (l : list Legacy.saree) :
  Legacy.code s = c -> findIndex (Legacy.hasCode c) (s :: l) = Some 0.
Proof.
  intros H. cbn. unfold Legacy.hasCode. rewrite H, String.eqb_refl. reflexivity.
Qed.

Lemma legacy_findIndex_insert (c v : string) (l : list Legacy.saree) :
  forall i s,
    findIndex (Legacy.hasCode c) l = Some i ->
    l !! i = Some s ->
    findIndex (Legacy.hasCode c) (<[i := Legacy.withStatus s v]> l) = Some i
    /\ <[i := Legacy.withStatus s v]> l !! i = Some (Legacy.withStatus s v).
Proof.
  induction l as [|x l IH]; intros i s Hi Hs; [discriminate|].
  cbn [findIndex] in Hi. destruct (Legacy.hasCode c x) eqn:Hx.
  - injection Hi as <-. cbn in Hs. injection Hs as <-.
    change (<[0 := Legacy.withStatus x v]> (x :: l)) with (Legacy.withStatus x v :: l).
    cbn [findIndex].
    change (Legacy.hasCode c (Legacy.withStatus x v)) with (Legacy.hasCode c x).
    rewrite Hx. split; reflexivity.
  - destruct (findIndex (Legacy.hasCode c) l) as [j|] eqn:Hj; [|discriminate].
    cbn in Hi. injection Hi as <-. cbn [lookup list_lookup] in Hs.
    destruct (IH j s eq_refl Hs) as [H1 H2].
    change (<[S j := Legacy.withStatus s v]> (x :: l))
      with (x :: <[j := Legacy.withStatus s v]> l).
    cbn [findIndex]. rewrite Hx, H1. split; [reflexivity|exact H2].
Qed.

(** X23.  In the earlier variant a code is sold once: a sale that succeeds
    puts one sale, for the scanned code and dated by the clock, before the
    sales log and keeps the codes of the inventory; a second sale of the same
    code is refused as already sold and changes nothing but the
    notification. *)
Theorem legacy_sale_once :
  forall (clk clk2 : clock) (c : string) (st st1 : Legacy.state),
    Legacy.processSale clk c st = (st1, true) ->
    length (Legacy.sales st1) = S (length (Legacy.sales st))
    /\ (exists sale rest, Legacy.sales st1 = sale :: rest
                          /\ rest = Legacy.sales st
                          /\ Legacy.sareeCode sale = c
                          /\ Legacy.saleDate sale = localeString clk)
    /\ map Legacy.code (Legacy.sarees st1) = map Legacy.code (Legacy.sarees st)
    /\ Legacy.processSale clk2 c st1
       = (Legacy.showNotification ("Alert: " +:+ c +:+ " is already marked as SOLD!")
            error st1,
          false).
Proof.
  intros clk clk2 c st st1 H. unfold Legacy.processSale in H.
  destruct (findIndex (Legacy.hasCode c) (Legacy.sarees st)) as [i|] eqn:Hi; [|discriminate].
  destruct (Legacy.sarees st !! i) as [s|] eqn:Hs; [|discriminate].
  destruct (String.eqb (Legacy.status s) "sold"); [discriminate|].
  injection H as <-. cbn [Legacy.sales Legacy.sarees Legacy.showNotification].
  destruct (legacy_findIndex_insert c "sold" _ i s Hi Hs) as [H1 H2].
  split; [reflexivity|]. split; [|split].
  - eexists _, _. repeat split.
  - clear H1 H2 Hi. revert i Hs. generalize (Legacy.sarees st).
    induction l as [|x l IH]; intros [|i]; cbn; try discriminate.
    + intros [= ->]. reflexivity.
    + intros H. f_equal. apply IH. exact H.
  - unfold Legacy.processSale.
    cbn [Legacy.sales Legacy.sarees Legacy.showNotification].
    rewrite H1, H2. reflexivity.
Qed.

(** X23, on one item and two scans of its code. *)
Lemma legacy_sale_once_witness :
  map Legacy.code (Legacy.sarees legacyStock) = ["SAR-SIL-4821"]
  /\ snd (Legacy.handleManualScan sampleClock " sar-sil-4821 " legacyStock) = true
  /\ snd (Legacy.processSale sampleClock "SAR-SIL-4821"
            (fst (Legacy.processSale sampleClock "SAR-SIL-4821" legacyStock)))
     = false.
Proof.
  split; [reflexivity|]. split; [reflexivity|].
  exact (f_equal snd
           (proj2 (proj2 (proj2 (legacy_sale_once sampleClock sampleClock "SAR-SIL-4821"
                                   legacyStock
                                   (fst (Legacy.processSale sampleClock "SAR-SIL-4821"
                                                            legacyStock))
                                   eq_refl))))).
Defined.

Lemma toUpperCase_app (a b : string) :
  toUpperCase (a +:+ b) = toUpperCase a +:+ toUpperCase b.
Proof.
  induction a as [|c a IH]; [rewrite !append_nil_l; reflexivity|].
  rewrite append_cons. cbn. fold (toUpperCase (a +:+ b)) (toUpperCase a).
  rewrite IH, append_cons. reflexivity.
Qed.

Lemma upperChar_digit (c : ascii) : isDigit c = true -> upperChar c = c.
Proof. destruct c as [[] [] [] [] [] [] [] []]; intros H; try reflexivity; discriminate H. Qed.

Lemma toUpperCase_digits (s : string) : allChars isDigit s = true -> toUpperCase s = s.
Proof.
  induction s as [|c r IH]; [reflexivity|].
  cbn. intros H. apply andb_true_iff in H. destruct H as [Hc Hr].
  rewrite (upperChar_digit c Hc). f_equal. apply IH. exact Hr.
Qed.

Lemma trimEnd_app_end (a b : string) :
  trimEnd b = b -> JsString.truthy b = true -> trimEnd (a +:+ b) = a +:+ b.
Proof.
  intros Hb Ht. induction a as [|c a IH]; [rewrite append_nil_l; exact Hb|].
  rewrite append_cons. cbn [trimEnd]. rewrite IH.
  destruct (a +:+ b) eqn:E; [|reflexivity].
  destruct a; [rewrite append_nil_l in E; subst b; discriminate|].
  rewrite append_cons in E. discriminate.
Qed.

Lemma NToString_digits (n : N) :
  allChars isDigit (NToString n) = true /\ JsString.truthy (NToString n) = true.
Proof. apply digits_of_uint_zero. Qed.

(** A generated code is what a scan of it looks up. *)
Lemma generateProductCode_normal (type : string) (randomNum : N) :
  toUpperCase (trim (Legacy.generateProductCode type randomNum))
  = Legacy.generateProductCode type randomNum.
Proof.
  destruct (NToString_digits randomNum) as [Hd Ht].
  assert (Htrim : trim (Legacy.generateProductCode type randomNum)
                  = Legacy.generateProductCode type randomNum).
  { unfold trim, Legacy.generateProductCode.
    rewrite <- !append_assoc.
    rewrite trimEnd_app_end; [reflexivity| |exact Ht].
    apply trimEnd_no_space. eapply allChars_weaken; [|exact Hd].
    intros c Hc. apply isDigit_noSpaceQuote in Hc. unfold noSpaceQuote in Hc.
    apply andb_true_iff in Hc. apply Hc. }
  rewrite Htrim. unfold Legacy.generateProductCode.
  rewrite !toUpperCase_app, toUpperCase_idempotent, (toUpperCase_digits _ Hd). reflexivity.
Qed.

(** X24.  In the earlier variant an item that was just added is sold by
    scanning its code: any text whose trimmed, upper-cased form is the
    generated code, and the generated code itself, sells the new item, with
    one sale that carries its name and price. *)
Theorem legacy_add_then_scan :
  forall (clk clk2 : clock) (randomNum : N) (name type price scanCode : string)
         (st : Legacy.state),
    toUpperCase (trim scanCode) = Legacy.generateProductCode type randomNum ->
    let st1 := Legacy.handleAddSaree clk randomNum name type price st in
    snd (Legacy.handleManualScan clk2 scanCode st1) = true
    /\ map Legacy.status (Legacy.sarees (fst (Legacy.handleManualScan clk2 scanCode st1)))
       = "sold" :: map Legacy.status (Legacy.sarees st)
    /\ (exists sale,
          Legacy.sales (fst (Legacy.handleManualScan clk2 scanCode st1))
          = sale :: Legacy.sales st
          /\ Legacy.sareeCode sale = Legacy.generateProductCode type randomNum
          /\ Legacy.saleName sale = name
          /\ Legacy.salePrice sale = parseFloat price)
    /\ snd (Legacy.handleManualScan clk2 (Legacy.generateProductCode type randomNum) st1)
       = true.
Proof.
  intros clk clk2 randomNum name type price scanCode st Hscan. cbn zeta.
  assert (E : forall raw,
             toUpperCase (trim raw) = Legacy.generateProductCode type randomNum ->
             Legacy.handleManualScan clk2 raw
               (Legacy.handleAddSaree clk randomNum name type price st)
             = (Legacy.showNotification
                  ("Success! " +:+ Legacy.generateProductCode type randomNum
                   +:+ " marked as sold.") success
                  (Legacy.State
                     (Legacy.Saree (NToString (now clk))
                                   (Legacy.generateProductCode type randomNum) name type
                                   (parseFloat price) "sold" (isoString clk)
                      :: Legacy.sarees st)
                     (Legacy.Sale (NToString (now clk2))
                                  (Legacy.generateProductCode type randomNum) name
                                  (parseFloat price) (localeString clk2)
                      :: Legacy.sales st)
                     (Some (Notif ("Saree added! Code: "
                                   +:+ Legacy.generateProductCode type randomNum) success))),
                true)).
  { intros raw Hraw. unfold Legacy.handleManualScan, Legacy.processSale. rewrite Hraw.
    unfold Legacy.handleAddSaree.
    cbn [Legacy.sarees Legacy.sales Legacy.notification Legacy.showNotification].
    rewrite legacy_findIndex_head by reflexivity. reflexivity. }
  rewrite (E scanCode Hscan), (E _ (generateProductCode_normal type randomNum)).
  cbn. repeat split. eexists. repeat split.
Qed.

(** X24, on the code scanned in lower case between spaces. *)
Lemma legacy_add_then_scan_witness :
  snd (Legacy.handleManualScan sampleClock " sar-sil-4821 " legacyStock) = true.
Proof.
  exact (proj1 (legacy_add_then_scan sampleClock sampleClock 4821 "Kanchipuram" "Silk" "2500"
                  " sar-sil-4821 " (Legacy.State [] [] None) eq_refl)).
Defined.

Lemma legacy_sale_head clk c s l sl n :
  Legacy.code s = c ->
  Legacy.processSale clk c (Legacy.State (s :: l) sl n)
  = if String.eqb (Legacy.status s) "sold" then
      (Legacy.showNotification ("Alert: " +:+ c +:+ " is already marked as SOLD!") error
         (Legacy.State (s :: l) sl n),
       false)
    else
      (Legacy.showNotification ("Success! " +:+ c +:+ " marked as sold.") success
         (Legacy.State (Legacy.withStatus s "sold" :: l)
                       (Legacy.Sale (NToString (now clk)) c (Legacy.name s) (Legacy.price s)
                                    (localeString clk) :: sl)
                       n),
       true).
Proof.
  intros H. unfold Legacy.processSale. cbn [Legacy.sarees].
  rewrite (legacy_findIndex_head c s l H). reflexivity.
Qed.

(** X25.  The earlier variant does not check a generated code against the
    inventory: two adds with the same cloth type and the same random number
    give two items with one code.  A scan of that code sells the newer item;
    a second scan is refused as already sold and the older item stays
    available. *)
Theorem legacy_duplicate_codes :
  forall (clk1 clk2 clk3 clk4 : clock) (randomNum : N) (type name1 price1 name2 price2 : string)
         (st : Legacy.state),
    let c := Legacy.generateProductCode type randomNum in
    let st2 := Legacy.handleAddSaree clk2 randomNum name2 type price2
                 (Legacy.handleAddSaree clk1 randomNum name1 type price1 st) in
    map Legacy.code (Legacy.sarees st2) = c :: c :: map Legacy.code (Legacy.sarees st)
    /\ snd (Legacy.processSale clk3 c st2) = true
    /\ map Legacy.status (Legacy.sarees (fst (Legacy.processSale clk3 c st2)))
       = "sold" :: "available" :: map Legacy.status (Legacy.sarees st)
    /\ snd (Legacy.processSale clk4 c (fst (Legacy.processSale clk3 c st2))) = false
    /\ Legacy.sarees (fst (Legacy.processSale clk4 c (fst (Legacy.processSale clk3 c st2))))
       = Legacy.sarees (fst (Legacy.processSale clk3 c st2)).
Proof.
  intros clk1 clk2 clk3 clk4 randomNum type name1 price1 name2 price2 st c st2.
  subst st2. unfold Legacy.handleAddSaree. fold c.
  unfold Legacy.showNotification. cbn [Legacy.sarees Legacy.sales Legacy.notification].
  rewrite legacy_sale_head by reflexivity.
  change (String.eqb (Legacy.status _) "sold") with false. cbv iota.
  unfold Legacy.showNotification. cbn [fst snd Legacy.sarees Legacy.sales Legacy.notification].
  rewrite legacy_sale_head by reflexivity.
  repeat split.
Qed.

(** ** The same file twice *)

Lemma acceptedRows_all_seen (stockCodes cs : list string) :
  (forall c, In c cs -> In c stockCodes) ->
  forall earlier, acceptedRows stockCodes earlier cs = [].
Proof.
  induction cs as [|c cs IH]; intros H earlier; [reflexivity|].
  cbn. assert (Hc : mem c stockCodes = true) by (apply mem_In, H; left; reflexivity).
  rewrite Hc. cbn. apply IH. intros d Hd. apply H. right. exact Hd.
Qed.

Lemma importBatch_clock clk clk2 d cols stock rows :
  addedCount (importBatch clk2 d cols stock rows)
  = addedCount (importBatch clk d cols stock rows).
Proof.
  destruct (importBatch_added clk d cols stock rows) as (H1 & H2 & _).
  destruct (importBatch_added clk2 d cols stock rows) as (H3 & H4 & _).
  rewrite H1, H3. rewrite <- (length_map Saree.code), <- (length_map Saree.code (newSarees _)).
  fold (codes (newSarees (importBatch clk2 d cols stock rows))).
  fold (codes (newSarees (importBatch clk d cols stock rows))).
  rewrite H2, H4. reflexivity.
Qed.

Lemma import_again_nothing clk clk2 d cols stock rows :
  let new := newSarees (importBatch clk d cols stock rows) in
  newSarees (importBatch clk2 d cols (new ++ stock) rows) = []
  /\ addedCount (importBatch clk2 d cols (new ++ stock) rows) = 0.
Proof.
  cbn zeta. set (new := newSarees (importBatch clk d cols stock rows)).
  destruct (importBatch_added clk2 d cols (new ++ stock) rows) as (H1 & H2 & _).
  assert (Hnil : newSarees (importBatch clk2 d cols (new ++ stock) rows) = []).
  { apply (map_eq_nil Saree.code).
    fold (codes (newSarees (importBatch clk2 d cols (new ++ stock) rows))).
    rewrite H2. apply acceptedRows_all_seen. intros c Hc.
    rewrite codes_app, in_app_iff.
    destruct (accepted_or_seen (codes stock) [] (rowCodes d cols rows) c Hc)
      as [Hseen|Hacc].
    - cbn in Hseen. rewrite orb_false_r in Hseen. right. apply mem_In. exact Hseen.
    - left. unfold new.
      destruct (importBatch_added clk d cols stock rows) as (_ & H3 & _).
      rewrite H3. exact Hacc. }
  split; [exact Hnil|]. rewrite H1, Hnil. reflexivity.
Qed.

(** X26.  Importing a file again adds nothing: after an import, a second
    import of the same text leaves the inventory, the sales log and the cart
    as the first left them; when the first import added items, the second
    reports that none was imported and counts duplicates. *)
Theorem import_twice_adds_nothing :
  forall (clk clk2 : clock) (text : string) (st : state),
    let st1 := handleFileUpload clk text st in
    let st2 := handleFileUpload clk2 text st1 in
    sarees st2 = sarees st1
    /\ sales st2 = sales st
    /\ cart st2 = cart st
    /\ (sarees st1 <> sarees st ->
        exists n, notification st2
                  = Some (Notif ("No items imported. " +:+ natToString n
                                 +:+ " duplicates found.") error)).
Proof.
  intros clk clk2 text st. cbn zeta.
  destruct (handleFileUpload_frame clk text st) as (Hs1 & Hc1 & _).
  destruct (handleFileUpload_frame clk2 text (handleFileUpload clk text st))
    as (Hs2 & Hc2 & _).
  split; [|split; [congruence|split; [congruence|]]].
  - remember (handleFileUpload clk text st) as st1 eqn:E1.
    unfold handleFileUpload, onload. unfold handleFileUpload, onload in E1.
    destruct (findColumns _) as [cols|]; [|reflexivity].
    set (d := detectDelimiter text) in *. set (rows := tl (split newline text)) in *.
    destruct (Nat.ltb 0 (addedCount (importBatch clk d cols (sarees st) rows))) eqn:Hadd.
    + assert (Est : sarees st1 = newSarees (importBatch clk d cols (sarees st) rows)
                                 ++ sarees st) by (rewrite E1; reflexivity).
      rewrite Est.
      destruct (import_again_nothing clk clk2 d cols (sarees st) rows) as [_ H0].
      cbn zeta in H0. rewrite H0.
      cbn [Nat.ltb Nat.leb sarees showNotification setNotification]. exact Est.
    + assert (Est : sarees st1 = sarees st) by (rewrite E1; reflexivity).
      rewrite Est, (importBatch_clock clk clk2), Hadd. cbn. exact Est.
  - intros Hchanged.
    remember (handleFileUpload clk text st) as st1 eqn:E1.
    unfold handleFileUpload, onload. unfold handleFileUpload, onload in E1.
    destruct (findColumns _) as [cols|]; [|rewrite E1 in Hchanged; contradiction].
    set (d := detectDelimiter text) in *. set (rows := tl (split newline text)) in *.
    destruct (Nat.ltb 0 (addedCount (importBatch clk d cols (sarees st) rows))) eqn:Hadd;
      [|rewrite E1 in Hchanged; contradiction].
    assert (Est : sarees st1 = newSarees (importBatch clk d cols (sarees st) rows)
                               ++ sarees st) by (rewrite E1; reflexivity).
    rewrite Est.
    destruct (import_again_nothing clk clk2 d cols (sarees st) rows) as [_ H0].
    cbn zeta in H0. rewrite H0. cbn [Nat.ltb Nat.leb notification showNotification
                                     setNotification].
    eexists. reflexivity.
Qed.

(** X26, on the file with duplicate codes. *)
Lemma import_twice_adds_nothing_witness :
  codes (sarees (handleFileUpload sampleClock duplicateCsv
                   (handleFileUpload sampleClock duplicateCsv sampleStock)))
  = ["A1"; "SAR102"; "SAR101"]
  /\ exists n,
      notification (handleFileUpload sampleClock duplicateCsv
                      (handleFileUpload sampleClock duplicateCsv sampleStock))
      = Some (Notif ("No items imported. " +:+ natToString n +:+ " duplicates found.") error).
Proof.
  split; [reflexivity|].
  apply (proj2 (proj2 (proj2 (import_twice_adds_nothing sampleClock sampleClock duplicateCsv
                                sampleStock)))).
  discriminate.
Defined.

(** ** Codes stay in upper case *)







(** ** Blank rows at the end of a file *)

Lemma split_last_row (text blank : string) :
  includesChar blank newline = false ->
  split newline (text +:+ String newline blank) = split newline text ++ [blank].
Proof.
  intros Hb. induction text as [|c r IH].
  - rewrite append_nil_l. cbn [split]. change (Ascii.eqb newline newline) with true.
    cbv iota. rewrite (split_line blank Hb). reflexivity.
  - rewrite append_cons. cbn [split]. rewrite IH.
    destruct (Ascii.eqb c newline); [reflexivity|].
    destruct (split newline r) as [|h t] eqn:E; [exfalso; eapply split_nonempty; eauto|].
    reflexivity.
Qed.

Lemma trimEnd_white (s : string) : allChars isWhiteSpace s = true -> trimEnd s = EmptyString.
Proof.
  induction s as [|c r IH]; [reflexivity|].
  cbn. intros H. apply andb_true_iff in H. destruct H as [Hc Hr].
  rewrite (IH Hr), Hc. reflexivity.
Qed.

Lemma white_no_pipe (s : string) :
  allChars isWhiteSpace s = true -> includesChar s pipe = false.
Proof.
  induction s as [|c r IH]; [reflexivity|].
  cbn [allChars includesChar]. intros H. apply andb_true_iff in H. destruct H as [Hc Hr].
  rewrite (IH Hr), orb_false_r.
  destruct c as [[] [] [] [] [] [] [] []]; try reflexivity; discriminate Hc.
Qed.

Lemma rowCode_blank d cols (blank : string) :
  allChars isWhiteSpace blank = true -> rowCode d cols blank = None.
Proof.
  intros H. unfold rowCode, trim. rewrite (trimEnd_white blank H). reflexivity.
Qed.

(** X28.  A blank row at the end of a file changes nothing: a file
    followed by a line break and white space without a line break imports
    like the file itself.  So a file may end with a line break. *)
Theorem import_ignores_last_blank_row :
  forall (clk : clock) (text blank : string) (st : state),
    allChars isWhiteSpace blank = true ->
    includesChar blank newline = false ->
    handleFileUpload clk (text +:+ String newline blank) st = handleFileUpload clk text st.
Proof.
  intros clk text blank st Hw Hn. unfold handleFileUpload, onload.
  rewrite (split_last_row text blank Hn).
  assert (Hd : detectDelimiter (text +:+ String newline blank) = detectDelimiter text).
  { unfold detectDelimiter. rewrite includesChar_app. cbn [includesChar].
    change (Ascii.eqb newline pipe) with false. rewrite (white_no_pipe blank Hw).
    cbn [orb]. rewrite orb_false_r. reflexivity. }
  rewrite Hd.
  destruct (split newline text) as [|header rows] eqn:Hs;
    [exfalso; eapply split_nonempty; eauto|].
  cbn [app hd tl].
  destruct (findColumns _) as [cols|]; [|reflexivity].
  assert (Hb : importBatch clk (detectDelimiter text) cols (sarees st) (rows ++ [blank])
               = importBatch clk (detectDelimiter text) cols (sarees st) rows).
  { unfold importBatch. rewrite importLoop_app.
    unfold importRow. rewrite (rowCode_blank _ _ blank Hw). reflexivity. }
  rewrite Hb. reflexivity.
Qed.

(** X28, on the file with duplicate codes followed by a line break. *)
Lemma import_ignores_last_blank_row_witness :
  handleFileUpload sampleClock (duplicateCsv +:+ String newline EmptyString) sampleStock
  = handleFileUpload sampleClock duplicateCsv sampleStock.
Proof.
  exact (import_ignores_last_blank_row sampleClock duplicateCsv EmptyString sampleStock
           eq_refl eq_refl).
Defined.

(** ** The revenue on the dashboard *)

Lemma filter_paidBy_imap clk rnd (p q : payment) (lines : list CartLine.t) :
  List.filter (paidBy p) (imap (saleOf clk rnd q) lines)
  = if paidBy p (Sale.mk EmptyString EmptyString zero q EmptyString)
    then imap (saleOf clk rnd q) lines else [].
Proof.
  assert (H : forall (f : nat -> CartLine.t -> Sale.t),
             (forall k line, Sale.paymentMethod (f k line) = q) ->
             List.filter (paidBy p) (imap f lines)
             = if paidBy p (Sale.mk EmptyString EmptyString zero q EmptyString)
               then imap f lines else []).
  { induction lines as [|line lines IH]; intros f Hf.
    - destruct p, q; reflexivity.
    - rewrite imap_cons. cbn [List.filter].
      rewrite (IH (fun k => f (S k))) by (intros; apply Hf).
      unfold paidBy at 1. rewrite Hf. destruct p, q; reflexivity. }
  apply H. reflexivity.
Qed.

Section RevenueProperties.

Variable add : number -> number -> number.

Lemma revenue_app (new old : list Sale.t) :
  revenue add (new ++ old)
  = fold_left (fun sum sale => add sum (orElse (Sale.salePrice sale) zero)) old
              (revenue add new).
Proof. unfold revenue. apply fold_left_app. Qed.

Lemma revenue_new_sales clk rnd pm (lines : list CartLine.t) :
  (forall line, In line lines -> priced (CartLine.saree line)) ->
  revenue add (imap (saleOf clk rnd pm) lines)
  = fold_left (fun total item => add total (lineAmount item)) lines zero.
Proof.
  intros H. unfold revenue.
  assert (G : forall (f : nat -> CartLine.t -> Sale.t) total,
             (forall k line, Sale.salePrice (f k line) = finalPrice line) ->
             forall ls, (forall line, In line ls -> priced (CartLine.saree line)) ->
             fold_left (fun sum sale => add sum (orElse (Sale.salePrice sale) zero))
                       (imap f ls) total
             = fold_left (fun total item => add total (lineAmount item)) ls total).
  { intros f total Hf ls. revert f total Hf.
    induction ls as [|line ls IH]; intros f total Hf Hp; [reflexivity|].
    rewrite imap_cons. cbn [fold_left]. rewrite Hf.
    assert (Hline : priced (CartLine.saree line)) by (apply Hp; left; reflexivity).
    rewrite (lineAmount_finalPrice line Hline).
    rewrite (settled_finalPrice line Hline).
    apply IH; [intros; apply Hf|]. intros l Hl. apply Hp. right. exact Hl. }
  apply G; [reflexivity|exact H].
Qed.

(** X29.  What a checkout does to the revenue on the dashboard.  A
    checkout paid in cash leaves the UPI revenue as it was, and one paid by
    UPI leaves the cash revenue.  When the prices of the items in the cart are
    settled, the total revenue after the checkout is the earlier sales added
    one by one onto the total of the cart, and so is the revenue of the
    payment method chosen, over the earlier sales of that method.  This holds
    whatever the addition of the host is. *)
Theorem dashboard_revenue :
  forall (clk : clock) (rnd : nat -> string) (st : state),
    let st' := completeSaleTransaction clk rnd st in
    let more := fold_left (fun sum sale => add sum (orElse (Sale.salePrice sale) zero)) in
    (paymentMethod st = Cash -> upiRevenue add st' = upiRevenue add st)
    /\ (paymentMethod st = UPI -> cashRevenue add st' = cashRevenue add st)
    /\ ((forall line, In line (cart st) -> priced (CartLine.saree line)) ->
        totalRevenue add st' = more (sales st) (calculateCartTotal add st)
        /\ (paymentMethod st = Cash ->
            cashRevenue add st'
            = more (List.filter (paidBy Cash) (sales st)) (calculateCartTotal add st))
        /\ (paymentMethod st = UPI ->
            upiRevenue add st'
            = more (List.filter (paidBy UPI) (sales st)) (calculateCartTotal add st))).
Proof.
  intros clk rnd st. cbn zeta.
  unfold totalRevenue, cashRevenue, upiRevenue, calculateCartTotal.
  destruct (cart st) as [|l0 ls] eqn:Hc.
  { unfold completeSaleTransaction. rewrite Hc. cbn. repeat split; reflexivity. }
  rewrite completeSaleTransaction_nonempty by (rewrite Hc; discriminate).
  rewrite <- Hc. clear Hc l0 ls.
  cbn [sales setNotification setPaymentMethod setShowPaymentModal setCart setSales setSarees].
  rewrite !List.filter_app, !filter_paidBy_imap.
  split; [|split].
  - intros ->. reflexivity.
  - intros ->. reflexivity.
  - intros Hp. split; [|split].
    + rewrite revenue_app, revenue_new_sales by exact Hp. reflexivity.
    + intros ->. cbn [paidBy Sale.paymentMethod].
      rewrite revenue_app, revenue_new_sales by exact Hp. reflexivity.
    + intros ->. cbn [paidBy Sale.paymentMethod].
      rewrite revenue_app, revenue_new_sales by exact Hp. reflexivity.
Qed.

End RevenueProperties.

(** X29, on the sample cart, paid by UPI, with the exact sum of decimals. *)
Lemma dashboard_revenue_witness :
  totalRevenue sampleAdd (completeSaleTransaction sampleClock sampleRnd sampleCart)
  = Dec 950 0
  /\ upiRevenue sampleAdd (completeSaleTransaction sampleClock sampleRnd sampleCart)
     = Dec 950 0
  /\ cashRevenue sampleAdd (completeSaleTransaction sampleClock sampleRnd sampleCart)
     = cashRevenue sampleAdd sampleCart.
Proof.
  split; [reflexivity|]. split; [reflexivity|].
  exact (proj1 (proj2 (dashboard_revenue sampleAdd sampleClock sampleRnd sampleCart)) eq_refl).
Defined.

(** ** A pipe in a comma-separated file *)

Lemma split_no_separator (sep : ascii) (s : string) :
  includesChar s sep = false -> split sep s = [s].
Proof.
  induction s as [|c r IH]; [reflexivity|].
  cbn. intros H. apply orb_false_iff in H. destruct H as [Hc Hr].
  rewrite Hc, (IH Hr). reflexivity.
Qed.

Lemma includesChar_trimStart (s : string) (c : ascii) :
  includesChar s c = false -> includesChar (trimStart s) c = false.
Proof.
  induction s as [|d r IH]; [reflexivity|].
  intros H. cbn [trimStart]. destruct (isWhiteSpace d); [|exact H].
  apply IH. cbn in H. apply orb_false_iff in H. apply H.
Qed.

Lemma includesChar_trimEnd (s : string) (c : ascii) :
  includesChar s c = false -> includesChar (trimEnd s) c = false.
Proof.
  induction s as [|d r IH]; [reflexivity|].
  intros H. cbn [includesChar] in H. apply orb_false_iff in H. destruct H as [Hd Hr].
  cbn [trimEnd]. specialize (IH Hr).
  destruct (trimEnd r) as [|e r'].
  - destruct (isWhiteSpace d); [reflexivity|]. cbn [includesChar]. rewrite Hd. reflexivity.
  - cbn [includesChar] in *. rewrite Hd. exact IH.
Qed.

(** X30.  One pipe anywhere in the file makes the pipe the delimiter of
    every row: a row without pipe and without quote is then read as one cell,
    the whole trimmed row, and when the code column is the first column its
    code is the whole row in upper case. *)
Theorem pipe_disables_commas :
  forall (text row : string) (cols : columns),
    includesChar text pipe = true ->
    includesChar row pipe = false ->
    includesChar row dquote = false ->
    detectDelimiter text = pipe
    /\ parseCSVRow (detectDelimiter text) row = [trim row]
    /\ (codeIdx cols = 0%nat ->
        rowCode (detectDelimiter text) cols row
        = if JsString.truthy (trim row) then Some (toUpperCase (trim row)) else None).
Proof.
  intros text row cols Hp Hr Hq.
  assert (Hd : detectDelimiter text = pipe) by (unfold detectDelimiter; rewrite Hp; reflexivity).
  rewrite Hd.
  assert (Hrow : parseCSVRow pipe row = [trim row]).
  { rewrite (parseCSVRow_split pipe row Hq), (split_no_separator pipe row Hr).
    reflexivity. }
  split; [reflexivity|]. split; [exact Hrow|].
  intros Hc. unfold rowCode. rewrite Hrow, Hc.
  destruct (JsString.truthy (trim row)) eqn:Ht; [|reflexivity].
  cbn [negb lookup list_lookup].
  assert (Hnq : includesChar (trim row) dquote = false).
  { unfold trim. apply includesChar_trimStart, includesChar_trimEnd. exact Hq. }
  rewrite (removeQuotes_none _ Hnq), truthy_toUpperCase, Ht. reflexivity.
Qed.

(** X30, on a comma-separated file with a pipe in one shop name. *)
Lemma pipe_disables_commas_witness :
  parseCSVRow (detectDelimiter pipeCsv) "A1,Sharma" = ["A1,Sharma"]
  /\ codes (sarees (handleFileUpload sampleClock pipeCsv initialState))
     = ["A1,SHARMA"; "B2,GUPTA"].
Proof.
  split; [|reflexivity].
  exact (proj1 (proj2 (pipe_disables_commas pipeCsv "A1,Sharma" codeOnly
                         eq_refl eq_refl eq_refl))).
Defined.
